(** * Attribute resolution of libgit2 (src/attr.c)

    A shallow embedding of the orchestration file [attr.c]: the value
    classifier, the three public queries ([git_attr_get],
    [git_attr_get_many], [git_attr_foreach]) and the collector that
    gathers the attribute files applying to a path.

    Conventions of the embedding.
    - A [const char *] attribute value is a [value_ptr]: [NULL], one of
      the three sentinel strings of attr.c (compared by address in the
      C code), or any other string.
    - [int] results and [uint32_t] flags are [Z]; bit tests are
      [Z.land].
    - A [git_vector] is a list; [git_vector_insert] on an unsorted
      vector appends.  Memory allocation is taken to succeed.
    - Everything attr.c calls but does not define (repository, path,
      system directory, pattern matcher, attribute cache) is a field of
      the class [Collaborators].  The attribute cache is the only
      collaborator with state; it is threaded through the monad [M],
      which also records every request made to the cache. *)

From Stdlib Require Import ZArith Ascii String List Lia Bool.
From stdpp Require Import base list gmap strings.

Local Open Scope Z_scope.

(** ** Values *)

(** [const char *]: the three sentinels are the globals declared at the
    top of attr.c; [str s] is a pointer to any other string. *)
Inductive value_ptr : Type :=
| NULL
| git_attr__true
| git_attr__false
| git_attr__unset
| str (s : string).

(** The enumerators [git_attr_value] returns. *)
Inductive git_attr_value_t : Type :=
| GIT_ATTR_VALUE_UNSPECIFIED
| GIT_ATTR_VALUE_TRUE
| GIT_ATTR_VALUE_FALSE
| GIT_ATTR_VALUE_STRING.

Definition git_attr_value (attr : value_ptr) : git_attr_value_t :=
  match attr with
  | NULL | git_attr__unset => GIT_ATTR_VALUE_UNSPECIFIED
  | git_attr__true => GIT_ATTR_VALUE_TRUE
  | git_attr__false => GIT_ATTR_VALUE_FALSE
  | str _ => GIT_ATTR_VALUE_STRING
  end.

(** ** Constants of the public headers *)

(** Modelled from the spec: the check flags of git2/attr.h (section 6:
    source-order values 0, 1, 2; NO_SYSTEM is bit 2, INCLUDE_HEAD is
    bit 3). *)
Definition GIT_ATTR_CHECK_FILE_THEN_INDEX : Z := 0.
Definition GIT_ATTR_CHECK_INDEX_THEN_FILE : Z := 1.
Definition GIT_ATTR_CHECK_INDEX_ONLY : Z := 2.
Definition GIT_ATTR_CHECK_NO_SYSTEM : Z := Z.shiftl 1 2.
Definition GIT_ATTR_CHECK_INCLUDE_HEAD : Z := Z.shiftl 1 3.

(** Modelled from the spec: the distinguished NOT_FOUND code of
    git2/errors.h; every error code is negative. *)
Definition GIT_ENOTFOUND : Z := -3.

(** Modelled from the spec: the file names of attr_file.h
    ([$GIT_DIR/info/attributes], [.gitattributes], and the system
    file). *)
Definition GIT_ATTR_FILE : string := ".gitattributes".
Definition GIT_ATTR_FILE_INREPO : string := "attributes".
Definition GIT_ATTR_FILE_SYSTEM : string := "gitattributes".

(** ** Data model *)

Inductive git_attr_file_source_t : Type :=
| GIT_ATTR_FILE_SOURCE_MEMORY
| GIT_ATTR_FILE_SOURCE_FILE
| GIT_ATTR_FILE_SOURCE_INDEX
| GIT_ATTR_FILE_SOURCE_COMMIT.

Inductive git_dir_flag : Type :=
| GIT_DIR_FLAG_TRUE
| GIT_DIR_FLAG_FALSE
| GIT_DIR_FLAG_UNKNOWN.

(** A [git_buf] is known here by its text only ([ptr], with
    [size = length ptr]); [GIT_BUF_INIT] is the empty text. *)
Definition git_buf : Type := string.
Definition GIT_BUF_INIT : git_buf := ""%string.

Record git_attr_file_source : Type := {
  src_type : git_attr_file_source_t;
  src_base : option string;
  src_filename : option string
}.

Record git_attr_name : Type := {
  attr_name : string;
  attr_name_hash : Z
}.

Record git_attr_assignment : Type := {
  assign_name : string;
  assign_name_hash : Z;
  assign_value : value_ptr
}.

Record git_attr_fnmatch : Type := {
  pattern : string;
  fnmatch_flags : Z;
  containing_dir : option string
}.

Record git_attr_rule : Type := {
  rule_match : git_attr_fnmatch;
  assigns : list git_attr_assignment
}.

Record git_attr_file : Type := {
  file_source : git_attr_file_source;
  rules : list git_attr_rule
}.

Record git_attr_session : Type := {
  init_setup : bool;
  init_sysdir : bool;
  sysdir : git_buf
}.

(** ** attr_decide_sources

    The C function fills [srcs] and returns the count; here the filled
    prefix of [srcs] is returned as a list. *)
Definition attr_decide_sources (flags : Z) (has_wd has_index : bool)
  : list git_attr_file_source_t :=
  let srcs :=
    if Z.land flags 3 =? GIT_ATTR_CHECK_FILE_THEN_INDEX then
      (if has_wd then [GIT_ATTR_FILE_SOURCE_FILE] else [])
      ++ (if has_index then [GIT_ATTR_FILE_SOURCE_INDEX] else [])
    else if Z.land flags 3 =? GIT_ATTR_CHECK_INDEX_THEN_FILE then
      (if has_index then [GIT_ATTR_FILE_SOURCE_INDEX] else [])
      ++ (if has_wd then [GIT_ATTR_FILE_SOURCE_FILE] else [])
    else if Z.land flags 3 =? GIT_ATTR_CHECK_INDEX_ONLY then
      (if has_index then [GIT_ATTR_FILE_SOURCE_INDEX] else [])
    else [] in
  if Z.land flags GIT_ATTR_CHECK_INCLUDE_HEAD =? 0 then srcs
  else srcs ++ [GIT_ATTR_FILE_SOURCE_COMMIT].

(** ** Collaborators

    The functions and opaque types attr.c uses from the rest of the
    library.  A function returning [int] and filling a buffer returns
    the pair of both.  Only the attribute cache carries state. *)
Class Collaborators : Type := {
  git_repository : Type;
  git_index : Type;
  git_attr_path : Type;
  attr_cache : Type;
  git_repository_is_bare : git_repository -> bool;
  git_repository_workdir : git_repository -> option string;
  (* git_repository_item_path(out, repo, GIT_REPOSITORY_ITEM_INFO) *)
  git_repository_item_path : git_repository -> Z * git_buf;
  git_repository_index__weakptr : git_repository -> Z * option git_index;
  git_repository_workdir_path : git_repository -> option string -> Z * git_buf;
  (* git_repository_attr_cache(repo)->cfg_attr_file *)
  cfg_attr_file : git_repository -> option string;
  git_path_find_dir : git_buf -> Z * git_buf;
  git_path_dirname_r : option string -> Z * git_buf;
  (* the directories git_path_walk_up hands to its callback, in order *)
  git_path_walk_up_dirs : git_buf -> option string -> list string;
  git_sysdir_find_system_file : string -> Z * git_buf;
  git_attr_path__init :
    git_repository -> option string -> option string -> git_dir_flag ->
    option git_attr_path;
  git_attr_rule__match : git_attr_rule -> git_attr_path -> bool;
  git_attr_file__name_hash : string -> Z;
  git_attr_cache__init : git_repository -> attr_cache -> Z * attr_cache;
  git_attr_cache__get :
    git_repository -> option git_attr_session -> git_attr_file_source ->
    bool -> attr_cache -> Z * option git_attr_file * attr_cache
}.

(** ** The state monad *)

(** One request to the attribute cache: the source asked for, the
    [allow_macros] flag handed to the parser, and the answer. *)
Record cache_request : Type := {
  req_source : git_attr_file_source;
  req_allow_macros : bool;
  req_error : Z;
  req_file : option git_attr_file
}.

Section Monad.
Context `{Collaborators}.

Record state : Type := {
  cache : attr_cache;
  requests : list cache_request
}.

Definition M (A : Type) : Type := state -> A * state.

Definition ret {A} (a : A) : M A := fun s => (a, s).

Definition bind {A B} (m : M A) (k : A -> M B) : M B :=
  fun s => let (a, s') := m s in k a s'.

End Monad.

Declare Scope attr_scope.
Delimit Scope attr_scope with attr.
Notation "x <- m ;; k" := (bind m (fun x => k))
  (at level 100, m at next level, right associativity) : attr_scope.
Notation "'let*' p := m 'in' k" := (bind m (fun p => k))
  (at level 10, p pattern, m at level 100, k at level 200) : attr_scope.
Local Open Scope attr_scope.

Section Collector.
Context `{Collaborators}.

(** [git_attr_cache__init] and [git_attr_cache__get] lifted to [M];
    the latter appends the request to [requests]. *)
Definition attr_cache__init (repo : git_repository) : M Z :=
  fun s =>
    let (error, c) := git_attr_cache__init repo (cache s) in
    (error, {| cache := c; requests := requests s |}).

Definition attr_cache__get (repo : git_repository)
    (attr_session : option git_attr_session)
    (source : git_attr_file_source) (allow_macros : bool)
  : M (Z * option git_attr_file) :=
  fun s =>
    let '(error, file, c) :=
      git_attr_cache__get repo attr_session source allow_macros (cache s) in
    ((error, file),
     {| cache := c;
        requests := requests s ++
          [{| req_source := source; req_allow_macros := allow_macros;
              req_error := error; req_file := file |}] |}).

Definition preload_attr_source (repo : git_repository)
    (attr_session : option git_attr_session)
    (source : option git_attr_file_source) : M Z :=
  match source with
  | None => ret 0
  | Some source =>
      let* (error, preload) := attr_cache__get repo attr_session source true in
      ret error
  end.

Definition preload_attr_file (repo : git_repository)
    (attr_session : option git_attr_session)
    (base filename : option string) : M Z :=
  match filename with
  | None => ret 0
  | Some _ =>
      preload_attr_source repo attr_session
        (Some {| src_type := GIT_ATTR_FILE_SOURCE_FILE;
                 src_base := base; src_filename := filename |})
  end.

(** Returns the error, the buffer [out] and the session as the call
    leaves them. *)
Definition system_attr_file (out : git_buf)
    (attr_session : option git_attr_session)
  : Z * git_buf * option git_attr_session :=
  match attr_session with
  | None =>
      let (error, out) := git_sysdir_find_system_file GIT_ATTR_FILE_SYSTEM in
      (error, out, None)
  | Some sess =>
      let finish (sess : git_attr_session) :=
        if (String.length (sysdir sess) =? 0)%nat
        then (GIT_ENOTFOUND, out, Some sess)
        else (0, sysdir sess, Some sess) in
      if init_sysdir sess then finish sess
      else
        let (error, buf) := git_sysdir_find_system_file GIT_ATTR_FILE_SYSTEM in
        let sess := {| init_setup := init_setup sess;
                       init_sysdir := false; sysdir := buf |} in
        if negb (error =? GIT_ENOTFOUND) && negb (error =? 0)
        then (error, out, Some sess)
        else finish {| init_setup := init_setup sess;
                       init_sysdir := true; sysdir := sysdir sess |}
  end.

Definition session_init_setup (attr_session : option git_attr_session) : bool :=
  match attr_session with
  | Some sess => init_setup sess
  | None => false
  end.

Definition set_init_setup (attr_session : option git_attr_session)
  : option git_attr_session :=
  match attr_session with
  | Some sess =>
      Some {| init_setup := true; init_sysdir := init_sysdir sess;
              sysdir := sysdir sess |}
  | None => None
  end.

(** [e] is negative and not [GIT_ENOTFOUND]: the guard of the blocks
    that absorb NOT_FOUND. *)
Definition fatal (e : Z) : bool := (e <? 0) && negb (e =? GIT_ENOTFOUND).

Definition attr_setup (repo : git_repository)
    (attr_session : option git_attr_session) (flags : Z)
  : M (Z * option git_attr_session) :=
  if session_init_setup attr_session then ret (0, attr_session) else
  error <- attr_cache__init repo ;;
  if error <? 0 then ret (error, attr_session) else
  let '(error, system, attr_session) :=
    system_attr_file GIT_BUF_INIT attr_session in
  error <- (if error <? 0 then ret error
            else preload_attr_file repo attr_session None (Some system)) ;;
  if fatal error then ret (error, attr_session) else
  error <- preload_attr_file repo attr_session None (cfg_attr_file repo) ;;
  if error <? 0 then ret (error, attr_session) else
  let (error, info) := git_repository_item_path repo in
  error <- (if error <? 0 then ret error
            else preload_attr_file repo attr_session (Some info)
                   (Some GIT_ATTR_FILE_INREPO)) ;;
  if fatal error then ret (error, attr_session) else
  let error := if error <? 0 then 0 else error in
  error <- (match git_repository_workdir repo with
            | Some workdir =>
                preload_attr_file repo attr_session (Some workdir)
                  (Some GIT_ATTR_FILE)
            | None => ret error
            end) ;;
  if error <? 0 then ret (error, attr_session) else
  let error := fst (git_repository_index__weakptr repo) in
  error <- (if error <? 0 then ret error
            else preload_attr_source repo attr_session
                   (Some {| src_type := GIT_ATTR_FILE_SOURCE_INDEX;
                            src_base := None;
                            src_filename := Some GIT_ATTR_FILE |})) ;;
  if error <? 0 then ret (error, attr_session) else
  error <- (if Z.land flags GIT_ATTR_CHECK_INCLUDE_HEAD =? 0 then ret error
            else preload_attr_source repo attr_session
                   (Some {| src_type := GIT_ATTR_FILE_SOURCE_COMMIT;
                            src_base := None;
                            src_filename := Some GIT_ATTR_FILE |})) ;;
  if error <? 0 then ret (error, attr_session) else
  ret (error, set_init_setup attr_session).

Record attr_walk_up_info : Type := {
  info_repo : git_repository;
  info_attr_session : option git_attr_session;
  info_flags : Z;
  info_workdir : option string;
  info_index : option git_index;
  info_files : list git_attr_file
}.

Definition set_files (info : attr_walk_up_info) (files : list git_attr_file)
  : attr_walk_up_info :=
  {| info_repo := info_repo info;
     info_attr_session := info_attr_session info;
     info_flags := info_flags info;
     info_workdir := info_workdir info;
     info_index := info_index info;
     info_files := files |}.

(** Returns the error and the vector [list] (here [lst]) as the call
    leaves it. *)
Definition push_attr_source (repo : git_repository)
    (attr_session : option git_attr_session)
    (lst : list git_attr_file) (source : git_attr_file_source)
    (allow_macros : bool) : M (Z * list git_attr_file) :=
  let* (error, file) :=
    attr_cache__get repo attr_session source allow_macros in
  if error <? 0 then ret (error, lst) else
  match file with
  | Some file => ret (0, lst ++ [file])
  | None => ret (error, lst)
  end.

Definition push_attr_file (repo : git_repository)
    (attr_session : option git_attr_session)
    (lst : list git_attr_file) (base filename : option string)
  : M (Z * list git_attr_file) :=
  push_attr_source repo attr_session lst
    {| src_type := GIT_ATTR_FILE_SOURCE_FILE;
       src_base := base; src_filename := filename |} true.

(** The [for] loop of [push_one_attr] over the decided sources. *)
Fixpoint push_one_attr_loop (info : attr_walk_up_info) (path : string)
    (allow_macros : bool) (src : list git_attr_file_source_t) (error : Z)
  : M (Z * attr_walk_up_info) :=
  match src with
  | [] => ret (error, info)
  | src_i :: src =>
      if negb (error =? 0) then ret (error, info) else
      let* (error, files) :=
        push_attr_source (info_repo info) (info_attr_session info)
          (info_files info)
          {| src_type := src_i; src_base := Some path;
             src_filename := Some GIT_ATTR_FILE |}
          allow_macros in
      push_one_attr_loop (set_files info files) path allow_macros src error
  end.

Definition is_Some_b {A} (o : option A) : bool :=
  match o with Some _ => true | None => false end.

Definition push_one_attr (ref : attr_walk_up_info) (path : string)
  : M (Z * attr_walk_up_info) :=
  let src :=
    attr_decide_sources (info_flags ref)
      (is_Some_b (info_workdir ref)) (is_Some_b (info_index ref)) in
  let allow_macros :=
    match info_workdir ref with
    | Some workdir => String.eqb workdir path
    | None => false
    end in
  push_one_attr_loop ref path allow_macros src 0.

(** Modelled from the spec: git_path_walk_up of path.c (section 6,
    PathWalker: the callback is given each directory from the start
    upward; section 9: the walk is driven through a callback).  The
    directories are those of [git_path_walk_up_dirs]; a callback
    result other than 0 ends the walk and is returned. *)
Fixpoint walk_up_loop {R : Type} (dirs : list string)
    (cb : R -> string -> M (Z * R)) (data : R) : M (Z * R) :=
  match dirs with
  | [] => ret (0, data)
  | d :: dirs =>
      let* (error, data) := cb data d in
      if error =? 0 then walk_up_loop dirs cb data else ret (error, data)
  end.

Definition git_path_walk_up {R : Type} (path : git_buf)
    (ceiling : option string) (cb : R -> string -> M (Z * R)) (data : R)
  : M (Z * R) :=
  walk_up_loop (git_path_walk_up_dirs path ceiling) cb data.

(** Every file is released and the vector emptied. *)
Definition release_attr_files (files : list git_attr_file)
  : list git_attr_file := [].

(** The [cleanup] label of [collect_attr_files]. *)
Definition collect_cleanup (error : Z) (files : list git_attr_file)
  : list git_attr_file :=
  if error <? 0 then release_attr_files files else files.

Definition collect_attr_files (repo : git_repository)
    (attr_session : option git_attr_session) (flags : Z)
    (path : option string) (files : list git_attr_file)
  : M (Z * list git_attr_file * option git_attr_session) :=
  let workdir := git_repository_workdir repo in
  let* (error, attr_session) := attr_setup repo attr_session flags in
  if error <? 0 then ret (error, files, attr_session) else
  (* Resolve path in a non-bare repo *)
  let (error, dir) :=
    match workdir with
    | Some _ =>
        let (error, dir) := git_repository_workdir_path repo path in
        if error =? 0 then git_path_find_dir dir else (error, dir)
    | None => git_path_dirname_r path
    end in
  if error <? 0 then ret (error, collect_cleanup error files, attr_session) else
  let (error, attrfile) := git_repository_item_path repo in
  let* (error, files) :=
    (if error <? 0 then ret (error, files)
     else push_attr_file repo attr_session files (Some attrfile)
            (Some GIT_ATTR_FILE_INREPO)) in
  if fatal error
  then ret (error, collect_cleanup error files, attr_session) else
  let index :=
    let (e, idx) := git_repository_index__weakptr repo in
    if e <? 0 then None else idx in
  let info :=
    {| info_repo := repo; info_attr_session := attr_session;
       info_flags := flags; info_workdir := workdir;
       info_index := index; info_files := files |} in
  let* (error, info) :=
    (if String.eqb dir "." then push_one_attr info ""%string
     else git_path_walk_up dir workdir push_one_attr info) in
  let files := info_files info in
  if error <? 0 then ret (error, collect_cleanup error files, attr_session) else
  let* (error, files) :=
    (match cfg_attr_file repo with
     | Some _ =>
         push_attr_file repo attr_session files None (cfg_attr_file repo)
     | None => ret (error, files)
     end) in
  if error <? 0 then ret (error, collect_cleanup error files, attr_session) else
  if Z.land flags GIT_ATTR_CHECK_NO_SYSTEM =? 0 then
    let '(error, dir, attr_session) := system_attr_file dir attr_session in
    let* (error, files) :=
      (if error =? 0
       then push_attr_file repo attr_session files None (Some dir)
       else if error =? GIT_ENOTFOUND then ret (0, files)
       else ret (error, files)) in
    ret (error, collect_cleanup error files, attr_session)
  else ret (error, collect_cleanup error files, attr_session).

End Collector.

(** ** Searching a rule's assignments *)

(** Modelled from the spec: the order of a rule's assignment vector
    (section 3: sorted by name hash, then by name).  [name_cmp key a]
    compares the searched name with an assignment. *)
Definition name_cmp (key : git_attr_name) (a : git_attr_assignment)
  : comparison :=
  match attr_name_hash key ?= assign_name_hash a with
  | Eq => String.compare (attr_name key) (assign_name a)
  | c => c
  end.

(** Modelled from the spec: git_vector_bsearch of vector.c (section
    4.5: the assignment list is binary-searched for the name).  The
    window is [lim] entries from [base]; the middle entry is compared
    and the window halved to its left or right part.  [Some pos] is the
    C result 0 with [*pos] written.  The vector is searched as it is:
    a rule's assignments are sorted when the rule is parsed.  [fuel]
    bounds the number of halvings; the length of the vector is
    enough. *)
Fixpoint bsearch_loop (fuel : nat) (v : list git_attr_assignment)
    (key : git_attr_name) (base lim : nat) : option nat :=
  match fuel with
  | O => None
  | S fuel =>
      if (lim =? 0)%nat then None else
      let part := (base + lim / 2)%nat in
      match v !! part with
      | None => None
      | Some a =>
          match name_cmp key a with
          | Eq => Some part
          | Gt => bsearch_loop fuel v key (part + 1) ((lim - 1) / 2)
          | Lt => bsearch_loop fuel v key base (lim / 2)
          end
      end
  end.

Definition git_vector_bsearch (v : list git_attr_assignment)
    (key : git_attr_name) : option nat :=
  bsearch_loop (length v) v key 0 (length v).

Definition git_vector_get {A : Type} (v : list A) (pos : nat) : option A :=
  v !! pos.

(** The value read at cleanup when the search succeeded at [pos]
    (the search only returns positions inside the vector). *)
Definition value_at (v : list git_attr_assignment) (pos : nat) : value_ptr :=
  match git_vector_get v pos with
  | Some a => assign_value a
  | None => NULL
  end.

Section Resolver.
Context `{Collaborators}.

(** Modelled from the spec: the iteration macro
    git_attr_file__foreach_matching_rule of attr_file.h (section 3:
    later rules of a file override earlier ones, so the rules are
    visited last to first; section 4.5: only rules whose pattern
    matches the path are visited). *)
Definition foreach_matching_rule (file : git_attr_file)
    (path : git_attr_path) : list git_attr_rule :=
  List.filter (fun rule => git_attr_rule__match rule path)
    (rev (rules file)).

(** *** git_attr_get *)

(** The two nested loops; [Some v] is the jump to [cleanup] with
    [*value = v]. *)
Fixpoint get_rules (matching : list git_attr_rule) (attr : git_attr_name)
  : option value_ptr :=
  match matching with
  | [] => None
  | rule :: matching =>
      match git_vector_bsearch (assigns rule) attr with
      | Some pos => Some (value_at (assigns rule) pos)
      | None => get_rules matching attr
      end
  end.

Fixpoint get_files (files : list git_attr_file) (path : git_attr_path)
    (attr : git_attr_name) : option value_ptr :=
  match files with
  | [] => None
  | file :: files =>
      match get_rules (foreach_matching_rule file path) attr with
      | Some v => Some v
      | None => get_files files path attr
      end
  end.

Definition dir_flag_of (repo : git_repository) : git_dir_flag :=
  if git_repository_is_bare repo then GIT_DIR_FLAG_FALSE
  else GIT_DIR_FLAG_UNKNOWN.

(** [value] is the caller's slot ([None]: a NULL pointer was passed);
    the result carries the slot as the call leaves it. *)
Definition git_attr_get (value : option value_ptr)
    (repo : option git_repository) (flags : Z)
    (pathname : option string) (name : option string)
  : M (Z * option value_ptr) :=
  match value, repo, name with
  | Some _, Some repo, Some name =>
      let value := NULL in
      match git_attr_path__init repo pathname
              (git_repository_workdir repo) (dir_flag_of repo) with
      | None => ret (-1, Some value)
      | Some path =>
          let* (error, files, _) :=
            collect_attr_files repo None flags pathname [] in
          if error <? 0 then ret (error, Some value) else
          let attr := {| attr_name := name;
                         attr_name_hash := git_attr_file__name_hash name |} in
          match get_files files path attr with
          | Some v => ret (error, Some v)
          | None => ret (error, Some value)
          end
      end
  | _, _, _ => ret (-1, value)
  end.

(** *** git_attr_get_many *)

Record attr_get_many_info : Type := {
  many_name : option git_attr_name;
  many_found : option git_attr_assignment
}.

(** The locals the loops of [git_attr_get_many_with_session] update:
    the [info] array, the caller's [values] array and [num_found]. *)
Record many_state : Type := {
  infos : list attr_get_many_info;
  values_out : list value_ptr;
  num_found : nat
}.

Definition calloc_info (num_attr : nat) : list attr_get_many_info :=
  replicate num_attr {| many_name := None; many_found := None |}.

(** One pass of the body of the [for k] loop. [true]: jump to
    [cleanup]. *)
Definition get_many_step (rule : git_attr_rule) (names : list string)
    (num_attr k : nat) (st : many_state) : bool * many_state :=
  let info_k := default {| many_name := None; many_found := None |}
                  (infos st !! k) in
  match many_found info_k with
  | Some _ => (false, st)
  | None =>
      let key :=
        match many_name info_k with
        | Some key => key
        | None =>
            let n := default ""%string (names !! k) in
            {| attr_name := n;
               attr_name_hash := git_attr_file__name_hash n |}
        end in
      match git_vector_bsearch (assigns rule) key with
      | Some pos =>
          let found := git_vector_get (assigns rule) pos in
          let st :=
            {| infos := <[k := {| many_name := Some key;
                                  many_found := found |}]> (infos st);
               values_out := <[k := value_at (assigns rule) pos]>
                               (values_out st);
               num_found := S (num_found st) |} in
          ((num_found st =? num_attr)%nat, st)
      | None =>
          (false,
           {| infos := <[k := {| many_name := Some key;
                                 many_found := None |}]> (infos st);
              values_out := values_out st;
              num_found := num_found st |})
      end
  end.

(** [for (k = num_attr - todo; k < num_attr; k++)] *)
Fixpoint get_many_names (rule : git_attr_rule) (names : list string)
    (num_attr todo : nat) (st : many_state) : bool * many_state :=
  match todo with
  | O => (false, st)
  | S todo' =>
      let (stop, st) :=
        get_many_step rule names num_attr (num_attr - todo) st in
      if stop then (true, st)
      else get_many_names rule names num_attr todo' st
  end.

Fixpoint get_many_rules (matching : list git_attr_rule)
    (names : list string) (num_attr : nat) (st : many_state)
  : bool * many_state :=
  match matching with
  | [] => (false, st)
  | rule :: matching =>
      let (stop, st) := get_many_names rule names num_attr num_attr st in
      if stop then (true, st)
      else get_many_rules matching names num_attr st
  end.

Fixpoint get_many_files (files : list git_attr_file) (path : git_attr_path)
    (names : list string) (num_attr : nat) (st : many_state)
  : bool * many_state :=
  match files with
  | [] => (false, st)
  | file :: files =>
      let (stop, st) :=
        get_many_rules (foreach_matching_rule file path) names num_attr st in
      if stop then (true, st)
      else get_many_files files path names num_attr st
  end.

(** The closing loop: [values[k] = NULL] where nothing was found. *)
Fixpoint get_many_fill (infos : list attr_get_many_info) (k : nat)
    (values : list value_ptr) : list value_ptr :=
  match infos with
  | [] => values
  | info_k :: infos =>
      get_many_fill infos (S k)
        (match many_found info_k with
         | Some _ => values
         | None => <[k := NULL]> values
         end)
  end.

(** [values] and [names] are the caller's arrays ([None]: NULL). *)
Definition git_attr_get_many_with_session
    (values : option (list value_ptr)) (repo : option git_repository)
    (attr_session : option git_attr_session) (flags : Z)
    (pathname : option string) (num_attr : nat)
    (names : option (list string))
  : M (Z * option (list value_ptr) * option git_attr_session) :=
  if (num_attr =? 0)%nat then ret (0, values, attr_session) else
  match values, repo, pathname, names with
  | Some vals, Some repo, Some _, Some names =>
      match git_attr_path__init repo pathname
              (git_repository_workdir repo) (dir_flag_of repo) with
      | None => ret (-1, values, attr_session)
      | Some path =>
          let* (error, files, attr_session) :=
            collect_attr_files repo attr_session flags pathname [] in
          if error <? 0 then ret (error, values, attr_session) else
          let st := {| infos := calloc_info num_attr;
                       values_out := vals; num_found := 0 |} in
          let (stop, st) := get_many_files files path names num_attr st in
          if stop then ret (error, Some (values_out st), attr_session)
          else ret (error,
                    Some (get_many_fill (infos st) 0 (values_out st)),
                    attr_session)
      end
  | _, _, _, _ => ret (-1, values, attr_session)
  end.

Definition git_attr_get_many (values : option (list value_ptr))
    (repo : option git_repository) (flags : Z) (pathname : option string)
    (num_attr : nat) (names : option (list string))
  : M (Z * option (list value_ptr)) :=
  let* (error, values, _) :=
    git_attr_get_many_with_session values repo None flags pathname
      num_attr names in
  ret (error, values).

(** *** git_attr_foreach *)

Section Foreach.
(** The callback with its payload: the [int] it returns and the
    payload as it leaves it. *)
Context {P : Type}.
Variable callback : string -> value_ptr -> P -> Z * P.

(** The locals the loops update: [error], the [seen] map and the
    payload; [delivered] lists the (name, value) pairs handed to the
    callback so far, oldest first. *)
Record foreach_state : Type := {
  fe_error : Z;
  seen : gmap string git_attr_assignment;
  payload : P;
  delivered : list (string * value_ptr)
}.

(** [true]: jump to [cleanup]. *)
Fixpoint foreach_assigns (assigns : list git_attr_assignment)
    (st : foreach_state) : bool * foreach_state :=
  match assigns with
  | [] => (false, st)
  | assign :: assigns =>
      if is_Some_b (seen st !! assign_name assign)
      then foreach_assigns assigns st
      else
        let (error, pl) :=
          callback (assign_name assign) (assign_value assign) (payload st) in
        let st :=
          {| fe_error := error;
             seen := <[assign_name assign := assign]> (seen st);
             payload := pl;
             delivered := delivered st ++
               [(assign_name assign, assign_value assign)] |} in
        if negb (error =? 0) then (true, st)
        else foreach_assigns assigns st
  end.

Fixpoint foreach_rules (matching : list git_attr_rule) (st : foreach_state)
  : bool * foreach_state :=
  match matching with
  | [] => (false, st)
  | rule :: matching =>
      let (stop, st) := foreach_assigns (assigns rule) st in
      if stop then (true, st) else foreach_rules matching st
  end.

Fixpoint foreach_files (files : list git_attr_file) (path : git_attr_path)
    (st : foreach_state) : bool * foreach_state :=
  match files with
  | [] => (false, st)
  | file :: files =>
      let (stop, st) := foreach_rules (foreach_matching_rule file path) st in
      if stop then (true, st) else foreach_files files path st
  end.

End Foreach.

(** The result carries the error, the payload and the pairs that were
    handed to the callback, in order. *)
Definition git_attr_foreach {P : Type} (repo : option git_repository)
    (flags : Z) (pathname : option string)
    (callback : option (string -> value_ptr -> P -> Z * P)) (pl : P)
  : M (Z * P * list (string * value_ptr)) :=
  match repo, callback with
  | Some repo, Some callback =>
      match git_attr_path__init repo pathname
              (git_repository_workdir repo) (dir_flag_of repo) with
      | None => ret (-1, pl, [])
      | Some path =>
          let* (error, files, _) :=
            collect_attr_files repo None flags pathname [] in
          if error <? 0 then ret (error, pl, []) else
          (* error = git_strmap_new(&seen) *)
          let st := {| fe_error := 0; seen := ∅;
                       payload := pl; delivered := [] |} in
          let (_, st) := foreach_files callback files path st in
          ret (fe_error st, payload st, delivered st)
      end
  | _, _ => ret (-1, pl, [])
  end.

End Resolver.

(** ** The resolver as the specification words it *)

Section ResolverSpec.
Context `{Collaborators}.

(** All rules matching [path], file after file. *)
Definition matching_rules (files : list git_attr_file) (path : git_attr_path)
  : list git_attr_rule :=
  flat_map (fun file => foreach_matching_rule file path) files.

(** The value a rule assigns to the searched name, if the binary
    search finds it. *)
Definition rule_value (attr : git_attr_name) (rule : git_attr_rule)
  : option value_ptr :=
  match git_vector_bsearch (assigns rule) attr with
  | Some pos => Some (value_at (assigns rule) pos)
  | None => None
  end.

(** Section 4.5: the value of the first matching rule that carries the
    name; NULL (unspecified) when there is none. *)
Definition first_match (files : list git_attr_file) (path : git_attr_path)
    (attr : git_attr_name) : value_ptr :=
  default NULL (head (omap (rule_value attr) (matching_rules files path))).

Definition attr_key (n : string) : git_attr_name :=
  {| attr_name := n; attr_name_hash := git_attr_file__name_hash n |}.

(** Section 4.5 in the words of the specification, by names alone: a
    rule carries the name [n] when one of its assignments is named
    [n]; the first matching rule that carries the name, files in
    order, decides, and its assignment gives the value; the value is
    NULL (unspecified) when no matching rule carries the name. *)
Definition carried (n : string) (rule : git_attr_rule)
  : option git_attr_assignment :=
  List.find (fun a => String.eqb (assign_name a) n) (assigns rule).

Definition first_carrying (files : list git_attr_file) (path : git_attr_path)
    (n : string) : option git_attr_assignment :=
  head (omap (carried n) (matching_rules files path)).

Definition assigned_value (files : list git_attr_file) (path : git_attr_path)
    (n : string) : value_ptr :=
  match first_carrying files path n with
  | Some a => assign_value a
  | None => NULL
  end.

End ResolverSpec.

(** The order of the storage backends for the low two flag bits, as
    the table of section 4.4 gives it. *)
Definition source_order (low : Z) : list git_attr_file_source_t :=
  if low =? GIT_ATTR_CHECK_FILE_THEN_INDEX
  then [GIT_ATTR_FILE_SOURCE_FILE; GIT_ATTR_FILE_SOURCE_INDEX]
  else if low =? GIT_ATTR_CHECK_INDEX_THEN_FILE
  then [GIT_ATTR_FILE_SOURCE_INDEX; GIT_ATTR_FILE_SOURCE_FILE]
  else if low =? GIT_ATTR_CHECK_INDEX_ONLY
  then [GIT_ATTR_FILE_SOURCE_INDEX]
  else [].

(** A backend can be consulted: the working tree needs a work
    directory, the index needs an index; the HEAD commit is not
    gated. *)
Definition available (has_wd has_index : bool) (t : git_attr_file_source_t)
  : bool :=
  match t with
  | GIT_ATTR_FILE_SOURCE_FILE => has_wd
  | GIT_ATTR_FILE_SOURCE_INDEX => has_index
  | _ => true
  end.

(** ** Invariants of the multi-attribute loops *)

Section GetManyInv.
Context `{Collaborators}.
Local Open Scope nat_scope.







End GetManyInv.

(** ** Well-formed rules (data model, section 3) *)

Definition assign_key (a : git_attr_assignment) : git_attr_name :=
  {| attr_name := assign_name a; attr_name_hash := assign_name_hash a |}.

(** [a] comes strictly before [b] in the order of [name_cmp]. *)
Definition assign_ltb (a b : git_attr_assignment) : bool :=
  match name_cmp (assign_key a) b with
  | Lt => true
  | _ => false
  end.

(** Sorted by (hash, name) without duplicates. *)
Fixpoint assigns_sorted (v : list git_attr_assignment) : bool :=
  match v with
  | [] => true
  | a :: v' =>
      match v' with
      | [] => true
      | b :: _ => assign_ltb a b
      end && assigns_sorted v'
  end.

Section WellFormed.
Context `{Collaborators}.

(** The stored hash is the hash of the name. *)
Definition wf_assignment (a : git_attr_assignment) : bool :=
  assign_name_hash a =? git_attr_file__name_hash (assign_name a).

Definition wf_rule (rule : git_attr_rule) : bool :=
  assigns_sorted (assigns rule) && forallb wf_assignment (assigns rule).

Definition wf_file (file : git_attr_file) : bool :=
  forallb wf_rule (rules file).

End WellFormed.

(** The (name, value) pairs of a list of assignments, and the value
    of the first pair with a given name. *)
Definition pairs_of (l : list git_attr_assignment)
  : list (string * value_ptr) :=
  map (fun a => (assign_name a, assign_value a)) l.

Definition first_named (n : string) (pairs : list (string * value_ptr))
  : option value_ptr :=
  match List.find (fun p => String.eqb (fst p) n) pairs with
  | Some p => Some (snd p)
  | None => None
  end.

(** ** Invariant of the enumeration loops *)

Section ForeachInv.
Context `{Collaborators}.
Context {P : Type}.

(** All assignments of the rules, in the order the loops visit them. *)
Definition all_assigns (matching : list git_attr_rule)
  : list git_attr_assignment :=
  flat_map assigns matching.

(** After the assignments [pre] were visited: the delivered pairs and
    [pre] give every name the same first value, and [seen] holds the
    names of [pre]. *)
Definition foreach_inv (pre : list git_attr_assignment)
    (st : @foreach_state P) : Prop :=
  (forall n, first_named n (delivered st) = first_named n (pairs_of pre)) /\
  (forall n, is_Some (seen st !! n) <->
             is_Some (first_named n (pairs_of pre))).

End ForeachInv.

(** ** Requests of a computation *)

Section Requests.
Context `{Collaborators}.

(** [m] appends requests [calls] to the log, and [Q] holds of its
    result and of [calls]. *)
Definition triple {A : Type} (m : M A)
    (Q : A -> list cache_request -> Prop) : Prop :=
  forall s, exists calls,
    requests (snd (m s)) = requests s ++ calls /\ Q (fst (m s)) calls.

(** Every request [m] makes satisfies [T]. *)
Definition logs {A : Type} (T : cache_request -> Prop) (m : M A) : Prop :=
  triple m (fun _ calls => Forall T calls).

(** A request as the cache answered it. *)
Definition answered (repo : git_repository) (req : cache_request) : Prop :=
  exists attr_session c c',
    git_attr_cache__get repo attr_session (req_source req)
      (req_allow_macros req) c = (req_error req, req_file req, c').

End Requests.

(** ** Macro trust *)

(** An attribute file of a directory that is not the work-tree root:
    a [.gitattributes] with a base directory other than the work
    directory (any directory, when there is no work directory). *)
Definition nested_source (workdir : option string)
    (src : git_attr_file_source) : bool :=
  match src_base src, src_filename src with
  | Some base, Some filename =>
      String.eqb filename GIT_ATTR_FILE &&
      negb (match workdir with
            | Some w => String.eqb w base
            | None => false
            end)
  | _, _ => false
  end.

Definition trust_ok (workdir : option string) (req : cache_request) : Prop :=
  req_allow_macros req = negb (nested_source workdir (req_source req)).

(** ** The order of the collected files *)

(** What a request adds to the vector, and the error the push of it
    returns. *)
Definition contribution (req : cache_request) : list git_attr_file :=
  if req_error req <? 0 then []
  else match req_file req with
       | Some file => [file]
       | None => []
       end.

Definition push_error (req : cache_request) : Z :=
  if req_error req <? 0 then req_error req
  else match req_file req with
       | Some _ => 0
       | None => req_error req
       end.

Definition named_file (base filename : option string)
  : git_attr_file_source :=
  {| src_type := GIT_ATTR_FILE_SOURCE_FILE;
     src_base := base; src_filename := filename |}.

Definition dir_source (dir : string) (t : git_attr_file_source_t)
  : git_attr_file_source :=
  {| src_type := t; src_base := Some dir;
     src_filename := Some GIT_ATTR_FILE |}.

Section CollectorSpec.
Context `{Collaborators}.

(** The directory the walk starts from. *)
Definition resolve_dir (repo : git_repository) (path : option string)
  : Z * git_buf :=
  match git_repository_workdir repo with
  | Some _ =>
      let (error, dir) := git_repository_workdir_path repo path in
      if error =? 0 then git_path_find_dir dir else (error, dir)
  | None => git_path_dirname_r path
  end.

Definition collect_index (repo : git_repository) : option git_index :=
  let (e, idx) := git_repository_index__weakptr repo in
  if e <? 0 then None else idx.

(** Section 4.4, item 1: [$GIT_DIR/info/attributes]. *)
Definition info_sources (repo : git_repository)
  : list git_attr_file_source :=
  let (error, attrfile) := git_repository_item_path repo in
  if error <? 0 then []
  else [named_file (Some attrfile) (Some GIT_ATTR_FILE_INREPO)].

(** Section 4.4, item 2: the directories from the one of the query
    path upward, each with its backends in the order of the flags. *)
Definition walked_dirs (repo : git_repository) (path : option string)
  : list string :=
  let dir := snd (resolve_dir repo path) in
  if String.eqb dir "." then [""%string]
  else git_path_walk_up_dirs dir (git_repository_workdir repo).

Definition dir_sources (repo : git_repository) (flags : Z) (dir : string)
  : list git_attr_file_source :=
  map (dir_source dir)
    (attr_decide_sources flags
       (is_Some_b (git_repository_workdir repo))
       (is_Some_b (collect_index repo))).

(** Section 4.4, item 3: the configured file. *)
Definition cfg_sources (repo : git_repository)
  : list git_attr_file_source :=
  match cfg_attr_file repo with
  | Some _ => [named_file None (cfg_attr_file repo)]
  | None => []
  end.

(** The system attribute file there is (sections 3 and 4.6: a session
    memoizes the resolved path of the system file): the path a
    session remembers once it has looked, else the path the system
    directory resolves; none when the lookup fails, and none when a
    session holds the empty path, which is how it remembers that
    nothing was found. *)
Definition found_system_file (attr_session : option git_attr_session)
  : option string :=
  let (error, buf) := git_sysdir_find_system_file GIT_ATTR_FILE_SYSTEM in
  match attr_session with
  | None => if error =? 0 then Some buf else None
  | Some sess =>
      let known :=
        if init_sysdir sess then Some (sysdir sess)
        else if (error =? 0) || (error =? GIT_ENOTFOUND) then Some buf
        else None in
      match known with
      | Some p => if (String.length p =? 0)%nat then None else Some p
      | None => None
      end
  end.

(** Section 4.4, item 4: the system file; it is left out when
    NO_SYSTEM is set and when there is no system file. *)
Definition system_sources (attr_session : option git_attr_session)
    (flags : Z) : list git_attr_file_source :=
  if Z.land flags GIT_ATTR_CHECK_NO_SYSTEM =? 0 then
    match found_system_file attr_session with
    | Some p => [named_file None (Some p)]
    | None => []
    end
  else [].

Definition collector_sources (repo : git_repository)
    (attr_session : option git_attr_session) (flags : Z)
    (path : option string) : list git_attr_file_source :=
  info_sources repo
  ++ flat_map (dir_sources repo flags) (walked_dirs repo path)
  ++ cfg_sources repo
  ++ system_sources attr_session flags.

(** The cache answers the requests for [repo] with 0 or a negative
    error code. *)
Definition cache_codes (repo : git_repository) : Prop :=
  forall attr_session source allow_macros c,
    fst (fst (git_attr_cache__get repo attr_session source allow_macros c))
      <= 0.

End CollectorSpec.

(** ** Missing sources *)

Section Missing.
Context `{Collaborators}.

(** The contracts of the collaborators about NOT_FOUND, for the
    repository [repo]: the cache reports a source that does not exist
    as "no file" without an error (section 4.3, item 3), and setting
    up the cache, obtaining the index and resolving the directory
    never fail with NOT_FOUND. *)
Definition absence_is_no_error (repo : git_repository) : Prop :=
  (forall attr_session source allow_macros c,
     fst (fst (git_attr_cache__get repo attr_session source allow_macros c))
       <> GIT_ENOTFOUND) /\
  (forall c, fst (git_attr_cache__init repo c) <> GIT_ENOTFOUND) /\
  fst (git_repository_index__weakptr repo) <> GIT_ENOTFOUND /\
  (forall path,
     fst (git_repository_workdir_path repo path) <> GIT_ENOTFOUND) /\
  (forall buf, fst (git_path_find_dir buf) <> GIT_ENOTFOUND) /\
  (forall path, fst (git_path_dirname_r path) <> GIT_ENOTFOUND).

(** Nothing fails but by absence, for the repository [repo] and the
    query path [path]: the cache can be set up and answers every
    request with 0 -- with a file, or with no file for a source that
    does not exist --, the index and the directory of the path are
    obtained, and the info directory and the system file are found
    or reported as NOT_FOUND. *)
Definition only_absence (repo : git_repository) (path : option string)
  : Prop :=
  (forall c, 0 <= fst (git_attr_cache__init repo c)) /\
  (forall attr_session source allow_macros c,
     fst (fst (git_attr_cache__get repo attr_session source allow_macros c))
       = 0) /\
  0 <= fst (git_repository_index__weakptr repo) /\
  0 <= fst (resolve_dir repo path) /\
  (fst (git_repository_item_path repo) = 0 \/
   fst (git_repository_item_path repo) = GIT_ENOTFOUND) /\
  (fst (git_sysdir_find_system_file GIT_ATTR_FILE_SYSTEM) = 0 \/
   fst (git_sysdir_find_system_file GIT_ATTR_FILE_SYSTEM) = GIT_ENOTFOUND).

(** The computation never returns NOT_FOUND as its error. *)
Definition never_not_found {A : Type} (err : A -> Z) (m : M A) : Prop :=
  triple m (fun r _ => err r <> GIT_ENOTFOUND).

End Missing.

(** ** Shapes of the requests of a collection *)

(** The requests made outside the walk: the system file and the
    configured file (no base directory), the info file, the
    [.gitattributes] of the work directory, and the index and HEAD
    blobs of the root [.gitattributes] (the latter only with
    INCLUDE_HEAD); all of them allow macros. *)
Definition fixed_request (workdir : option string) (flags : Z)
    (req : cache_request) : Prop :=
  req_allow_macros req = true /\
  ((exists filename, req_source req = named_file None filename) \/
   (exists info,
      req_source req = named_file (Some info) (Some GIT_ATTR_FILE_INREPO)) \/
   (exists w, workdir = Some w /\
      req_source req = named_file (Some w) (Some GIT_ATTR_FILE)) \/
   req_source req =
     {| src_type := GIT_ATTR_FILE_SOURCE_INDEX; src_base := None;
        src_filename := Some GIT_ATTR_FILE |} \/
   (req_source req =
      {| src_type := GIT_ATTR_FILE_SOURCE_COMMIT; src_base := None;
         src_filename := Some GIT_ATTR_FILE |} /\
    Z.land flags GIT_ATTR_CHECK_INCLUDE_HEAD <> 0)).

(** The requests of the walk: a decided backend of a directory, with
    macros allowed when the directory is the work directory. *)
Definition walk_request (workdir : option string) (flags : Z)
    (has_index : bool) (req : cache_request) : Prop :=
  exists dir t,
    req_source req = dir_source dir t /\
    In t (attr_decide_sources flags (is_Some_b workdir) has_index) /\
    req_allow_macros req =
      match workdir with
      | Some w => String.eqb w dir
      | None => false
      end.

Section RequestShapes.
Context `{Collaborators}.

Definition collect_request (repo : git_repository) (flags : Z)
    (req : cache_request) : Prop :=
  fixed_request (git_repository_workdir repo) flags req \/
  walk_request (git_repository_workdir repo) flags
    (is_Some_b (collect_index repo)) req.

End RequestShapes.

(** ** The callback run over a list of pairs *)

(** The callback is called on the pairs in order, each call receiving
    the payload the previous one left; the first result other than 0
    ends the run and is its result. *)
Fixpoint deliver {P : Type} (callback : string -> value_ptr -> P -> Z * P)
    (pairs : list (string * value_ptr)) (pl : P) : Z * P :=
  match pairs with
  | [] => (0, pl)
  | (n, v) :: pairs =>
      let (error, pl') := callback n v pl in
      if error =? 0 then deliver callback pairs pl' else (error, pl')
  end.

(** The state of an enumeration that started with payload [pl0]: no
    name was delivered twice, [seen] holds the delivered names, the
    error and the payload are those of the callback run over the
    delivered pairs, and no call but the last returned non-zero. *)
Definition foreach_run_inv {P : Type}
    (callback : string -> value_ptr -> P -> Z * P) (pl0 : P)
    (st : @foreach_state P) : Prop :=
  NoDup (map fst (delivered st)) /\
  (forall n, is_Some (seen st !! n) <-> In n (map fst (delivered st))) /\
  deliver callback (delivered st) pl0 = (fe_error st, payload st) /\
  (forall before after,
     delivered st = before ++ after -> after <> [] ->
     fst (deliver callback before pl0) = 0).

(** ** A concrete repository

    A small world on which the embedded functions run: the work tree
    /repo/ holds [.gitattributes] at its root (also staged in the
    index) and in src/; there is no info file, no configured file and
    no system file behind the path the system directory reports.  The
    pattern matcher knows literal names and [*suffix]. *)
Module Scenario.

Record repo : Type := {
  repo_workdir : option string;
  repo_cache_init : Z
}.

Definition hash (n : string) : Z := Z.of_nat (String.length n).

Definition assign (n : string) (v : value_ptr) : git_attr_assignment :=
  {| assign_name := n; assign_name_hash := hash n; assign_value := v |}.

Definition rule (pat : string) (a : list git_attr_assignment)
  : git_attr_rule :=
  {| rule_match := {| pattern := pat; fnmatch_flags := 0;
                      containing_dir := None |};
     assigns := a |}.

Definition source (t : git_attr_file_source_t) (base : option string)
    (filename : string) : git_attr_file_source :=
  {| src_type := t; src_base := base; src_filename := Some filename |}.

(** /repo/.gitattributes: [* text] *)
Definition root_rules : list git_attr_rule :=
  [rule "*" [assign "text" git_attr__true]].

(** /repo/src/.gitattributes: [*.c diff=cpp text], then [*.bin -text !diff] *)
Definition src_rules : list git_attr_rule :=
  [rule "*.c" [assign "diff" (str "cpp"); assign "text" git_attr__true];
   rule "*.bin" [assign "diff" git_attr__unset; assign "text" git_attr__false]].

Definition lookup_source (src : git_attr_file_source) : option git_attr_file :=
  match src_type src, src_base src, src_filename src with
  | GIT_ATTR_FILE_SOURCE_FILE, Some base, Some filename =>
      if String.eqb filename GIT_ATTR_FILE then
        if String.eqb base "/repo/"
        then Some {| file_source := src; rules := root_rules |}
        else if String.eqb base "/repo/src/"
        then Some {| file_source := src; rules := src_rules |}
        else None
      else None
  | GIT_ATTR_FILE_SOURCE_INDEX, Some base, Some filename =>
      if String.eqb filename GIT_ATTR_FILE && String.eqb base "/repo/"
      then Some {| file_source := src; rules := root_rules |}
      else None
  | _, _, _ => None
  end.

Definition has_slash (s : string) : bool :=
  match index 0 "/" s with Some _ => true | None => false end.

(** The text up to and including the last slash. *)
Fixpoint dir_of (s : string) : string :=
  match s with
  | EmptyString => EmptyString
  | String c r =>
      if has_slash r || Ascii.eqb c "/"%char then String c (dir_of r)
      else EmptyString
  end.

Definition ends_with (suffix s : string) : bool :=
  (String.length suffix <=? String.length s)%nat &&
  String.eqb
    (substring (String.length s - String.length suffix)
       (String.length suffix) s)
    suffix.

Definition glob (rule : git_attr_rule) (path : string) : bool :=
  match pattern (rule_match rule) with
  | String c suffix =>
      if Ascii.eqb c "*"%char then ends_with suffix path
      else String.eqb (String c suffix) path
  | EmptyString => false
  end.

#[export] Instance world : Collaborators := {|
  git_repository := repo;
  git_index := unit;
  git_attr_path := string;
  attr_cache := nat;
  git_repository_is_bare := fun r => negb (is_Some_b (repo_workdir r));
  git_repository_workdir := repo_workdir;
  git_repository_item_path := fun _ => (0, "/repo/.git/info/"%string);
  git_repository_index__weakptr := fun _ => (0, Some tt);
  git_repository_workdir_path := fun r path =>
    (0, (default "" (repo_workdir r) +:+ default "" path)%string);
  cfg_attr_file := fun _ => None;
  git_path_find_dir := fun buf => (0, dir_of buf);
  git_path_dirname_r := fun path => (0, "."%string);
  git_path_walk_up_dirs := fun dir ceiling =>
    if String.eqb dir "/repo/src/" then ["/repo/src/"; "/repo/"]%string
    else [dir];
  git_sysdir_find_system_file := fun _ => (0, "/etc/gitattributes"%string);
  git_attr_path__init := fun _ pathname _ _ => pathname;
  git_attr_rule__match := glob;
  git_attr_file__name_hash := hash;
  git_attr_cache__init := fun r c => (repo_cache_init r, c);
  git_attr_cache__get := fun _ _ src _ c => (0, lookup_source src, S c)
|}.

Definition work_repo : repo :=
  {| repo_workdir := Some "/repo/"%string; repo_cache_init := 0 |}.

Definition bare_repo : repo :=
  {| repo_workdir := None; repo_cache_init := 0 |}.

(** A repository whose attribute cache cannot be set up. *)
Definition broken_repo : repo :=
  {| repo_workdir := Some "/repo/"%string; repo_cache_init := -1 |}.

Definition s0 : state := {| cache := 0%nat; requests := [] |}.

(** A session that was not used yet. *)
Definition fresh : git_attr_session :=
  {| init_setup := false; init_sysdir := false; sysdir := ""%string |}.

(** Two callbacks for the enumeration: the first counts the calls,
    the second also stops at [text] with 7. *)
Definition count_all (n : string) (v : value_ptr) (count : nat) : Z * nat :=
  (0, S count).

Definition stop_at_text (n : string) (v : value_ptr) (count : nat)
  : Z * nat :=
  (if String.eqb n "text" then 7 else 0, S count).

(** A callback that stops at [diff] with 7. *)
Definition stop_at_diff (n : string) (v : value_ptr) (count : nat)
  : Z * nat :=
  (if String.eqb n "diff" then 7 else 0, S count).

(** The same work tree on a machine without a system attribute file
    and with a repository without info directory: both lookups report
    NOT_FOUND. *)
Definition lean_world : Collaborators := {|
  git_repository := repo;
  git_index := unit;
  git_attr_path := string;
  attr_cache := nat;
  git_repository_is_bare := fun r => negb (is_Some_b (repo_workdir r));
  git_repository_workdir := repo_workdir;
  git_repository_item_path := fun _ => (GIT_ENOTFOUND, ""%string);
  git_repository_index__weakptr := fun _ => (0, Some tt);
  git_repository_workdir_path := fun r path =>
    (0, (default "" (repo_workdir r) +:+ default "" path)%string);
  cfg_attr_file := fun _ => None;
  git_path_find_dir := fun buf => (0, dir_of buf);
  git_path_dirname_r := fun path => (0, "."%string);
  git_path_walk_up_dirs := fun dir ceiling =>
    if String.eqb dir "/repo/src/" then ["/repo/src/"; "/repo/"]%string
    else [dir];
  git_sysdir_find_system_file := fun _ => (GIT_ENOTFOUND, ""%string);
  git_attr_path__init := fun _ pathname _ _ => pathname;
  git_attr_rule__match := glob;
  git_attr_file__name_hash := hash;
  git_attr_cache__init := fun r c => (repo_cache_init r, c);
  git_attr_cache__get := fun _ _ src _ c => (0, lookup_source src, S c)
|}.

Definition lean_s0 : @state lean_world :=
  @Build_state lean_world 0%nat [].

End Scenario.

(** * Properties *)

(** ** The value classifier *)

(** C7, as stated, fails: the value of an explicitly unset attribute
    and the absent value are different pointers, yet [git_attr_value]
    gives both the same classification. *)
Lemma git_attr_value_unset_not_distinct :
  git_attr__unset <> NULL /\
  ~ (git_attr_value git_attr__unset <> git_attr_value NULL).
Proof. split; [discriminate | intros Hne; apply Hne; reflexivity]. Qed.

(** C7, amended: [git_attr_value] has four classifications; TRUE,
    FALSE and STRING are each the image of exactly the true sentinel,
    the false sentinel and the other strings, while UNSPECIFIED is the
    image of both the unset sentinel and NULL. *)
Theorem git_attr_value_classes (attr : value_ptr) :
  (git_attr_value attr = GIT_ATTR_VALUE_UNSPECIFIED <->
     attr = NULL \/ attr = git_attr__unset) /\
  (git_attr_value attr = GIT_ATTR_VALUE_TRUE <-> attr = git_attr__true) /\
  (git_attr_value attr = GIT_ATTR_VALUE_FALSE <-> attr = git_attr__false) /\
  (git_attr_value attr = GIT_ATTR_VALUE_STRING <-> exists s, attr = str s).
Proof.
  destruct attr; simpl; repeat split; intros Hx;
    try discriminate; try tauto; eauto;
    try (destruct Hx as [Hx | Hx]; discriminate);
    try (destruct Hx as [s' Hx]; discriminate).
Qed.

(** ** Source order of one directory *)

(** C6, as stated, fails: in a repository without work directory the
    default order FILE_THEN_INDEX consults the index blob only. *)
Lemma attr_decide_sources_bare :
  attr_decide_sources GIT_ATTR_CHECK_FILE_THEN_INDEX false true
    = [GIT_ATTR_FILE_SOURCE_INDEX] /\
  attr_decide_sources GIT_ATTR_CHECK_FILE_THEN_INDEX false true
    <> [GIT_ATTR_FILE_SOURCE_FILE; GIT_ATTR_FILE_SOURCE_INDEX].
Proof. split; [reflexivity | discriminate]. Qed.

(** C6, amended: the backends of a directory are those of the order
    selected by the low two flag bits (file then index, index then
    file, index only) that are available -- the working-tree file only
    with a work directory, the index blob only with an index -- and
    with INCLUDE_HEAD set the commit blob is appended after them. *)
Theorem attr_decide_sources_order (flags : Z) (has_wd has_index : bool) :
  attr_decide_sources flags has_wd has_index =
    List.filter (available has_wd has_index) (source_order (Z.land flags 3))
    ++ (if Z.land flags GIT_ATTR_CHECK_INCLUDE_HEAD =? 0 then []
        else [GIT_ATTR_FILE_SOURCE_COMMIT]).
Proof.
  unfold attr_decide_sources, source_order.
  destruct (Z.land flags 3 =? GIT_ATTR_CHECK_FILE_THEN_INDEX);
    [| destruct (Z.land flags 3 =? GIT_ATTR_CHECK_INDEX_THEN_FILE);
       [| destruct (Z.land flags 3 =? GIT_ATTR_CHECK_INDEX_ONLY)]];
    destruct has_wd, has_index;
    destruct (Z.land flags GIT_ATTR_CHECK_INCLUDE_HEAD =? 0);
    reflexivity.
Qed.

Section ResolverFacts.
Context `{Collaborators}.

(** ** Single lookup *)

Lemma get_rules_first (matching : list git_attr_rule) (attr : git_attr_name) :
  get_rules matching attr = head (omap (rule_value attr) matching).
Proof.
  induction matching as [| rule matching IH]; simpl; [reflexivity |].
  unfold rule_value at 1.
  destruct (git_vector_bsearch (assigns rule) attr); simpl; auto.
Qed.

Lemma head_app_omap {A B} (f : A -> option B) (l1 l2 : list A) :
  head (omap f (l1 ++ l2)) =
    match head (omap f l1) with
    | Some b => Some b
    | None => head (omap f l2)
    end.
Proof.
  induction l1 as [| a l1 IH]; simpl; [reflexivity |].
  destruct (f a); simpl; auto.
Qed.

Lemma get_files_first (files : list git_attr_file) (path : git_attr_path)
    (attr : git_attr_name) :
  get_files files path attr =
    head (omap (rule_value attr) (matching_rules files path)).
Proof.
  induction files as [| file files IH]; simpl; [reflexivity |].
  unfold matching_rules in *; simpl.
  rewrite head_app_omap, get_rules_first.
  destruct (head (omap (rule_value attr) (foreach_matching_rule file path)));
    auto.
Qed.

(** [git_attr_get] in one equation: the error of the collection, and
    the first match unless that error is negative. *)
Lemma git_attr_get_eq (slot : value_ptr) (repo : git_repository)
    (flags : Z) (pathname : option string) (n : string) (s : state) :
  git_attr_get (Some slot) (Some repo) flags pathname (Some n) s =
    match git_attr_path__init repo pathname
            (git_repository_workdir repo) (dir_flag_of repo) with
    | None => ((-1, Some NULL), s)
    | Some path =>
        let '((error, files, _), s') :=
          collect_attr_files repo None flags pathname [] s in
        ((error,
          Some (if error <? 0 then NULL
                else first_match files path (attr_key n))), s')
    end.
Proof.
  unfold git_attr_get.
  destruct (git_attr_path__init _ _ _ _) as [path |]; [| reflexivity].
  unfold bind.
  destruct (collect_attr_files repo None flags pathname [] s)
    as [[[error files] sess] s'].
  destruct (error <? 0); [reflexivity |].
  unfold first_match. rewrite <- get_files_first.
  fold (attr_key n).
  destruct (get_files files path (attr_key n)); reflexivity.
Qed.

(** ** Zero names *)

(** C10: with [num_attr = 0] the multi-attribute lookup returns 0 at
    once: whatever the arguments (NULL or not), the output array, the
    session and the state (no cache request, no collection) are as
    before. *)
Theorem git_attr_get_many_zero
    (values : option (list value_ptr)) (repo : option git_repository)
    (attr_session : option git_attr_session) (flags : Z)
    (pathname : option string) (names : option (list string)) (s : state) :
  git_attr_get_many_with_session values repo attr_session flags pathname
    0 names s = ((0, values, attr_session), s) /\
  git_attr_get_many values repo flags pathname 0 names s = ((0, values), s).
Proof. split; reflexivity. Qed.

End ResolverFacts.

Section ListFacts.
Context {A : Type}.
Local Open Scope nat_scope.





End ListFacts.

Lemma bsearch_loop_S fuel v key base lim :
  bsearch_loop (S fuel) v key base lim =
    if (lim =? 0)%nat then None else
    match v !! (base + lim / 2)%nat with
    | None => None
    | Some a =>
        match name_cmp key a with
        | Eq => Some (base + lim / 2)%nat
        | Gt => bsearch_loop fuel v key (base + lim / 2 + 1) ((lim - 1) / 2)
        | Lt => bsearch_loop fuel v key base (lim / 2)
        end
    end.
Proof. reflexivity. Qed.

Lemma bsearch_loop_sound fuel v key base lim pos :
  bsearch_loop fuel v key base lim = Some pos ->
  exists a, v !! pos = Some a /\ name_cmp key a = Eq.
Proof.
  revert base lim. induction fuel as [| fuel IH]; intros base lim;
    [discriminate |].
  rewrite bsearch_loop_S.
  destruct (lim =? 0)%nat; [discriminate |].
  destruct (v !! (base + lim / 2)%nat) as [a |] eqn:Ha; [| discriminate].
  destruct (name_cmp key a) eqn:Hc; [| apply IH | apply IH].
  intros [= <-]. eauto.
Qed.

Lemma git_vector_bsearch_sound v key pos :
  git_vector_bsearch v key = Some pos ->
  exists a, v !! pos = Some a /\ name_cmp key a = Eq.
Proof. apply bsearch_loop_sound. Qed.

Section GetMany.
Context `{Collaborators}.
Local Open Scope nat_scope.

Variable names : list string.
Variable vals : list value_ptr.
Variable num_attr : nat.















End GetMany.

Section GetManyFacts.
Context `{Collaborators}.




End GetManyFacts.

Module ScenarioFacts.
Import Scenario.





End ScenarioFacts.

(** ** Order facts *)

Lemma ascii_compare_refl c : Ascii.compare c c = Eq.
Proof. unfold Ascii.compare. apply N.compare_refl. Qed.

Lemma ascii_compare_lt_trans a b c :
  Ascii.compare a b = Lt -> Ascii.compare b c = Lt -> Ascii.compare a c = Lt.
Proof.
  unfold Ascii.compare. rewrite !N.compare_lt_iff. apply N.lt_trans.
Qed.

Lemma string_compare_refl a : String.compare a a = Eq.
Proof.
  induction a as [| x a IH]; simpl; [reflexivity |].
  rewrite ascii_compare_refl. exact IH.
Qed.

Lemma string_compare_lt_trans a : forall b c,
  String.compare a b = Lt -> String.compare b c = Lt ->
  String.compare a c = Lt.
Proof.
  induction a as [| x a IH]; intros [| y b] [| z c]; simpl;
    try discriminate; auto.
  destruct (Ascii.compare x y) eqn:Hxy; try discriminate;
    destruct (Ascii.compare y z) eqn:Hyz; try discriminate; intros Hab Hbc.
  - apply Ascii.compare_eq_iff in Hxy, Hyz. subst.
    rewrite ascii_compare_refl. eauto.
  - apply Ascii.compare_eq_iff in Hxy. subst. rewrite Hyz. reflexivity.
  - apply Ascii.compare_eq_iff in Hyz. subst. rewrite Hxy. reflexivity.
  - rewrite (ascii_compare_lt_trans x y z Hxy Hyz). reflexivity.
Qed.

Lemma name_cmp_eq key a :
  name_cmp key a = Eq <-> assign_key a = key.
Proof.
  unfold name_cmp, assign_key. destruct key as [n h]; simpl. split.
  - destruct (h ?= assign_name_hash a) eqn:Hh; try discriminate.
    intros Hn. apply Z.compare_eq in Hh.
    apply String.compare_eq_iff in Hn. congruence.
  - intros [= <- <-]. rewrite Z.compare_refl.
    apply string_compare_refl.
Qed.

Lemma name_cmp_antisym a b :
  name_cmp (assign_key a) b = CompOpp (name_cmp (assign_key b) a).
Proof.
  unfold name_cmp, assign_key; simpl.
  rewrite (Z.compare_antisym (assign_name_hash a) (assign_name_hash b)).
  destruct (assign_name_hash a ?= assign_name_hash b); simpl; auto.
  apply String.compare_antisym.
Qed.

Lemma assign_ltb_trans a b c :
  assign_ltb a b = true -> assign_ltb b c = true -> assign_ltb a c = true.
Proof.
  unfold assign_ltb, name_cmp, assign_key; simpl.
  destruct (assign_name_hash a ?= assign_name_hash b) eqn:Hab;
    destruct (assign_name_hash b ?= assign_name_hash c) eqn:Hbc;
    try discriminate.
  - apply Z.compare_eq in Hab, Hbc. rewrite Hab, Hbc, Z.compare_refl.
    destruct (String.compare (assign_name a) (assign_name b)) eqn:Hn1;
      try discriminate.
    destruct (String.compare (assign_name b) (assign_name c)) eqn:Hn2;
      try discriminate.
    rewrite (string_compare_lt_trans _ _ _ Hn1 Hn2). reflexivity.
  - apply Z.compare_eq in Hab. rewrite Hab, Hbc. reflexivity.
  - apply Z.compare_eq in Hbc. rewrite <- Hbc, Hab. reflexivity.
  - rewrite Z.compare_lt_iff in Hab, Hbc.
    assert (Hac : (assign_name_hash a ?= assign_name_hash c) = Lt)
      by (apply Z.compare_lt_iff; lia).
    rewrite Hac. reflexivity.
Qed.

Lemma assigns_sorted_cons a v :
  assigns_sorted (a :: v) = true ->
  Forall (fun b => assign_ltb a b = true) v /\ assigns_sorted v = true.
Proof.
  revert a. induction v as [| b v IH]; intros a Hs; [auto |].
  cbn [assigns_sorted] in Hs. apply andb_true_iff in Hs as [Hab Hv].
  split; [| exact Hv].
  destruct (IH b Hv) as [Hall _]. constructor; [exact Hab |].
  eapply Forall_impl; [exact Hall |]. simpl. eauto using assign_ltb_trans.
Qed.

Lemma assigns_sorted_lookup v : assigns_sorted v = true ->
  forall (i j : nat) a b, (i < j)%nat -> v !! i = Some a -> v !! j = Some b ->
    assign_ltb a b = true.
Proof.
  induction v as [| x v IH]; intros Hs i j a b Hij Hi Hj; [discriminate |].
  destruct (assigns_sorted_cons x v Hs) as [Hall Hv].
  destruct j as [| j]; [lia |]. simpl in Hj.
  destruct i as [| i]; simpl in Hi.
  - injection Hi as ->. rewrite Forall_forall in Hall. apply Hall.
    apply list_elem_of_lookup. eauto.
  - apply (IH Hv i j); auto. lia.
Qed.

(** ** The binary search on a sorted vector *)

Lemma half_window (lim : nat) :
  (0 < lim -> lim / 2 < lim /\ lim / 2 + 1 + (lim - 1) / 2 = lim)%nat.
Proof.
  intros Hlim.
  pose proof (Nat.div_mod_eq lim 2) as H1.
  pose proof (Nat.mod_upper_bound lim 2 ltac:(lia)) as H2.
  pose proof (Nat.div_mod_eq (lim - 1) 2) as H3.
  pose proof (Nat.mod_upper_bound (lim - 1) 2 ltac:(lia)) as H4.
  lia.
Qed.

(** Sorted entries that both carry the searched name sit at the same
    place. *)
Lemma sorted_match_unique v key (i j : nat) a b :
  assigns_sorted v = true ->
  v !! i = Some a -> v !! j = Some b ->
  name_cmp key a = Eq -> name_cmp key b = Eq -> i = j.
Proof.
  intros Hs Hi Hj Ha Hb.
  apply name_cmp_eq in Ha. subst key.
  assert (Hba : name_cmp (assign_key b) a = Eq).
  { rewrite name_cmp_antisym, Hb. reflexivity. }
  destruct (Nat.lt_trichotomy i j) as [Hlt | [Heq | Hgt]]; [| exact Heq |].
  - pose proof (assigns_sorted_lookup v Hs i j a b Hlt Hi Hj) as Hab.
    unfold assign_ltb in Hab. rewrite Hb in Hab. discriminate.
  - pose proof (assigns_sorted_lookup v Hs j i b a Hgt Hj Hi) as Hab.
    unfold assign_ltb in Hab. rewrite Hba in Hab. discriminate.
Qed.

Lemma bsearch_loop_complete v key : assigns_sorted v = true ->
  forall fuel base lim,
    (lim <= fuel)%nat -> (base + lim <= length v)%nat ->
    (forall (i : nat) a, v !! i = Some a -> name_cmp key a = Eq ->
       (base <= i < base + lim)%nat) ->
    bsearch_loop fuel v key base lim = None ->
    forall (i : nat) a, v !! i = Some a -> name_cmp key a <> Eq.
Proof.
  intros Hs. induction fuel as [| fuel IH]; intros base lim Hfuel Hlen Hwin.
  - intros _ i a Hi Ha. specialize (Hwin i a Hi Ha). lia.
  - rewrite bsearch_loop_S.
    destruct (lim =? 0)%nat eqn:Hz.
    { apply Nat.eqb_eq in Hz. intros _ i a Hi Ha.
      specialize (Hwin i a Hi Ha). lia. }
    apply Nat.eqb_neq in Hz.
    destruct (half_window lim ltac:(lia)) as [Hhalf Hsplit].
    destruct (v !! (base + lim / 2)%nat) as [p |] eqn:Hp.
    2: { apply lookup_ge_None_1 in Hp. lia. }
    destruct (name_cmp key p) eqn:Hc; [discriminate | |].
    + (* the key is before the middle: left part *)
      intros Hnone.
      apply (IH base (lim / 2)%nat); [lia | lia | | exact Hnone].
      intros i a Hi Ha. specialize (Hwin i a Hi Ha) as Hin.
      destruct (decide (i < base + lim / 2)%nat) as [Hlt | Hge]; [lia |].
      exfalso. destruct (decide (i = base + lim / 2)%nat) as [-> | Hne].
      * rewrite Hp in Hi. injection Hi as ->. congruence.
      * pose proof (assigns_sorted_lookup v Hs (base + lim / 2) i p a
                      ltac:(lia) Hp Hi) as Hpa.
        apply name_cmp_eq in Ha. subst key.
        rewrite name_cmp_antisym in Hc. unfold assign_ltb in Hpa.
        destruct (name_cmp (assign_key p) a); discriminate.
    + (* the key is after the middle: right part *)
      intros Hnone.
      apply (IH (base + lim / 2 + 1)%nat ((lim - 1) / 2)%nat);
        [lia | lia | | exact Hnone].
      intros i a Hi Ha. specialize (Hwin i a Hi Ha) as Hin.
      destruct (decide (base + lim / 2 < i)%nat) as [Hlt | Hge]; [lia |].
      exfalso. destruct (decide (i = base + lim / 2)%nat) as [-> | Hne].
      * rewrite Hp in Hi. injection Hi as ->. congruence.
      * pose proof (assigns_sorted_lookup v Hs i (base + lim / 2) a p
                      ltac:(lia) Hi Hp) as Hap.
        apply name_cmp_eq in Ha. subst key.
        unfold assign_ltb in Hap. rewrite Hc in Hap. discriminate.
Qed.

Lemma git_vector_bsearch_complete v key :
  assigns_sorted v = true -> git_vector_bsearch v key = None ->
  forall (i : nat) a, v !! i = Some a -> name_cmp key a <> Eq.
Proof.
  intros Hs Hnone.
  apply (bsearch_loop_complete v key Hs (length v) 0%nat (length v));
    [lia | simpl; lia | | exact Hnone].
  intros i a Hi _. apply lookup_lt_Some in Hi. lia.
Qed.

Lemma first_named_app n l1 l2 :
  first_named n (l1 ++ l2) =
    match first_named n l1 with
    | Some w => Some w
    | None => first_named n l2
    end.
Proof.
  unfold first_named. induction l1 as [| p l1 IH]; simpl; [reflexivity |].
  destruct (String.eqb (fst p) n); [reflexivity | exact IH].
Qed.

Lemma pairs_of_app l1 l2 : pairs_of (l1 ++ l2) = pairs_of l1 ++ pairs_of l2.
Proof. apply map_app. Qed.

Lemma first_named_absent n v :
  (forall (i : nat) a, v !! i = Some a -> assign_name a <> n) ->
  first_named n (pairs_of v) = None.
Proof.
  induction v as [| x v IH]; intros Hno; [reflexivity |].
  unfold first_named in *. simpl.
  destruct (String.eqb_spec (assign_name x) n) as [Heq | Hne].
  - exfalso. apply (Hno 0%nat x); auto.
  - apply IH. intros i a Hi. apply (Hno (S i) a). exact Hi.
Qed.

Lemma first_named_unique n v : forall (i : nat) a,
  v !! i = Some a -> assign_name a = n ->
  (forall (j : nat) b, v !! j = Some b -> assign_name b = n -> j = i) ->
  first_named n (pairs_of v) = Some (assign_value a).
Proof.
  induction v as [| x v IH]; intros i a Hi Ha Huniq; [discriminate |].
  unfold first_named in *. simpl.
  destruct (String.eqb_spec (assign_name x) n) as [Heq | Hne].
  - pose proof (Huniq 0%nat x eq_refl Heq) as Hz. subst i.
    simpl in Hi. injection Hi as ->. reflexivity.
  - destruct i as [| i]; simpl in Hi; [congruence |].
    apply (IH i a Hi Ha). intros j b Hj Hb.
    specialize (Huniq (S j) b Hj Hb). lia.
Qed.

Section ForeachFacts.
Context `{Collaborators}.

Lemma name_cmp_key_name n a :
  name_cmp (attr_key n) a = Eq -> assign_name a = n.
Proof. intros Hc. apply name_cmp_eq in Hc. injection Hc. auto. Qed.

Lemma wf_assignment_key n a :
  wf_assignment a = true -> assign_name a = n ->
  name_cmp (attr_key n) a = Eq.
Proof.
  unfold wf_assignment. intros Hh Hn. apply Z.eqb_eq in Hh.
  apply name_cmp_eq. unfold assign_key, attr_key. congruence.
Qed.

(** On a well-formed rule the binary search finds the name exactly
    when the rule assigns it, and yields that assignment's value. *)
Lemma rule_value_first_named rule n :
  wf_rule rule = true ->
  rule_value (attr_key n) rule = first_named n (pairs_of (assigns rule)).
Proof.
  unfold wf_rule. intros Hwf. apply andb_true_iff in Hwf as [Hs Hh].
  assert (Hwfa : forall (i : nat) a, assigns rule !! i = Some a ->
                   wf_assignment a = true).
  { intros i a Hi. rewrite forallb_forall in Hh. apply Hh.
    apply list_elem_of_In. apply list_elem_of_lookup. eauto. }
  unfold rule_value.
  destruct (git_vector_bsearch (assigns rule) (attr_key n)) as [pos |] eqn:Hb.
  - destruct (git_vector_bsearch_sound _ _ _ Hb) as (a & Ha & Hc).
    unfold value_at, git_vector_get. rewrite Ha. symmetry.
    apply (first_named_unique n (assigns rule) pos a Ha
             (name_cmp_key_name n a Hc)).
    intros j b Hj Hn.
    apply (sorted_match_unique (assigns rule) (attr_key n) j pos b a);
      eauto using wf_assignment_key.
  - symmetry. apply first_named_absent. intros i a Hi Hn.
    apply (git_vector_bsearch_complete _ _ Hs Hb i a Hi).
    eauto using wf_assignment_key.
Qed.

Lemma first_rule_value n (matching : list git_attr_rule) :
  Forall (fun rule => wf_rule rule = true) matching ->
  head (omap (rule_value (attr_key n)) matching) =
    first_named n (pairs_of (all_assigns matching)).
Proof.
  induction 1 as [| rule matching Hr _ IH]; [reflexivity |].
  unfold all_assigns in *. simpl.
  rewrite pairs_of_app, first_named_app, <- IH.
  rewrite (rule_value_first_named rule n Hr).
  destruct (first_named n (pairs_of (assigns rule))); reflexivity.
Qed.

Lemma matching_rules_wf files path :
  forallb wf_file files = true ->
  Forall (fun rule => wf_rule rule = true) (matching_rules files path).
Proof.
  intros Hwf. apply List.Forall_forall. intros rule Hin.
  unfold matching_rules in Hin. apply in_flat_map in Hin as (file & Hf & Hr).
  unfold foreach_matching_rule in Hr. apply filter_In in Hr as [Hr _].
  apply in_rev in Hr. rewrite forallb_forall in Hwf.
  specialize (Hwf file Hf). unfold wf_file in Hwf.
  rewrite forallb_forall in Hwf. auto.
Qed.

Section Loops.
Context {P : Type}.
Variable callback : string -> value_ptr -> P -> Z * P.

Lemma foreach_assigns_spec l : forall pre (st : @foreach_state P),
  foreach_inv pre st ->
  exists stop st' done rest,
    foreach_assigns callback l st = (stop, st') /\
    l = done ++ rest /\
    foreach_inv (pre ++ done) st' /\
    (stop = false -> rest = []) /\
    (stop = true -> fe_error st' <> 0).
Proof.
  induction l as [| a l IH]; intros pre st Hinv.
  - exists false, st, [], []. rewrite (app_nil_r pre).
    split; [reflexivity |]. split; [reflexivity |]. split; [exact Hinv |].
    split; [reflexivity | discriminate].
  - cbn [foreach_assigns].
    destruct Hinv as [Hdel Hseen].
    destruct (seen st !! assign_name a) as [old |] eqn:Hold.
    + (* a higher-priority assignment was seen: skipped *)
      assert (Hinv' : foreach_inv (pre ++ [a]) st).
      { assert (Hpre : is_Some (first_named (assign_name a) (pairs_of pre)))
          by (apply Hseen; eauto).
        split; intros n; rewrite pairs_of_app, first_named_app.
        - rewrite Hdel. destruct (first_named n (pairs_of pre)) eqn:Hn;
            [reflexivity |].
          unfold first_named at 1. simpl.
          destruct (String.eqb_spec (assign_name a) n) as [<- | Hne];
            [| reflexivity].
          rewrite Hn in Hpre. destruct Hpre; discriminate.
        - rewrite Hseen. destruct (first_named n (pairs_of pre)) eqn:Hn;
            [reflexivity |].
          unfold first_named. simpl.
          destruct (String.eqb_spec (assign_name a) n) as [<- | Hne];
            [| reflexivity].
          rewrite Hn in Hpre. destruct Hpre; discriminate. }
      simpl. destruct (IH (pre ++ [a]) st Hinv')
        as (stop & st' & done & rest & Hrun & Hl & Hi & Hc & He).
      exists stop, st', (a :: done), rest.
      rewrite <- app_assoc in Hi. subst l. auto.
    + simpl.
      destruct (callback (assign_name a) (assign_value a) (payload st))
        as [error pl] eqn:Hcb.
      set (st1 := {| fe_error := error;
                     seen := <[assign_name a := a]> (seen st);
                     payload := pl;
                     delivered := delivered st ++
                       [(assign_name a, assign_value a)] |}).
      assert (Hpre : first_named (assign_name a) (pairs_of pre) = None).
      { destruct (first_named (assign_name a) (pairs_of pre)) eqn:Hn;
          [| reflexivity].
        assert (Hs : is_Some (seen st !! assign_name a))
          by (apply Hseen; eauto).
        rewrite Hold in Hs. destruct Hs; discriminate. }
      assert (Hinv1 : foreach_inv (pre ++ [a]) st1).
      { split; intros n; rewrite pairs_of_app, first_named_app.
        - unfold st1; simpl. rewrite first_named_app, Hdel. reflexivity.
        - unfold st1; simpl.
          destruct (String.eqb_spec (assign_name a) n) as [<- | Hne].
          + rewrite lookup_insert_eq, Hpre. unfold first_named; simpl.
            rewrite String.eqb_refl. split; eauto.
          + rewrite lookup_insert_ne by auto. rewrite Hseen.
            destruct (first_named n (pairs_of pre)); [reflexivity |].
            unfold first_named; simpl.
            destruct (String.eqb_spec (assign_name a) n); [congruence |].
            reflexivity. }
      destruct (error =? 0) eqn:He0; simpl.
      * destruct (IH (pre ++ [a]) st1 Hinv1)
          as (stop & st' & done & rest & Hrun & Hl & Hi & Hc & He).
        exists stop, st', (a :: done), rest.
        rewrite <- app_assoc in Hi. subst l. auto.
      * exists true, st1, [a], l.
        split; [reflexivity |]. split; [reflexivity |].
        split; [exact Hinv1 |]. split; [discriminate |].
        intros _. unfold st1; simpl. apply Z.eqb_neq. exact He0.
Qed.

Lemma foreach_rules_spec matching : forall pre (st : @foreach_state P),
  foreach_inv pre st ->
  exists stop st' done rest,
    foreach_rules callback matching st = (stop, st') /\
    all_assigns matching = done ++ rest /\
    foreach_inv (pre ++ done) st' /\
    (stop = false -> rest = []) /\
    (stop = true -> fe_error st' <> 0).
Proof.
  induction matching as [| rule matching IH]; intros pre st Hinv.
  - exists false, st, [], []. rewrite (app_nil_r pre).
    split; [reflexivity |]. split; [reflexivity |]. split; [exact Hinv |].
    split; [reflexivity | discriminate].
  - cbn [foreach_rules].
    destruct (foreach_assigns_spec (assigns rule) pre st Hinv)
      as (stop1 & st1 & done1 & rest1 & Hrun1 & Hl1 & Hi1 & Hc1 & He1).
    rewrite Hrun1. unfold all_assigns; simpl. destruct stop1.
    + exists true, st1, done1, (rest1 ++ all_assigns matching).
      rewrite Hl1, <- app_assoc.
      split; [reflexivity |]. split; [reflexivity |].
      split; [exact Hi1 |]. split; [discriminate | exact He1].
    + rewrite (Hc1 eq_refl), app_nil_r in Hl1.
      destruct (IH (pre ++ done1) st1 Hi1)
        as (stop & st' & done & rest & Hrun & Hl & Hi & Hc & He).
      exists stop, st', (done1 ++ done), rest.
      rewrite <- app_assoc in Hi. rewrite Hl1, <- app_assoc.
      fold (all_assigns matching). rewrite Hl. auto.
Qed.

Lemma foreach_files_spec path files : forall pre (st : @foreach_state P),
  foreach_inv pre st ->
  exists stop st' done rest,
    foreach_files callback files path st = (stop, st') /\
    all_assigns (matching_rules files path) = done ++ rest /\
    foreach_inv (pre ++ done) st' /\
    (stop = false -> rest = []) /\
    (stop = true -> fe_error st' <> 0).
Proof.
  induction files as [| file files IH]; intros pre st Hinv.
  - exists false, st, [], []. rewrite (app_nil_r pre).
    split; [reflexivity |]. split; [reflexivity |]. split; [exact Hinv |].
    split; [reflexivity | discriminate].
  - cbn [foreach_files].
    destruct (foreach_rules_spec (foreach_matching_rule file path) pre st
                Hinv)
      as (stop1 & st1 & done1 & rest1 & Hrun1 & Hl1 & Hi1 & Hc1 & He1).
    rewrite Hrun1.
    assert (Hall : all_assigns (matching_rules (file :: files) path) =
                   all_assigns (foreach_matching_rule file path) ++
                   all_assigns (matching_rules files path)).
    { unfold all_assigns, matching_rules. simpl. apply flat_map_app. }
    rewrite Hall. destruct stop1.
    + exists true, st1, done1,
        (rest1 ++ all_assigns (matching_rules files path)).
      rewrite Hl1, <- app_assoc.
      split; [reflexivity |]. split; [reflexivity |].
      split; [exact Hi1 |]. split; [discriminate | exact He1].
    + rewrite (Hc1 eq_refl), app_nil_r in Hl1.
      destruct (IH (pre ++ done1) st1 Hi1)
        as (stop & st' & done & rest & Hrun & Hl & Hi & Hc & He).
      exists stop, st', (done1 ++ done), rest.
      rewrite <- app_assoc in Hi. rewrite Hl1, <- app_assoc, Hl. auto.
Qed.

End Loops.
End ForeachFacts.

(** ** The lookup by names *)

Section LookupFacts.
Context `{Collaborators}.

Lemma head_omap_In {A B} (f : A -> option B) (l : list A) (b : B) :
  head (omap f l) = Some b -> exists a, In a l /\ f a = Some b.
Proof.
  induction l as [| a l IH]; simpl; [discriminate |].
  destruct (f a) as [b' |] eqn:Hf; simpl.
  - intros [= ->]. eauto.
  - intros Hh. destruct (IH Hh) as (a' & Hin & Ha'). eauto.
Qed.

Lemma rule_value_sound attr rule v :
  rule_value attr rule = Some v ->
  exists a, In a (assigns rule) /\ assign_key a = attr /\
            assign_value a = v.
Proof.
  unfold rule_value.
  destruct (git_vector_bsearch (assigns rule) attr) as [pos |] eqn:Hpos;
    [| discriminate].
  intros [= <-].
  destruct (git_vector_bsearch_sound _ _ _ Hpos) as (a & Ha & Hcmp).
  exists a. split.
  - apply list_elem_of_In. eapply list_elem_of_lookup_2. exact Ha.
  - split; [apply name_cmp_eq; exact Hcmp |].
    unfold value_at, git_vector_get. rewrite Ha. reflexivity.
Qed.

Lemma matching_rules_In files path rule :
  In rule (matching_rules files path) ->
  exists file, In file files /\ In rule (rules file) /\
               git_attr_rule__match rule path = true.
Proof.
  unfold matching_rules. rewrite in_flat_map.
  intros (file & Hfile & Hrule). unfold foreach_matching_rule in Hrule.
  apply filter_In in Hrule as [Hrev Hmatch].
  exists file. split; [exact Hfile |].
  split; [apply (proj2 (in_rev _ _)); exact Hrev | exact Hmatch].
Qed.

Lemma first_named_carried n l :
  first_named n (pairs_of l) =
    option_map assign_value
      (List.find (fun a => String.eqb (assign_name a) n) l).
Proof.
  unfold first_named, pairs_of.
  induction l as [| a l IH]; simpl; [reflexivity |].
  destruct (String.eqb (assign_name a) n); [reflexivity | exact IH].
Qed.

(** On well-formed rules the binary search finds the name in the
    first rule that carries it, and reads that assignment. *)
Lemma first_value_carrying n (matching : list git_attr_rule) :
  Forall (fun rule => wf_rule rule = true) matching ->
  head (omap (rule_value (attr_key n)) matching) =
    option_map assign_value (head (omap (carried n) matching)).
Proof.
  induction 1 as [| rule matching Hr _ IH]; [reflexivity |].
  simpl. rewrite (rule_value_first_named rule n Hr), first_named_carried.
  fold (carried n rule).
  destruct (carried n rule); simpl; [reflexivity | exact IH].
Qed.

(** C1: when the files were collected, [git_attr_get] returns the
    value that the first rule carrying the name assigns to it, the
    rules taken file after file in the order of the vector and, in a
    file, among those matching the path (the files being well formed:
    assignment lists sorted by hash and name, section 3, which is
    what the binary search relies on); and when no matching rule
    carries the name the result is NULL, which is classified
    UNSPECIFIED. *)
Theorem git_attr_get_first_match (slot : value_ptr) (repo : git_repository)
    (flags : Z) (pathname : option string) (n : string) (s : state)
    (path : git_attr_path) :
  git_attr_path__init repo pathname (git_repository_workdir repo)
    (dir_flag_of repo) = Some path ->
  0 <= fst (fst (fst (collect_attr_files repo None flags pathname [] s))) ->
  let files :=
    snd (fst (fst (collect_attr_files repo None flags pathname [] s))) in
  let value :=
    snd (fst (git_attr_get (Some slot) (Some repo) flags pathname (Some n)
                s)) in
  (forallb wf_file files = true ->
   value = Some (assigned_value files path n)) /\
  ((forall rule a,
      In rule (matching_rules files path) -> In a (assigns rule) ->
      assign_name a <> n) ->
   value = Some NULL /\
   git_attr_value NULL = GIT_ATTR_VALUE_UNSPECIFIED).
Proof.
  intros Hpath Hok. cbv zeta.
  rewrite (git_attr_get_eq slot repo flags pathname n s), Hpath.
  destruct (collect_attr_files repo None flags pathname [] s)
    as [[[error files] sess'] s']; cbn [fst snd] in *.
  destruct (error <? 0) eqn:Hneg; [apply Z.ltb_lt in Hneg; lia |].
  unfold first_match. split.
  - intros Hwf. unfold assigned_value, first_carrying.
    rewrite (first_value_carrying n _ (matching_rules_wf files path Hwf)).
    destruct (head (omap (carried n) (matching_rules files path)));
      reflexivity.
  - intros Hnone. split; [| reflexivity].
    destruct (head (omap (rule_value (attr_key n))
                      (matching_rules files path))) as [w |] eqn:Hhead;
      [| reflexivity].
    exfalso.
    destruct (head_omap_In _ _ _ Hhead) as (rule & Hrule & Hval).
    destruct (rule_value_sound _ _ _ Hval) as (a & Ha & Hkey & _).
    apply (Hnone rule a Hrule Ha).
    unfold assign_key, attr_key in Hkey. congruence.
Qed.

End LookupFacts.

Section GetForeach.
Context `{Collaborators}.

(** C3, amended: for well-formed attribute files (assignment lists sorted by
    hash and name without duplicates, section 3), the value
    [git_attr_get] returns for a name is the value of the first pair
    with that name among the pairs [git_attr_foreach] hands to its
    callback, whenever there is such a pair; and when the enumeration
    ran to its end (returned 0) without delivering the name,
    [git_attr_get] returns NULL, which is classified UNSPECIFIED. *)
Theorem git_attr_get_foreach {P : Type} (slot : value_ptr)
    (repo : git_repository) (flags : Z) (pathname : option string)
    (n : string) (callback : string -> value_ptr -> P -> Z * P) (pl : P)
    (s : state) :
  forallb wf_file
    (snd (fst (fst (collect_attr_files repo None flags pathname [] s))))
    = true ->
  let one := fst (git_attr_get (Some slot) (Some repo) flags pathname
                    (Some n) s) in
  let each := fst (git_attr_foreach (Some repo) flags pathname
                     (Some callback) pl s) in
  (forall w, first_named n (snd each) = Some w -> snd one = Some w) /\
  (fst (fst each) = 0 -> first_named n (snd each) = None ->
   snd one = Some NULL /\
   git_attr_value NULL = GIT_ATTR_VALUE_UNSPECIFIED).
Proof.
  intros Hwf one each. subst one each.
  rewrite (git_attr_get_eq slot repo flags pathname n s).
  unfold git_attr_foreach.
  destruct (git_attr_path__init _ _ _ _) as [path |]; simpl;
    [| split; [discriminate | lia]].
  unfold bind.
  destruct (collect_attr_files repo None flags pathname [] s)
    as [[[error files] sess'] s']; simpl in *.
  destruct (error <? 0) eqn:Hneg; simpl;
    [split; [discriminate | auto] |].
  set (st0 := {| fe_error := 0; seen := ∅; payload := pl;
                 delivered := [] |}).
  assert (Hinv0 : foreach_inv [] st0).
  { split; intros n'; simpl; [reflexivity |].
    rewrite lookup_empty. split; intros [w Hw]; discriminate. }
  destruct (foreach_files_spec callback path files [] st0 Hinv0)
    as (stop & st & done & rest & Hrun & Hall & [Hdel _] & Hc & He).
  rewrite Hrun. simpl in *.
  assert (Hget : first_match files path (attr_key n) =
                 default NULL
                   (first_named n (pairs_of (done ++ rest)))).
  { unfold first_match.
    rewrite (first_rule_value n _ (matching_rules_wf files path Hwf)).
    rewrite Hall. reflexivity. }
  rewrite Hget, pairs_of_app, first_named_app, <- Hdel.
  split.
  - intros w ->. reflexivity.
  - intros Herr ->. split; [| reflexivity].
    destruct stop; [exfalso; apply (He eq_refl); exact Herr |].
    rewrite (Hc eq_refl). reflexivity.
Qed.

End GetForeach.

Module ScenarioForeach.
Import Scenario.

(** C3 at work on src/x.bin: the enumeration delivers [diff] and
    [text] once each, the lookup of [text] gives the delivered value. *)
Lemma git_attr_get_foreach_witness :
  snd (fst (git_attr_foreach (Some work_repo) 0 (Some "src/x.bin"%string)
              (Some (fun _ _ (count : nat) => (0, S count))) 0%nat s0))
    = [("diff"%string, git_attr__unset); ("text"%string, git_attr__false)] /\
  snd (fst (git_attr_get (Some (str "junk")) (Some work_repo) 0
              (Some "src/x.bin"%string) (Some "text"%string) s0))
    = Some git_attr__false.
Proof.
  split; [reflexivity |].
  refine (proj1
    (git_attr_get_foreach (str "junk") work_repo 0 (Some "src/x.bin"%string)
       "text" (fun _ _ (count : nat) => (0, S count)) 0%nat s0 _)
    git_attr__false _); reflexivity.
Defined.

(** C3, as stated, fails: a callback that stops the enumeration at
    [diff] is handed no pair named [text], on well-formed files, and
    yet the lookup of [text] for the same path is FALSE, not
    UNSPECIFIED. *)
Lemma git_attr_get_foreach_stopped :
  forallb wf_file
    (snd (fst (fst (@collect_attr_files world work_repo None 0
                      (Some "src/x.bin"%string) [] s0)))) = true /\
  fst (@git_attr_foreach world nat (Some work_repo) 0
         (Some "src/x.bin"%string) (Some stop_at_diff) 0%nat s0)
    = (7, 1%nat, [("diff"%string, git_attr__unset)]) /\
  first_named "text"
    (snd (fst (@git_attr_foreach world nat (Some work_repo) 0
                 (Some "src/x.bin"%string) (Some stop_at_diff) 0%nat s0)))
    = None /\
  snd (fst (@git_attr_get world (Some NULL) (Some work_repo) 0
              (Some "src/x.bin"%string) (Some "text"%string) s0))
    = Some git_attr__false /\
  git_attr_value git_attr__false <> GIT_ATTR_VALUE_UNSPECIFIED.
Proof. repeat split; try reflexivity. discriminate. Qed.

End ScenarioForeach.

(** ** Reasoning about the requests of a computation *)

Section Triples.
Context `{Collaborators}.

Lemma triple_ret {A : Type} (a : A) (Q : A -> list cache_request -> Prop) :
  Q a [] -> triple (ret a) Q.
Proof. intros HQ s. exists []. rewrite app_nil_r. auto. Qed.

Lemma triple_bind {A B : Type} (m : M A) (k : A -> M B)
    (Q1 : A -> list cache_request -> Prop)
    (Q : B -> list cache_request -> Prop) :
  triple m Q1 ->
  (forall a c1, Q1 a c1 -> triple (k a) (fun b c2 => Q b (c1 ++ c2))) ->
  triple (bind m k) Q.
Proof.
  intros Hm Hk s. destruct (Hm s) as (c1 & Hr1 & Hq1).
  unfold bind. destruct (m s) as [a s1]. simpl in *.
  destruct (Hk a c1 Hq1 s1) as (c2 & Hr2 & Hq2).
  exists (c1 ++ c2). rewrite Hr2, Hr1, app_assoc. auto.
Qed.

Lemma triple_conseq {A : Type} (m : M A)
    (Q Q' : A -> list cache_request -> Prop) :
  triple m Q -> (forall a c, Q a c -> Q' a c) -> triple m Q'.
Proof.
  intros Hm Himp s. destruct (Hm s) as (c & Hr & Hq). eauto.
Qed.

Lemma logs_ret {A : Type} T (a : A) : logs T (ret a).
Proof. apply triple_ret. constructor. Qed.

Lemma logs_bind {A B : Type} T (m : M A) (k : A -> M B) :
  logs T m -> (forall a, logs T (k a)) -> logs T (bind m k).
Proof.
  intros Hm Hk. eapply triple_bind; [exact Hm |].
  intros a c1 Hc1. eapply triple_conseq; [apply Hk |].
  simpl. intros b c2 Hc2. apply Forall_app. auto.
Qed.

Lemma attr_cache__init_triple repo :
  triple (attr_cache__init repo) (fun _ calls => calls = []).
Proof.
  intros s. exists []. unfold attr_cache__init.
  destruct (git_attr_cache__init repo (cache s)). simpl.
  rewrite app_nil_r. auto.
Qed.

Lemma attr_cache__get_triple repo attr_session source allow_macros :
  triple (attr_cache__get repo attr_session source allow_macros)
    (fun r calls =>
       exists req, calls = [req] /\ answered repo req /\
         req_source req = source /\ req_allow_macros req = allow_macros /\
         r = (req_error req, req_file req)).
Proof.
  intros s. unfold attr_cache__get.
  destruct (git_attr_cache__get repo attr_session source allow_macros
              (cache s)) as [[error file] c] eqn:Hget.
  eexists. split; [reflexivity |]. eexists. split; [reflexivity |].
  simpl. repeat split. exists attr_session, (cache s), c. exact Hget.
Qed.

End Triples.

(** ** Macro trust *)

Section Trust.
Context `{Collaborators}.
Variable workdir : option string.

Lemma attr_cache__get_logs repo attr_session source allow_macros :
  allow_macros = negb (nested_source workdir source) ->
  logs (trust_ok workdir)
    (attr_cache__get repo attr_session source allow_macros).
Proof.
  intros Hallow. eapply triple_conseq; [apply attr_cache__get_triple |].
  simpl. intros r calls (req & -> & _ & Hs & Ha & _).
  constructor; [| constructor]. unfold trust_ok. congruence.
Qed.

Lemma preload_attr_source_logs repo attr_session source :
  match source with
  | Some src => nested_source workdir src = false
  | None => True
  end ->
  logs (trust_ok workdir) (preload_attr_source repo attr_session source).
Proof.
  destruct source as [src |]; simpl; intros Hs; [| apply logs_ret].
  apply logs_bind; [apply attr_cache__get_logs; rewrite Hs; reflexivity |].
  intros [error preload]. apply logs_ret.
Qed.

Lemma preload_attr_file_logs repo attr_session base filename :
  nested_source workdir
    {| src_type := GIT_ATTR_FILE_SOURCE_FILE; src_base := base;
       src_filename := filename |} = false ->
  logs (trust_ok workdir) (preload_attr_file repo attr_session base filename).
Proof.
  intros Hs. unfold preload_attr_file.
  destruct filename; [| apply logs_ret].
  apply preload_attr_source_logs. exact Hs.
Qed.

Lemma push_attr_source_logs repo attr_session lst source allow_macros :
  allow_macros = negb (nested_source workdir source) ->
  logs (trust_ok workdir)
    (push_attr_source repo attr_session lst source allow_macros).
Proof.
  intros Hallow. unfold push_attr_source.
  apply logs_bind; [apply attr_cache__get_logs; exact Hallow |].
  intros [error file].
  destruct (error <? 0); [apply logs_ret |].
  destruct file; apply logs_ret.
Qed.

Lemma push_attr_file_logs repo attr_session lst base filename :
  nested_source workdir
    {| src_type := GIT_ATTR_FILE_SOURCE_FILE; src_base := base;
       src_filename := filename |} = false ->
  logs (trust_ok workdir) (push_attr_file repo attr_session lst base filename).
Proof.
  intros Hs. apply push_attr_source_logs. rewrite Hs. reflexivity.
Qed.

Lemma nested_source_root w filename t :
  nested_source (Some w)
    {| src_type := t; src_base := Some w; src_filename := filename |} = false.
Proof.
  unfold nested_source; simpl. destruct filename; [| reflexivity].
  rewrite String.eqb_refl. apply andb_false_r.
Qed.

Lemma push_one_attr_loop_logs src : forall info path error,
  info_workdir info = workdir ->
  logs (trust_ok workdir)
    (push_one_attr_loop info path
       (match workdir with
        | Some w => String.eqb w path
        | None => false
        end) src error).
Proof.
  induction src as [| src_i src IH]; intros info path error Hwd; simpl;
    [apply logs_ret |].
  destruct (negb (error =? 0)); [apply logs_ret |].
  apply logs_bind.
  - apply push_attr_source_logs. unfold nested_source; simpl.
    rewrite negb_involutive. reflexivity.
  - intros [error' files]. apply IH. exact Hwd.
Qed.

Lemma push_one_attr_logs info path :
  info_workdir info = workdir ->
  logs (trust_ok workdir) (push_one_attr info path).
Proof.
  intros Hwd. unfold push_one_attr. rewrite Hwd.
  apply push_one_attr_loop_logs. exact Hwd.
Qed.

Lemma push_one_attr_loop_workdir src : forall info path allow error s,
  info_workdir (snd (fst (push_one_attr_loop info path allow src error s)))
    = info_workdir info.
Proof.
  induction src as [| src_i src IH]; intros info path allow error s; simpl;
    [reflexivity |].
  destruct (negb (error =? 0)); [reflexivity |].
  unfold bind. destruct (push_attr_source _ _ _ _ _ s) as [[e files] s1].
  rewrite IH. reflexivity.
Qed.

Lemma walk_up_loop_logs dirs : forall info,
  info_workdir info = workdir ->
  logs (trust_ok workdir) (walk_up_loop dirs push_one_attr info).
Proof.
  induction dirs as [| d dirs IH]; intros info Hwd; simpl;
    [apply logs_ret |].
  intros s. unfold bind.
  destruct (push_one_attr_logs info d Hwd s) as (c1 & Hr1 & Hq1).
  pose proof (push_one_attr_loop_workdir
                (attr_decide_sources (info_flags info)
                   (is_Some_b (info_workdir info))
                   (is_Some_b (info_index info)))
                info d
                (match info_workdir info with
                 | Some w => String.eqb w d
                 | None => false
                 end) 0 s) as Hwd1.
  fold (push_one_attr info d) in Hwd1.
  destruct (push_one_attr info d s) as [[error info1] s1]. simpl in *.
  destruct (error =? 0).
  - destruct (IH info1 ltac:(congruence) s1) as (c2 & Hr2 & Hq2).
    exists (c1 ++ c2). rewrite Hr2, Hr1, app_assoc. split; [reflexivity |].
    apply Forall_app. auto.
  - exists c1. auto.
Qed.

End Trust.

Section TrustCollect.
Context `{Collaborators}.

Lemma nested_source_global workdir t filename :
  nested_source workdir
    {| src_type := t; src_base := None; src_filename := filename |} = false.
Proof. reflexivity. Qed.

Lemma nested_source_info workdir t base :
  nested_source workdir
    {| src_type := t; src_base := base;
       src_filename := Some GIT_ATTR_FILE_INREPO |} = false.
Proof. unfold nested_source; simpl. destruct base; reflexivity. Qed.

Lemma attr_setup_logs repo attr_session flags :
  logs (trust_ok (git_repository_workdir repo))
    (attr_setup repo attr_session flags).
Proof.
  unfold attr_setup.
  destruct (session_init_setup attr_session); [apply logs_ret |].
  apply logs_bind.
  { eapply triple_conseq; [apply attr_cache__init_triple |].
    simpl. intros _ c ->. constructor. }
  intros e0. destruct (e0 <? 0); [apply logs_ret |].
  destruct (system_attr_file GIT_BUF_INIT attr_session)
    as [[e1 system] sess1].
  apply logs_bind.
  { destruct (e1 <? 0); [apply logs_ret |].
    apply preload_attr_file_logs, nested_source_global. }
  intros e2. destruct (fatal e2); [apply logs_ret |].
  apply logs_bind;
    [apply preload_attr_file_logs, nested_source_global |].
  intros e3. destruct (e3 <? 0); [apply logs_ret |].
  destruct (git_repository_item_path repo) as [e4 info].
  apply logs_bind.
  { destruct (e4 <? 0); [apply logs_ret |].
    apply preload_attr_file_logs, nested_source_info. }
  intros e5. destruct (fatal e5); [apply logs_ret |].
  apply logs_bind.
  { destruct (git_repository_workdir repo) as [w |]; [| apply logs_ret].
    apply preload_attr_file_logs, nested_source_root. }
  intros e6. destruct (e6 <? 0); [apply logs_ret |].
  apply logs_bind.
  { destruct (fst (git_repository_index__weakptr repo) <? 0);
      [apply logs_ret |].
    apply preload_attr_source_logs, nested_source_global. }
  intros e7. destruct (e7 <? 0); [apply logs_ret |].
  apply logs_bind.
  { destruct (Z.land flags GIT_ATTR_CHECK_INCLUDE_HEAD =? 0);
      [apply logs_ret |].
    apply preload_attr_source_logs, nested_source_global. }
  intros e8. destruct (e8 <? 0); apply logs_ret.
Qed.

Lemma collect_attr_files_logs repo attr_session flags path files :
  logs (trust_ok (git_repository_workdir repo))
    (collect_attr_files repo attr_session flags path files).
Proof.
  unfold collect_attr_files.
  apply logs_bind; [apply attr_setup_logs |].
  intros [e0 sess1]. destruct (e0 <? 0); [apply logs_ret |].
  match goal with
  | |- logs _ (let (_, _) := ?x in _) => destruct x as [e1 dir]
  end.
  destruct (e1 <? 0); [apply logs_ret |].
  destruct (git_repository_item_path repo) as [e2 attrfile].
  apply logs_bind.
  { destruct (e2 <? 0); [apply logs_ret |].
    apply push_attr_file_logs, nested_source_info. }
  intros [e3 files1]. destruct (fatal e3); [apply logs_ret |].
  apply logs_bind.
  { destruct (String.eqb dir "."); [apply push_one_attr_logs; reflexivity |].
    apply walk_up_loop_logs. reflexivity. }
  intros [e4 info1]. destruct (e4 <? 0); [apply logs_ret |].
  apply logs_bind.
  { destruct (cfg_attr_file repo); [| apply logs_ret].
    apply push_attr_file_logs, nested_source_global. }
  intros [e5 files2]. destruct (e5 <? 0); [apply logs_ret |].
  destruct (Z.land flags GIT_ATTR_CHECK_NO_SYSTEM =? 0); [| apply logs_ret].
  destruct (system_attr_file dir sess1) as [[e6 dir'] sess2].
  apply logs_bind.
  { destruct (e6 =? 0);
      [apply push_attr_file_logs, nested_source_global |].
    destruct (e6 =? GIT_ENOTFOUND); apply logs_ret. }
  intros [e7 files3]. apply logs_ret.
Qed.

(** C5, amended: among the requests a collection makes to the cache,
    [allow_macros] is false exactly for the [.gitattributes] of a
    directory other than the work-tree root (in a repository without
    work directory: of every walked directory).  It is true for the
    system file, the configured file, the [$GIT_DIR/info] file and
    for every source of the root [.gitattributes]: the working-tree
    file, the index blob and the commit blob alike, the index and HEAD
    blobs preloaded by the setup included. *)
Theorem collect_attr_files_macro_trust (repo : git_repository)
    (attr_session : option git_attr_session) (flags : Z)
    (path : option string) (files : list git_attr_file) (s : state) :
  exists calls,
    requests (snd (collect_attr_files repo attr_session flags path files s))
      = requests s ++ calls /\
    Forall (fun req =>
              req_allow_macros req =
                negb (nested_source (git_repository_workdir repo)
                        (req_source req))) calls.
Proof. apply (collect_attr_files_logs repo attr_session flags path files s). Qed.

End TrustCollect.

Module ScenarioTrust.
Import Scenario.

(** C5, as stated, fails: collecting for src/x.bin parses the index
    blob of the root [.gitattributes] with macros allowed, both in the
    preload of the setup and at the root of the walk. *)
Lemma index_blob_parsed_with_macros :
  let log := requests (snd (collect_attr_files work_repo None 0
                              (Some "src/x.bin"%string) [] s0)) in
  In (source GIT_ATTR_FILE_SOURCE_INDEX None GIT_ATTR_FILE, true)
     (map (fun req => (req_source req, req_allow_macros req)) log) /\
  In (source GIT_ATTR_FILE_SOURCE_INDEX (Some "/repo/"%string) GIT_ATTR_FILE,
      true)
     (map (fun req => (req_source req, req_allow_macros req)) log) /\
  ~ Forall (fun req =>
              src_type (req_source req) = GIT_ATTR_FILE_SOURCE_INDEX ->
              req_allow_macros req = false) log.
Proof.
  vm_compute. split; [| split].
  - do 3 right. left. reflexivity.
  - do 8 right. left. reflexivity.
  - intros Hall. do 3 (apply Forall_cons_1 in Hall as [_ Hall]).
    apply Forall_cons_1 in Hall as [Habs _].
    specialize (Habs eq_refl). discriminate.
Qed.

End ScenarioTrust.

(** ** The order of the collected files *)

Section Pushes.
Context `{Collaborators}.

Lemma push_attr_source_triple repo attr_session lst source allow_macros :
  triple (push_attr_source repo attr_session lst source allow_macros)
    (fun r calls =>
       exists req, calls = [req] /\ answered repo req /\
         req_source req = source /\ req_allow_macros req = allow_macros /\
         r = (push_error req, lst ++ contribution req)).
Proof.
  unfold push_attr_source.
  eapply triple_bind; [apply attr_cache__get_triple |].
  simpl. intros [error file] c1 (req & -> & Hans & Hs & Ha & Hr).
  injection Hr as -> ->.
  assert (Hpost : forall r,
            r = (push_error req, lst ++ contribution req) ->
            exists req0, [req] ++ [] = [req0] /\ answered repo req0 /\
              req_source req0 = source /\
              req_allow_macros req0 = allow_macros /\
              r = (push_error req0, lst ++ contribution req0)).
  { intros r ->. exists req. auto. }
  unfold push_error, contribution in Hpost.
  destruct (req_error req <? 0).
  - apply triple_ret, Hpost. rewrite app_nil_r. reflexivity.
  - destruct (req_file req); apply triple_ret, Hpost;
      [reflexivity | rewrite app_nil_r; reflexivity].
Qed.

Lemma answered_code repo req :
  cache_codes repo -> answered repo req -> req_error req <= 0.
Proof.
  intros Hcodes (sess & c & c' & Heq).
  specialize (Hcodes sess (req_source req) (req_allow_macros req) c).
  rewrite Heq in Hcodes. exact Hcodes.
Qed.

Lemma push_error_code repo req :
  cache_codes repo -> answered repo req ->
  push_error req <= 0 /\
  (push_error req < 0 -> contribution req = []).
Proof.
  intros Hcodes Hans. pose proof (answered_code repo req Hcodes Hans) as Hle.
  unfold push_error, contribution.
  destruct (req_error req <? 0) eqn:Hneg.
  - split; [lia | reflexivity].
  - destruct (req_file req); split; lia.
Qed.

Lemma push_one_attr_loop_stop info path allow src error :
  error <> 0 ->
  push_one_attr_loop info path allow src error = ret (error, info).
Proof.
  intros Hne. destruct src; simpl; [reflexivity |].
  apply Z.eqb_neq in Hne. rewrite Hne. reflexivity.
Qed.

Lemma push_one_attr_loop_triple path allow src :
  forall info,
    cache_codes (info_repo info) ->
    triple (push_one_attr_loop info path allow src 0)
      (fun r calls =>
         snd r = set_files info
                   (info_files info ++ flat_map contribution calls) /\
         fst r <= 0 /\
         (fst r = 0 -> map req_source calls = map (dir_source path) src) /\
         Forall (answered (info_repo info)) calls).
Proof.
  induction src as [| src_i src IH]; intros info Hcodes.
  - apply triple_ret. simpl. rewrite app_nil_r. destruct info.
    split; [reflexivity |]. split; [lia |]. split; [reflexivity |].
    constructor.
  - cbn [push_one_attr_loop]. simpl negb. cbv iota.
    eapply triple_bind; [apply push_attr_source_triple |].
    simpl. intros [error files] c1 (req & -> & Hans & Hs & _ & Hr).
    injection Hr as -> ->.
    destruct (push_error_code (info_repo info) req Hcodes Hans)
      as [Hle Hnothing].
    destruct (Z.eq_dec (push_error req) 0) as [Hz | Hnz].
    + rewrite Hz. eapply triple_conseq; [apply IH; exact Hcodes |].
      simpl. intros [e info'] c2 (Hinfo & He & Hsrc & Hall). simpl in *.
      rewrite <- app_assoc in Hinfo.
      split; [exact Hinfo |]. split; [exact He |].
      split; [| constructor; assumption].
      intros He0. rewrite (Hsrc He0), Hs. reflexivity.
    + rewrite push_one_attr_loop_stop by exact Hnz.
      apply triple_ret. simpl. rewrite !app_nil_r.
      split; [reflexivity |]. split; [lia |]. split; [lia |].
      constructor; [exact Hans | constructor].
Qed.

Lemma push_one_attr_triple info path :
  cache_codes (info_repo info) ->
  triple (push_one_attr info path)
    (fun r calls =>
       snd r = set_files info
                 (info_files info ++ flat_map contribution calls) /\
       fst r <= 0 /\
       (fst r = 0 ->
        map req_source calls =
          map (dir_source path)
            (attr_decide_sources (info_flags info)
               (is_Some_b (info_workdir info))
               (is_Some_b (info_index info)))) /\
       Forall (answered (info_repo info)) calls).
Proof. apply push_one_attr_loop_triple. Qed.

Lemma walk_up_loop_triple dirs : forall info,
  cache_codes (info_repo info) ->
  triple (walk_up_loop dirs push_one_attr info)
    (fun r calls =>
       snd r = set_files info
                 (info_files info ++ flat_map contribution calls) /\
       fst r <= 0 /\
       (fst r = 0 ->
        map req_source calls =
          flat_map
            (fun dir =>
               map (dir_source dir)
                 (attr_decide_sources (info_flags info)
                    (is_Some_b (info_workdir info))
                    (is_Some_b (info_index info)))) dirs) /\
       Forall (answered (info_repo info)) calls).
Proof.
  induction dirs as [| d dirs IH]; intros info Hcodes.
  - apply triple_ret. simpl. rewrite app_nil_r. destruct info.
    split; [reflexivity |]. split; [lia |]. split; [reflexivity |].
    constructor.
  - cbn [walk_up_loop].
    eapply triple_bind; [apply (push_one_attr_triple info d Hcodes) |].
    simpl. intros [error info1] c1 (Hinfo & He & Hsrc & Hall1).
    simpl in *.
    subst info1. destruct (error =? 0) eqn:Hz.
    + apply Z.eqb_eq in Hz.
      eapply triple_conseq; [apply IH; exact Hcodes |].
      simpl. intros [e info'] c2 (Hinfo & He' & Hsrc' & Hall2). simpl in *.
      rewrite flat_map_app, app_assoc, map_app.
      split; [exact Hinfo |]. split; [exact He' |].
      split; [| apply Forall_app; auto].
      intros He0. rewrite (Hsrc Hz), (Hsrc' He0). reflexivity.
    + apply Z.eqb_neq in Hz. apply triple_ret. simpl.
      rewrite !app_nil_r. split; [reflexivity |]. split; [lia |].
      split; [lia | exact Hall1].
Qed.

End Pushes.

Section Precedence.
Context `{Collaborators}.

Lemma push_attr_file_triple repo attr_session lst base filename :
  triple (push_attr_file repo attr_session lst base filename)
    (fun r calls =>
       exists req, calls = [req] /\ answered repo req /\
         req_source req = named_file base filename /\
         r = (push_error req, lst ++ contribution req)).
Proof.
  eapply triple_conseq; [apply push_attr_source_triple |].
  simpl. intros r c (req & -> & Hans & Hs & _ & ->). exists req. auto.
Qed.

Lemma bind_run {A B : Type} (m : M A) (k : A -> M B) (s : state) :
  bind m k s = k (fst (m s)) (snd (m s)).
Proof. unfold bind. destruct (m s). reflexivity. Qed.

(** [found_system_file] is what [system_attr_file] finds. *)
Lemma system_attr_file_found out attr_session :
  found_system_file attr_session =
    if fst (fst (system_attr_file out attr_session)) =? 0
    then Some (snd (fst (system_attr_file out attr_session)))
    else None.
Proof.
  unfold found_system_file, system_attr_file.
  destruct (git_sysdir_find_system_file GIT_ATTR_FILE_SYSTEM) as [e buf].
  destruct attr_session as [sess |]; [| reflexivity].
  destruct (init_sysdir sess).
  - destruct (String.length (sysdir sess) =? 0)%nat; reflexivity.
  - destruct (e =? 0) eqn:He0; destruct (e =? GIT_ENOTFOUND) eqn:Henf;
      cbn [negb andb orb sysdir fst snd];
      try (destruct (String.length buf =? 0)%nat; reflexivity).
    rewrite He0. reflexivity.
Qed.

(** The requests of a collection that does not fail, after those of
    the setup: their sources in order, each answered by the cache,
    and the vector as what they found. *)
Lemma collect_attr_files_run (repo : git_repository)
    (attr_session : option git_attr_session) (flags : Z)
    (path : option string) (s : state) :
  cache_codes repo ->
  0 <= fst (fst (fst (collect_attr_files repo attr_session flags path [] s))) ->
  exists calls,
    requests (snd (collect_attr_files repo attr_session flags path [] s))
      = requests (snd (attr_setup repo attr_session flags s)) ++ calls /\
    Forall (answered repo) calls /\
    map req_source calls =
      collector_sources repo
        (snd (fst (attr_setup repo attr_session flags s))) flags path /\
    snd (fst (fst (collect_attr_files repo attr_session flags path [] s)))
      = flat_map contribution calls.
Proof.
  intros Hcodes. unfold collect_attr_files. rewrite bind_run.
  destruct (attr_setup repo attr_session flags s) as [[e0 sess1] s1].
  cbn [fst snd]. destruct (e0 <? 0) eqn:He0.
  { simpl. intros Hok. apply Z.ltb_lt in He0. lia. }
  match goal with
  | |- 0 <= fst (fst (fst (?m s1))) -> _ =>
      assert (Ht : triple m
                (fun r calls =>
                   0 <= fst (fst r) ->
                   Forall (answered repo) calls /\
                   map req_source calls =
                     collector_sources repo sess1 flags path /\
                   snd (fst r) = flat_map contribution calls))
  end.
  2: { intros Hok. destruct (Ht s1) as (calls & Hr & Hq).
       exists calls. split; [exact Hr |]. apply Hq, Hok. }
  clear s s1 e0 He0.
  unfold collector_sources, info_sources, walked_dirs, system_sources,
    dir_sources, cfg_sources, resolve_dir, collect_index.
  match goal with
  | |- triple (let (_, _) := ?x in _) _ => destruct x as [e1 dir]
  end.
  cbn [snd]. destruct (e1 <? 0) eqn:He1.
  { apply triple_ret. simpl. intros Hok. apply Z.ltb_lt in He1. lia. }
  destruct (git_repository_item_path repo) as [e2 attrfile].
  (* $GIT_DIR/info/attributes *)
  apply (triple_bind _ _
    (fun r calls =>
       Forall (answered repo) calls /\
       map req_source calls =
         (if e2 <? 0 then []
          else [named_file (Some attrfile) (Some GIT_ATTR_FILE_INREPO)]) /\
       snd r = flat_map contribution calls)).
  { destruct (e2 <? 0); [apply triple_ret; auto |].
    eapply triple_conseq; [apply push_attr_file_triple |].
    simpl. intros r c (req & -> & Hans & Hs & ->). simpl.
    rewrite Hs, app_nil_r. auto. }
  intros [e3 files1] c1 (Hans1 & Hsrc1 & Hfiles1). simpl in Hfiles1.
  subst files1.
  destruct (fatal e3) eqn:Hfatal.
  { apply triple_ret. simpl. intros Hok. unfold fatal in Hfatal.
    apply andb_true_iff in Hfatal as [Hneg _]. apply Z.ltb_lt in Hneg. lia. }
  (* the walk *)
  match goal with
  | |- triple (bind (if _ then push_one_attr ?i _ else _) _) _ =>
      set (info := i)
  end.
  apply (triple_bind _ _
    (fun r calls =>
       snd r = set_files info
                 (info_files info ++ flat_map contribution calls) /\
       fst r <= 0 /\
       (fst r = 0 ->
        map req_source calls =
          flat_map
            (fun dir =>
               map (dir_source dir)
                 (attr_decide_sources (info_flags info)
                    (is_Some_b (info_workdir info))
                    (is_Some_b (info_index info))))
            (if String.eqb dir "." then [""%string]
             else git_path_walk_up_dirs dir (git_repository_workdir repo))) /\
       Forall (answered repo) calls)).
  { destruct (String.eqb dir ".").
    - eapply triple_conseq;
        [apply (push_one_attr_triple info ""%string Hcodes) |].
      simpl. intros r c (Hinfo & He & Hsrc & Hall). rewrite app_nil_r. auto.
    - apply (walk_up_loop_triple _ info Hcodes). }
  intros [e4 info1] c2 (Hinfo1 & He4 & Hsrc2 & Hans2).
  simpl in Hinfo1, He4, Hsrc2.
  subst info1. cbn [info_files set_files].
  destruct (e4 <? 0) eqn:Hneg4.
  { apply triple_ret. simpl. intros Hok. apply Z.ltb_lt in Hneg4. lia. }
  apply Z.ltb_ge in Hneg4. assert (Hz4 : e4 = 0) by lia.
  specialize (Hsrc2 Hz4). subst e4.
  (* core.attributesfile *)
  apply (triple_bind _ _
    (fun r calls =>
       Forall (answered repo) calls /\
       map req_source calls =
         match cfg_attr_file repo with
         | Some _ => [named_file None (cfg_attr_file repo)]
         | None => []
         end /\
       snd r = (info_files info ++ flat_map contribution c2)
                 ++ flat_map contribution calls /\
       (0 <= fst r -> fst r = 0))).
  { destruct (cfg_attr_file repo) as [cfg |];
      [| apply triple_ret; rewrite app_nil_r; auto].
    eapply triple_conseq; [apply push_attr_file_triple |].
    simpl. intros r c (req & -> & Hans & Hs & ->). simpl.
    rewrite Hs, app_nil_r. split; [auto |]. repeat split.
    destruct (push_error_code repo req Hcodes Hans). lia. }
  intros [e5 files2] c3 (Hans3 & Hsrc3 & Hfiles2 & He5).
  simpl in Hfiles2, He5.
  subst files2. destruct (e5 <? 0) eqn:Hneg5.
  { apply triple_ret. simpl. intros Hok. apply Z.ltb_lt in Hneg5. lia. }
  apply Z.ltb_ge in Hneg5. specialize (He5 Hneg5). subst e5.
  unfold info in *. cbn [info_files info_flags info_workdir info_index] in *.
  destruct (Z.land flags GIT_ATTR_CHECK_NO_SYSTEM =? 0).
  - (* the system file *)
    rewrite (system_attr_file_found dir sess1).
    destruct (system_attr_file dir sess1) as [[e6 dir'] sess2].
    cbn [fst snd].
    apply (triple_bind _ _
      (fun r calls =>
         Forall (answered repo) calls /\
         map req_source calls =
           (if e6 =? 0 then [named_file None (Some dir')] else []) /\
         snd r = (flat_map contribution c1 ++ flat_map contribution c2)
                   ++ flat_map contribution c3
                   ++ flat_map contribution calls)).
    { destruct (e6 =? 0).
      - eapply triple_conseq; [apply push_attr_file_triple |].
        simpl. intros r c (req & -> & Hans & Hs & ->). simpl.
        rewrite Hs, !app_nil_r, <- !app_assoc. auto.
      - destruct (e6 =? GIT_ENOTFOUND); apply triple_ret;
          rewrite !app_nil_r, <- !app_assoc; auto. }
    intros [e7 files3] c4 (Hans4 & Hsrc4 & Hfiles3). simpl in Hfiles3.
    subst files3.
    apply triple_ret. simpl. intros Hok. unfold collect_cleanup.
    destruct (e7 <? 0) eqn:Hneg7; [apply Z.ltb_lt in Hneg7; lia |].
    rewrite !app_nil_r, !map_app, !flat_map_app.
    rewrite Hsrc1, Hsrc2, Hsrc3, Hsrc4, <- !app_assoc.
    split; [repeat (apply Forall_app; split); assumption |].
    split; [| reflexivity]. destruct (e6 =? 0); reflexivity.
  - apply triple_ret. simpl. intros _.
    rewrite !app_nil_r, !map_app, !flat_map_app.
    rewrite Hsrc1, Hsrc2, Hsrc3, <- !app_assoc.
    split; [repeat (apply Forall_app; split); assumption |].
    split; reflexivity.
Qed.

(** C2, amended: a collection that does not fail asks the cache, after
    the setup, for the [$GIT_DIR/info/attributes] file first, then for
    the [.gitattributes] of each directory from the one of the query
    path upward (each with its backends in the order of the flags),
    then for the configured file, and last for the system file; the
    system file is left out when NO_SYSTEM is set and also when there
    is no system file (none remembered by the session, none resolved
    by the system directory).  Every request is one the cache
    answered, and the vector handed to the resolver holds the files
    of these answers, in that order. *)
Theorem collect_attr_files_precedence (repo : git_repository)
    (attr_session : option git_attr_session) (flags : Z)
    (path : option string) (s : state) :
  cache_codes repo ->
  0 <= fst (fst (fst (collect_attr_files repo attr_session flags path [] s))) ->
  exists calls,
    requests (snd (collect_attr_files repo attr_session flags path [] s))
      = requests (snd (attr_setup repo attr_session flags s)) ++ calls /\
    Forall (answered repo) calls /\
    map req_source calls =
      info_sources repo
      ++ flat_map (dir_sources repo flags) (walked_dirs repo path)
      ++ cfg_sources repo
      ++ (if Z.land flags GIT_ATTR_CHECK_NO_SYSTEM =? 0
          then match found_system_file
                       (snd (fst (attr_setup repo attr_session flags s))) with
               | Some system => [named_file None (Some system)]
               | None => []
               end
          else []) /\
    snd (fst (fst (collect_attr_files repo attr_session flags path [] s)))
      = flat_map contribution calls.
Proof.
  intros Hcodes Hok.
  exact (collect_attr_files_run repo attr_session flags path s Hcodes Hok).
Qed.

End Precedence.

(** ** Missing sources *)

Ltac bool_hyps :=
  repeat match goal with
    | Hb : fatal _ = true |- _ =>
        unfold fatal in Hb; apply andb_true_iff in Hb as [? ?]
    | Hb : negb _ = true |- _ => apply negb_true_iff in Hb
    | Hb : negb _ = false |- _ => apply negb_false_iff in Hb
    | Hb : (_ <? _) = true |- _ => apply Z.ltb_lt in Hb
    | Hb : (_ <? _) = false |- _ => apply Z.ltb_ge in Hb
    | Hb : (_ =? _) = true |- _ => apply Z.eqb_eq in Hb
    | Hb : (_ =? _) = false |- _ => apply Z.eqb_neq in Hb
    end.

Ltac not_found_leaf :=
  apply triple_ret; cbn [fst snd]; unfold GIT_ENOTFOUND in *; bool_hyps;
  solve [lia | auto].

Section MissingFacts.
Context `{Collaborators}.
Variable repo : git_repository.
Hypothesis Hcontract : absence_is_no_error repo.

Lemma attr_cache__get_nf attr_session source allow_macros :
  never_not_found fst
    (attr_cache__get repo attr_session source allow_macros).
Proof.
  eapply triple_conseq; [apply attr_cache__get_triple |].
  simpl. intros r c (req & _ & (sess & c0 & c' & Hans) & _ & _ & ->). simpl.
  destruct Hcontract as [Hget _].
  specialize (Hget sess (req_source req) (req_allow_macros req) c0).
  rewrite Hans in Hget. exact Hget.
Qed.

Lemma preload_attr_source_nf attr_session source :
  never_not_found id (preload_attr_source repo attr_session source).
Proof.
  unfold preload_attr_source, never_not_found.
  destruct source; [| not_found_leaf].
  eapply triple_bind; [apply attr_cache__get_nf |].
  simpl. intros [error preload] c Hnf. not_found_leaf.
Qed.

Lemma preload_attr_file_nf attr_session base filename :
  never_not_found id (preload_attr_file repo attr_session base filename).
Proof.
  unfold preload_attr_file. destruct filename.
  - apply preload_attr_source_nf.
  - unfold never_not_found. not_found_leaf.
Qed.

Lemma push_attr_source_nf attr_session lst source allow_macros :
  never_not_found fst
    (push_attr_source repo attr_session lst source allow_macros).
Proof.
  unfold push_attr_source, never_not_found.
  eapply triple_bind; [apply attr_cache__get_nf |].
  simpl. intros [error file] c Hnf.
  destruct (error <? 0) eqn:Hneg; [not_found_leaf |].
  destruct file; not_found_leaf.
Qed.

Lemma push_one_attr_loop_nf src : forall info path allow error,
  info_repo info = repo -> error <> GIT_ENOTFOUND ->
  triple (push_one_attr_loop info path allow src error)
    (fun r _ => fst r <> GIT_ENOTFOUND /\ info_repo (snd r) = repo).
Proof.
  induction src as [| src_i src IH]; intros info path allow error Hrepo Hnf;
    cbn [push_one_attr_loop]; [apply triple_ret; auto |].
  destruct (negb (error =? 0)); [apply triple_ret; auto |].
  rewrite Hrepo.
  eapply triple_bind; [apply push_attr_source_nf |].
  simpl. intros [error' files] c Hnf'. eapply triple_conseq; [apply IH |].
  - exact Hrepo.
  - exact Hnf'.
  - auto.
Qed.

Lemma push_one_attr_nf info path :
  info_repo info = repo ->
  triple (push_one_attr info path)
    (fun r _ => fst r <> GIT_ENOTFOUND /\ info_repo (snd r) = repo).
Proof. intros Hrepo. apply push_one_attr_loop_nf; [exact Hrepo | discriminate]. Qed.

Lemma walk_up_loop_nf dirs : forall info,
  info_repo info = repo ->
  never_not_found fst (walk_up_loop dirs push_one_attr info).
Proof.
  unfold never_not_found.
  induction dirs as [| d dirs IH]; intros info Hrepo; cbn [walk_up_loop];
    [not_found_leaf |].
  eapply triple_bind; [apply (push_one_attr_nf info d Hrepo) |].
  simpl. intros [error info1] c [Hnf Hrepo1]. simpl in Hnf, Hrepo1.
  destruct (error =? 0); [| not_found_leaf].
  eapply triple_conseq; [apply (IH info1 Hrepo1) | auto].
Qed.

Lemma attr_cache__init_nf :
  never_not_found id (attr_cache__init repo).
Proof.
  intros s. exists []. unfold attr_cache__init.
  destruct Hcontract as (_ & Hinit & _). specialize (Hinit (cache s)).
  destruct (git_attr_cache__init repo (cache s)). simpl in *.
  rewrite app_nil_r. auto.
Qed.

Lemma attr_setup_nf attr_session flags :
  never_not_found fst (attr_setup repo attr_session flags).
Proof.
  unfold attr_setup, never_not_found.
  destruct (session_init_setup attr_session); [not_found_leaf |].
  eapply triple_bind; [apply attr_cache__init_nf |].
  unfold id. intros e0 c0 Hnf0.
  destruct (e0 <? 0) eqn:H0; [not_found_leaf |].
  destruct (system_attr_file GIT_BUF_INIT attr_session)
    as [[e1 system] sess1].
  apply (triple_bind _ _ (fun _ _ => True)).
  { destruct (e1 <? 0); [apply triple_ret; auto |].
    eapply triple_conseq; [apply preload_attr_file_nf | auto]. }
  intros e2 c2 _. destruct (fatal e2) eqn:H2; [not_found_leaf |].
  eapply triple_bind; [apply preload_attr_file_nf |].
  unfold id. intros e3 c3 Hnf3.
  destruct (e3 <? 0) eqn:H3; [not_found_leaf |].
  destruct (git_repository_item_path repo) as [e4 info].
  apply (triple_bind _ _ (fun _ _ => True)).
  { destruct (e4 <? 0); [apply triple_ret; auto |].
    eapply triple_conseq; [apply preload_attr_file_nf | auto]. }
  intros e5 c5 _. destruct (fatal e5) eqn:H5; [not_found_leaf |].
  apply (triple_bind _ _ (fun r _ => r <> GIT_ENOTFOUND)).
  { destruct (git_repository_workdir repo);
      [apply preload_attr_file_nf |].
    destruct (e5 <? 0) eqn:H5'; not_found_leaf. }
  intros e6 c6 Hnf6. destruct (e6 <? 0) eqn:H6; [not_found_leaf |].
  apply (triple_bind _ _ (fun r _ => r <> GIT_ENOTFOUND)).
  { destruct (fst (git_repository_index__weakptr repo) <? 0);
      [| apply preload_attr_source_nf].
    apply triple_ret. destruct Hcontract as (_ & _ & Hidx & _). apply Hidx. }
  intros e7 c7 Hnf7. destruct (e7 <? 0) eqn:H7; [not_found_leaf |].
  apply (triple_bind _ _ (fun r _ => r <> GIT_ENOTFOUND)).
  { destruct (Z.land flags GIT_ATTR_CHECK_INCLUDE_HEAD =? 0);
      [not_found_leaf | apply preload_attr_source_nf]. }
  intros e8 c8 Hnf8. destruct (e8 <? 0); not_found_leaf.
Qed.

Lemma resolve_dir_nf path :
  fst (resolve_dir repo path) <> GIT_ENOTFOUND.
Proof.
  destruct Hcontract as (_ & _ & _ & Hwp & Hfd & Hdn).
  unfold resolve_dir. destruct (git_repository_workdir repo); [| apply Hdn].
  specialize (Hwp path).
  destruct (git_repository_workdir_path repo path) as [e dir].
  destruct (e =? 0); [apply Hfd | exact Hwp].
Qed.

Lemma collect_attr_files_nf attr_session flags path files :
  never_not_found (fun r => fst (fst r))
    (collect_attr_files repo attr_session flags path files).
Proof.
  unfold collect_attr_files, never_not_found.
  eapply triple_bind; [apply attr_setup_nf |].
  simpl. intros [e0 sess1] c0 Hnf0. simpl in Hnf0.
  destruct (e0 <? 0) eqn:H0; [not_found_leaf |].
  pose proof (resolve_dir_nf path) as Hdir. unfold resolve_dir in Hdir.
  match goal with
  | |- triple (let (_, _) := ?x in _) _ => destruct x as [e1 dir]
  end.
  simpl in Hdir. destruct (e1 <? 0) eqn:H1; [not_found_leaf |].
  destruct (git_repository_item_path repo) as [e2 attrfile].
  apply (triple_bind _ _ (fun _ _ => True)).
  { destruct (e2 <? 0); [apply triple_ret; auto |].
    eapply triple_conseq; [apply push_attr_source_nf | auto]. }
  intros [e3 files1] c3 _. destruct (fatal e3) eqn:H3; [not_found_leaf |].
  apply (triple_bind _ _ (fun r _ => fst r <> GIT_ENOTFOUND)).
  { destruct (String.eqb dir ".").
    - eapply triple_conseq; [apply push_one_attr_nf; reflexivity |].
      simpl. intros r c [Hnf _]. exact Hnf.
    - apply walk_up_loop_nf. reflexivity. }
  intros [e4 info1] c4 Hnf4. simpl in Hnf4.
  destruct (e4 <? 0) eqn:H4; [not_found_leaf |].
  apply (triple_bind _ _ (fun r _ => fst r <> GIT_ENOTFOUND)).
  { destruct (cfg_attr_file repo);
      [apply push_attr_source_nf | not_found_leaf]. }
  intros [e5 files2] c5 Hnf5. simpl in Hnf5.
  destruct (e5 <? 0) eqn:H5; [not_found_leaf |].
  destruct (Z.land flags GIT_ATTR_CHECK_NO_SYSTEM =? 0); [| not_found_leaf].
  destruct (system_attr_file dir sess1) as [[e6 dir'] sess2].
  apply (triple_bind _ _ (fun r _ => fst r <> GIT_ENOTFOUND)).
  { destruct (e6 =? 0) eqn:H6; [apply push_attr_source_nf |].
    destruct (e6 =? GIT_ENOTFOUND) eqn:H6'; not_found_leaf. }
  intros [e7 files3] c7 Hnf7. simpl in Hnf7. not_found_leaf.
Qed.

End MissingFacts.

(** ** Absent sources are no errors *)

Ltac absence_leaf :=
  apply triple_ret; cbn [fst snd]; bool_hyps; unfold GIT_ENOTFOUND in *;
  solve [lia | auto].

Section AbsenceFacts.
Context `{Collaborators}.
Variable repo : git_repository.
Variable path : option string.
Hypothesis Habs : only_absence repo path.

Lemma attr_cache__get_ok attr_session source allow_macros :
  triple (attr_cache__get repo attr_session source allow_macros)
    (fun r _ => fst r = 0).
Proof.
  eapply triple_conseq; [apply attr_cache__get_triple |].
  simpl. intros r c (req & _ & (sess & c0 & c' & Hans) & _ & _ & ->). simpl.
  destruct Habs as (_ & Hget & _).
  specialize (Hget sess (req_source req) (req_allow_macros req) c0).
  rewrite Hans in Hget. exact Hget.
Qed.

Lemma preload_attr_source_ok attr_session source :
  triple (preload_attr_source repo attr_session source) (fun r _ => r = 0).
Proof.
  unfold preload_attr_source.
  destruct source; [| absence_leaf].
  eapply triple_bind; [apply attr_cache__get_ok |].
  simpl. intros [error preload] c Hz. absence_leaf.
Qed.

Lemma preload_attr_file_ok attr_session base filename :
  triple (preload_attr_file repo attr_session base filename)
    (fun r _ => r = 0).
Proof.
  unfold preload_attr_file. destruct filename.
  - apply preload_attr_source_ok.
  - absence_leaf.
Qed.

Lemma push_attr_source_ok attr_session lst source allow_macros :
  triple (push_attr_source repo attr_session lst source allow_macros)
    (fun r _ => fst r = 0).
Proof.
  unfold push_attr_source.
  eapply triple_bind; [apply attr_cache__get_ok |].
  simpl. intros [error file] c Hz. simpl in Hz.
  destruct (error <? 0) eqn:Hneg; [absence_leaf |].
  destruct file; absence_leaf.
Qed.

Lemma push_one_attr_loop_ok src : forall info dir allow,
  info_repo info = repo ->
  triple (push_one_attr_loop info dir allow src 0)
    (fun r _ => fst r = 0 /\ info_repo (snd r) = repo).
Proof.
  induction src as [| src_i src IH]; intros info dir allow Hrepo;
    cbn [push_one_attr_loop]; [apply triple_ret; auto |].
  change (negb (0 =? 0)) with false. cbv iota.
  rewrite Hrepo.
  eapply triple_bind; [apply push_attr_source_ok |].
  simpl. intros [error files] c Hz. simpl in Hz. subst error.
  eapply triple_conseq; [apply IH; exact Hrepo | auto].
Qed.

Lemma push_one_attr_ok info dir :
  info_repo info = repo ->
  triple (push_one_attr info dir)
    (fun r _ => fst r = 0 /\ info_repo (snd r) = repo).
Proof. apply push_one_attr_loop_ok. Qed.

Lemma walk_up_loop_ok dirs : forall info,
  info_repo info = repo ->
  triple (walk_up_loop dirs push_one_attr info) (fun r _ => fst r = 0).
Proof.
  induction dirs as [| d dirs IH]; intros info Hrepo; cbn [walk_up_loop];
    [absence_leaf |].
  eapply triple_bind; [apply (push_one_attr_ok info d Hrepo) |].
  simpl. intros [error info1] c [Hz Hrepo1]. simpl in Hz, Hrepo1.
  destruct (error =? 0) eqn:He; [| absence_leaf].
  eapply triple_conseq; [apply (IH info1 Hrepo1) | auto].
Qed.

Lemma attr_cache__init_ok :
  triple (attr_cache__init repo) (fun r _ => 0 <= r).
Proof.
  intros s. exists []. unfold attr_cache__init.
  destruct Habs as (Hinit & _). specialize (Hinit (cache s)).
  destruct (git_attr_cache__init repo (cache s)). simpl in *.
  rewrite app_nil_r. auto.
Qed.

(** The lookup of the system file finds it or reports NOT_FOUND. *)
Lemma system_attr_file_codes out attr_session :
  fst (fst (system_attr_file out attr_session)) = 0 \/
  fst (fst (system_attr_file out attr_session)) = GIT_ENOTFOUND.
Proof.
  destruct Habs as (_ & _ & _ & _ & _ & Hsys).
  unfold system_attr_file.
  destruct (git_sysdir_find_system_file GIT_ATTR_FILE_SYSTEM) as [e buf].
  cbn [fst] in Hsys.
  destruct attr_session as [sess |]; [| exact Hsys].
  destruct (init_sysdir sess).
  - destruct (String.length (sysdir sess) =? 0)%nat; auto.
  - destruct (negb (e =? GIT_ENOTFOUND) && negb (e =? 0)) eqn:Hhard.
    + exact Hsys.
    + cbn [sysdir]. destruct (String.length buf =? 0)%nat; auto.
Qed.

Lemma attr_setup_ok attr_session flags :
  triple (attr_setup repo attr_session flags) (fun r _ => 0 <= fst r).
Proof.
  unfold attr_setup.
  destruct (session_init_setup attr_session); [absence_leaf |].
  eapply triple_bind; [apply attr_cache__init_ok |].
  cbn beta. intros e0 c0 Hok0.
  destruct (e0 <? 0) eqn:H0; [absence_leaf |].
  pose proof (system_attr_file_codes GIT_BUF_INIT attr_session) as Hsys.
  destruct (system_attr_file GIT_BUF_INIT attr_session)
    as [[e1 system] sess1]. cbn [fst] in Hsys.
  apply (triple_bind _ _ (fun r _ => r = 0 \/ r = GIT_ENOTFOUND)).
  { destruct (e1 <? 0); [apply triple_ret; exact Hsys |].
    eapply triple_conseq; [apply preload_attr_file_ok | simpl; auto]. }
  intros e2 c2 Hc2. destruct (fatal e2) eqn:H2; [absence_leaf |].
  eapply triple_bind; [apply preload_attr_file_ok |].
  cbn beta. intros e3 c3 Hz3.
  destruct (e3 <? 0) eqn:H3; [absence_leaf |].
  destruct Habs as (_ & _ & Hidx & _ & Hitem & _).
  destruct (git_repository_item_path repo) as [e4 info]. cbn [fst] in Hitem.
  apply (triple_bind _ _ (fun r _ => r = 0 \/ r = GIT_ENOTFOUND)).
  { destruct (e4 <? 0); [apply triple_ret; exact Hitem |].
    eapply triple_conseq; [apply preload_attr_file_ok | simpl; auto]. }
  intros e5 c5 Hc5. destruct (fatal e5) eqn:H5; [absence_leaf |].
  apply (triple_bind _ _ (fun r _ => r = 0)).
  { destruct (git_repository_workdir repo);
      [apply preload_attr_file_ok |].
    destruct (e5 <? 0) eqn:H5'; absence_leaf. }
  intros e6 c6 Hz6. destruct (e6 <? 0) eqn:H6; [absence_leaf |].
  apply (triple_bind _ _ (fun r _ => r = 0)).
  { destruct (fst (git_repository_index__weakptr repo) <? 0) eqn:Hi;
      [absence_leaf | apply preload_attr_source_ok]. }
  intros e7 c7 Hz7. destruct (e7 <? 0) eqn:H7; [absence_leaf |].
  apply (triple_bind _ _ (fun r _ => r = 0)).
  { destruct (Z.land flags GIT_ATTR_CHECK_INCLUDE_HEAD =? 0);
      [absence_leaf | apply preload_attr_source_ok]. }
  intros e8 c8 Hz8. destruct (e8 <? 0); absence_leaf.
Qed.

(** With nothing failing but by absence the collection returns 0. *)
Lemma collect_attr_files_ok attr_session flags files :
  triple (collect_attr_files repo attr_session flags path files)
    (fun r _ => fst (fst r) = 0).
Proof.
  unfold collect_attr_files.
  eapply triple_bind; [apply attr_setup_ok |].
  simpl. intros [e0 sess1] c0 Hok0. simpl in Hok0.
  destruct (e0 <? 0) eqn:H0; [absence_leaf |].
  pose proof Habs as (_ & _ & _ & Hdir & Hitem & _).
  unfold resolve_dir in Hdir.
  match goal with
  | |- triple (let (_, _) := ?x in _) _ => destruct x as [e1 dir]
  end.
  cbn [fst] in Hdir. destruct (e1 <? 0) eqn:H1; [absence_leaf |].
  destruct (git_repository_item_path repo) as [e2 attrfile].
  cbn [fst] in Hitem.
  apply (triple_bind _ _ (fun r _ => fst r = 0 \/ fst r = GIT_ENOTFOUND)).
  { destruct (e2 <? 0); [apply triple_ret; exact Hitem |].
    eapply triple_conseq; [apply push_attr_source_ok | simpl; auto]. }
  intros [e3 files1] c3 Hc3. simpl in Hc3.
  destruct (fatal e3) eqn:H3; [absence_leaf |].
  apply (triple_bind _ _ (fun r _ => fst r = 0)).
  { destruct (String.eqb dir ".").
    - eapply triple_conseq; [apply push_one_attr_ok; reflexivity |].
      simpl. intros r c [Hz _]. exact Hz.
    - apply walk_up_loop_ok. reflexivity. }
  intros [e4 info1] c4 Hz4. simpl in Hz4.
  destruct (e4 <? 0) eqn:H4; [absence_leaf |].
  apply (triple_bind _ _ (fun r _ => fst r = 0)).
  { destruct (cfg_attr_file repo);
      [apply push_attr_source_ok | absence_leaf]. }
  intros [e5 files2] c5 Hz5. simpl in Hz5.
  destruct (e5 <? 0) eqn:H5; [absence_leaf |].
  destruct (Z.land flags GIT_ATTR_CHECK_NO_SYSTEM =? 0); [| absence_leaf].
  pose proof (system_attr_file_codes dir sess1) as Hsys.
  destruct (system_attr_file dir sess1) as [[e6 dir'] sess2].
  cbn [fst] in Hsys.
  apply (triple_bind _ _ (fun r _ => fst r = 0)).
  { destruct (e6 =? 0) eqn:H6; [apply push_attr_source_ok |].
    destruct (e6 =? GIT_ENOTFOUND) eqn:H6'; absence_leaf. }
  intros [e7 files3] c7 Hz7. simpl in Hz7. absence_leaf.
Qed.

Lemma only_absence_codes : cache_codes repo.
Proof.
  destruct Habs as (_ & Hget & _). intros sess source allow c.
  rewrite Hget. lia.
Qed.

(** The vector built from answers without error holds the files of
    the answers: nothing for an answer without a file. *)
Lemma contribution_files calls :
  Forall (answered repo) calls ->
  flat_map contribution calls = omap req_file calls.
Proof.
  destruct Habs as (_ & Hget & _).
  induction 1 as [| req calls (sess & c & c' & Hans) _ IH];
    [reflexivity |].
  simpl. rewrite IH. unfold contribution.
  specialize (Hget sess (req_source req) (req_allow_macros req) c).
  rewrite Hans in Hget. simpl in Hget. rewrite Hget. simpl.
  destruct (req_file req); reflexivity.
Qed.

End AbsenceFacts.

Section MissingTheorem.
Context `{Collaborators}.

(** C9: a source that does not exist is not an error, adds no file
    and does not end the walk.  The collaborators keeping their
    contracts about NOT_FOUND, the collection never returns
    NOT_FOUND.  And when nothing fails but by absence -- the cache
    answers each request with a file or with "no file" for a source
    that does not exist, the info directory and the system file are
    found or reported as NOT_FOUND -- the collection returns 0, has
    asked for every source of every level in order, whichever of
    them were absent, and hands out exactly the files of the answers
    that had one. *)
Theorem collect_absorbs_missing_sources (repo : git_repository)
    (attr_session : option git_attr_session) (flags : Z)
    (path : option string) (s : state) :
  absence_is_no_error repo ->
  fst (fst (fst (collect_attr_files repo attr_session flags path [] s)))
    <> GIT_ENOTFOUND /\
  (only_absence repo path ->
   fst (fst (fst (collect_attr_files repo attr_session flags path [] s)))
     = 0 /\
   exists calls,
     requests (snd (collect_attr_files repo attr_session flags path [] s))
       = requests (snd (attr_setup repo attr_session flags s)) ++ calls /\
     Forall (answered repo) calls /\
     map req_source calls =
       collector_sources repo
         (snd (fst (attr_setup repo attr_session flags s))) flags path /\
     snd (fst (fst (collect_attr_files repo attr_session flags path [] s)))
       = omap req_file calls).
Proof.
  intros Hcontract. split.
  - destruct (collect_attr_files_nf repo Hcontract attr_session flags path
                [] s) as (calls & _ & Hnf).
    exact Hnf.
  - intros Habs.
    destruct (collect_attr_files_ok repo path Habs attr_session flags [] s)
      as (calls0 & _ & Hzero).
    split; [exact Hzero |].
    destruct (collect_attr_files_run repo attr_session flags path s
                (only_absence_codes repo path Habs))
      as (calls & Hr & Hans & Hsrc & Hfiles); [lia |].
    exists calls. split; [exact Hr |]. split; [exact Hans |].
    split; [exact Hsrc |].
    rewrite Hfiles. apply (contribution_files repo path Habs). exact Hans.
Qed.

End MissingTheorem.

Module ScenarioCollect.
Import Scenario.

Lemma world_cache_codes : @cache_codes world work_repo.
Proof. intros sess source allow c. simpl. lia. Defined.

Lemma lean_contract : @absence_is_no_error lean_world work_repo.
Proof.
  unfold absence_is_no_error, GIT_ENOTFOUND. simpl.
  repeat split; intros; lia.
Defined.

Lemma lean_only_absence :
  @only_absence lean_world work_repo (Some "src/x.bin"%string).
Proof.
  unfold only_absence, GIT_ENOTFOUND. simpl.
  repeat split; intros; try lia. right. reflexivity. right. reflexivity.
Defined.

(** C2 at work: the sources asked for src/x.bin, highest precedence
    first, the system file last. *)
Lemma collect_attr_files_precedence_witness :
  exists calls,
    requests (snd (@collect_attr_files world work_repo None 0
                     (Some "src/x.bin"%string) [] s0))
      = requests (snd (@attr_setup world work_repo None 0 s0)) ++ calls /\
    Forall (@answered world work_repo) calls /\
    map req_source calls =
      [source GIT_ATTR_FILE_SOURCE_FILE (Some "/repo/.git/info/"%string)
         GIT_ATTR_FILE_INREPO;
       source GIT_ATTR_FILE_SOURCE_FILE (Some "/repo/src/"%string)
         GIT_ATTR_FILE;
       source GIT_ATTR_FILE_SOURCE_INDEX (Some "/repo/src/"%string)
         GIT_ATTR_FILE;
       source GIT_ATTR_FILE_SOURCE_FILE (Some "/repo/"%string) GIT_ATTR_FILE;
       source GIT_ATTR_FILE_SOURCE_INDEX (Some "/repo/"%string) GIT_ATTR_FILE;
       source GIT_ATTR_FILE_SOURCE_FILE None "/etc/gitattributes"] /\
    snd (fst (fst (@collect_attr_files world work_repo None 0
                     (Some "src/x.bin"%string) [] s0)))
      = flat_map contribution calls.
Proof.
  destruct (@collect_attr_files_precedence world work_repo None 0
              (Some "src/x.bin"%string) s0 world_cache_codes)
    as (calls & Hr & Hans & Hsrc & Hfiles).
  { vm_compute. discriminate. }
  exists calls. split; [exact Hr |]. split; [exact Hans |].
  split; [exact Hsrc | exact Hfiles].
Defined.

(** C2, as stated, fails: NO_SYSTEM is not set, and yet the system
    file is left out.  On a machine without a system attribute file
    the collection succeeds, no request of the whole call -- the two
    preloads of the setup, then the walk -- is for a system file, and
    the vector ends with the files of the work-tree root. *)
Lemma system_file_left_out_without_flag :
  Z.land 0 GIT_ATTR_CHECK_NO_SYSTEM = 0 /\
  fst (fst (fst (@collect_attr_files lean_world work_repo None 0
                   (Some "src/x.bin"%string) [] lean_s0))) = 0 /\
  map req_source
    (requests (snd (@collect_attr_files lean_world work_repo None 0
                      (Some "src/x.bin"%string) [] lean_s0)))
  = [source GIT_ATTR_FILE_SOURCE_FILE (Some "/repo/"%string) GIT_ATTR_FILE;
     source GIT_ATTR_FILE_SOURCE_INDEX None GIT_ATTR_FILE;
     source GIT_ATTR_FILE_SOURCE_FILE (Some "/repo/src/"%string) GIT_ATTR_FILE;
     source GIT_ATTR_FILE_SOURCE_INDEX (Some "/repo/src/"%string)
       GIT_ATTR_FILE;
     source GIT_ATTR_FILE_SOURCE_FILE (Some "/repo/"%string) GIT_ATTR_FILE;
     source GIT_ATTR_FILE_SOURCE_INDEX (Some "/repo/"%string) GIT_ATTR_FILE] /\
  map file_source
    (snd (fst (fst (@collect_attr_files lean_world work_repo None 0
                      (Some "src/x.bin"%string) [] lean_s0))))
  = [source GIT_ATTR_FILE_SOURCE_FILE (Some "/repo/src/"%string) GIT_ATTR_FILE;
     source GIT_ATTR_FILE_SOURCE_FILE (Some "/repo/"%string) GIT_ATTR_FILE;
     source GIT_ATTR_FILE_SOURCE_INDEX (Some "/repo/"%string) GIT_ATTR_FILE].
Proof. repeat split. Qed.

(** C9 at work: the repository has no info directory, the machine no
    system attribute file, and src/ no attribute file in the index;
    the collection returns 0 with the three files that exist. *)
Lemma collect_absorbs_missing_sources_witness :
  fst (fst (fst (@collect_attr_files lean_world work_repo None 0
                   (Some "src/x.bin"%string) [] lean_s0))) = 0 /\
  length (snd (fst (fst (@collect_attr_files lean_world work_repo None 0
                           (Some "src/x.bin"%string) [] lean_s0)))) = 3%nat.
Proof.
  split; [| reflexivity].
  exact (proj1
    (proj2 (@collect_absorbs_missing_sources lean_world work_repo None 0
              (Some "src/x.bin"%string) lean_s0 lean_contract)
       lean_only_absence)).
Defined.

(** C1 at work: [diff] of src/main.c is the string the [*.c] rule of
    /repo/src/.gitattributes assigns; no rule matching it carries
    [binary]. *)
Lemma git_attr_get_first_match_witness :
  snd (fst (@git_attr_get world (Some (str "junk")) (Some work_repo) 0
              (Some "src/main.c"%string) (Some "diff"%string) s0))
    = Some (str "cpp") /\
  snd (fst (@git_attr_get world (Some (str "junk")) (Some work_repo) 0
              (Some "src/main.c"%string) (Some "binary"%string) s0))
    = Some NULL.
Proof.
  split.
  - refine (eq_trans
      (proj1 (@git_attr_get_first_match world (str "junk") work_repo 0
                (Some "src/main.c"%string) "diff" s0 "src/main.c"%string
                _ _) _) _);
      [reflexivity | vm_compute; discriminate | reflexivity | reflexivity].
  - refine (proj1
      (proj2 (@git_attr_get_first_match world (str "junk") work_repo 0
                (Some "src/main.c"%string) "binary" s0 "src/main.c"%string
                _ _) _));
      [reflexivity | vm_compute; discriminate |].
    vm_compute. intros rule a Hrule Ha Hname.
    repeat (destruct Hrule as [<- | Hrule];
            [repeat (destruct Ha as [<- | Ha]; [discriminate |]);
             destruct Ha |]).
    destruct Hrule.
Defined.

End ScenarioCollect.

(** * Further properties *)

(** ** The sources of a directory *)

Ltac decide_cases :=
  unfold attr_decide_sources;
  repeat match goal with
    | |- context [if ?c then _ else _] => destruct c eqn:?
    end;
  bool_hyps;
  unfold GIT_ATTR_CHECK_INDEX_ONLY, GIT_ATTR_CHECK_FILE_THEN_INDEX,
    GIT_ATTR_CHECK_INDEX_THEN_FILE in *;
  simpl.

Lemma attr_decide_sources_file (flags : Z) (has_wd has_index : bool) :
  In GIT_ATTR_FILE_SOURCE_FILE (attr_decide_sources flags has_wd has_index) ->
  has_wd = true /\ Z.land flags 3 <> GIT_ATTR_CHECK_INDEX_ONLY.
Proof. decide_cases; intuition (try discriminate; try lia). Qed.

Lemma attr_decide_sources_commit (flags : Z) (has_wd has_index : bool) :
  In GIT_ATTR_FILE_SOURCE_COMMIT
    (attr_decide_sources flags has_wd has_index) <->
  Z.land flags GIT_ATTR_CHECK_INCLUDE_HEAD <> 0.
Proof. decide_cases; intuition (try discriminate; try lia). Qed.

(** X1: [attr_decide_sources] fills at most three entries of [srcs],
    names no backend twice and never the in-memory one; the commit
    backend is among them exactly when INCLUDE_HEAD is set, the
    working-tree file only with a work directory and the index blob
    only with an index. *)
Theorem attr_decide_sources_bounds (flags : Z) (has_wd has_index : bool) :
  (length (attr_decide_sources flags has_wd has_index) <= 3)%nat /\
  NoDup (attr_decide_sources flags has_wd has_index) /\
  ~ In GIT_ATTR_FILE_SOURCE_MEMORY
      (attr_decide_sources flags has_wd has_index) /\
  (In GIT_ATTR_FILE_SOURCE_COMMIT
     (attr_decide_sources flags has_wd has_index) <->
   Z.land flags GIT_ATTR_CHECK_INCLUDE_HEAD <> 0) /\
  (In GIT_ATTR_FILE_SOURCE_FILE
     (attr_decide_sources flags has_wd has_index) -> has_wd = true) /\
  (In GIT_ATTR_FILE_SOURCE_INDEX
     (attr_decide_sources flags has_wd has_index) -> has_index = true).
Proof.
  split; [| split; [| split; [| split; [| split]]]].
  - decide_cases; lia.
  - decide_cases;
      repeat (apply NoDup_cons; split;
              [rewrite ?elem_of_cons, ?elem_of_nil; intuition discriminate |]);
      apply NoDup_nil; exact I.
  - decide_cases; intuition discriminate.
  - apply attr_decide_sources_commit.
  - intros Hin. apply (attr_decide_sources_file flags has_wd has_index Hin).
  - decide_cases; intuition discriminate.
Qed.

(** ** The system file and the session *)

Section SessionFacts.
Context `{Collaborators}.

Lemma length_zero_empty (b : string) :
  (String.length b =? 0)%nat = true <-> b = ""%string.
Proof.
  destruct b; simpl; split; intros Hb; try reflexivity; discriminate.
Qed.

(** The tail of [system_attr_file] once [init_sysdir] is set. *)
Lemma system_attr_file_init out sess :
  init_sysdir sess = true ->
  system_attr_file out (Some sess) =
    if (String.length (sysdir sess) =? 0)%nat
    then (GIT_ENOTFOUND, out, Some sess)
    else (0, sysdir sess, Some sess).
Proof. intros Hinit. unfold system_attr_file. rewrite Hinit. reflexivity. Qed.

Lemma system_attr_file_cases out sess :
  (exists s1,
     init_sysdir s1 = true /\ init_setup s1 = init_setup sess /\
     (init_sysdir sess = true -> s1 = sess) /\
     system_attr_file out (Some sess) =
       if (String.length (sysdir s1) =? 0)%nat
       then (GIT_ENOTFOUND, out, Some s1)
       else (0, sysdir s1, Some s1)) \/
  (fst (fst (system_attr_file out (Some sess))) <> 0 /\
   fst (fst (system_attr_file out (Some sess))) <> GIT_ENOTFOUND).
Proof.
  unfold system_attr_file.
  destruct (init_sysdir sess) eqn:Hinit.
  - left. exists sess. auto.
  - destruct (git_sysdir_find_system_file GIT_ATTR_FILE_SYSTEM)
      as [e buf].
    destruct (negb (e =? GIT_ENOTFOUND) && negb (e =? 0)) eqn:Hhard.
    + right. simpl. apply andb_true_iff in Hhard as [Hnf Hz].
      apply negb_true_iff in Hnf, Hz.
      apply Z.eqb_neq in Hnf, Hz. auto.
    + left. eexists {| init_setup := init_setup sess; init_sysdir := true;
                       sysdir := buf |}.
      split; [reflexivity |]. split; [reflexivity |].
      split; [discriminate | reflexivity].
Qed.

(** X2: with a session the system file is looked up once.  A call of
    [system_attr_file] that returns 0 or NOT_FOUND leaves the session
    with [init_sysdir] set.  A session that came with [init_sysdir]
    set is left exactly as it is -- the path it remembers is not
    looked up again and not overwritten, whatever the system
    directory would report -- and the answer is read off the session:
    NOT_FOUND with the buffer untouched when the remembered path is
    empty, else 0 with the remembered path.  Any later call with the
    session answers the same from the session. *)
Theorem system_attr_file_cached (out out' : git_buf)
    (sess : git_attr_session) :
  let r := system_attr_file out (Some sess) in
  let error := fst (fst r) in
  error = 0 \/ error = GIT_ENOTFOUND ->
  exists sess1,
    snd r = Some sess1 /\ init_sysdir sess1 = true /\
    init_setup sess1 = init_setup sess /\
    (init_sysdir sess = true -> sess1 = sess) /\
    (error = 0 ->
     snd (fst r) = sysdir sess1 /\ sysdir sess1 <> ""%string) /\
    (error = GIT_ENOTFOUND ->
     snd (fst r) = out /\ sysdir sess1 = ""%string) /\
    system_attr_file out' (Some sess1) =
      (error, if error =? 0 then sysdir sess1 else out', Some sess1).
Proof.
  intros r error Herr. subst r error.
  destruct (system_attr_file_cases out sess)
    as [(s1 & Hinit & Hsetup & Hsame & Heq) | [Hnz Hnf]];
    [| destruct Herr; contradiction].
  rewrite Heq. exists s1.
  rewrite (system_attr_file_init out' s1 Hinit).
  destruct (String.length (sysdir s1) =? 0)%nat eqn:Hlen; cbn [fst snd].
  - split; [reflexivity |]. split; [exact Hinit |].
    split; [exact Hsetup |]. split; [exact Hsame |].
    split; [discriminate |].
    split; [| reflexivity].
    intros _. split; [reflexivity |]. apply length_zero_empty. exact Hlen.
  - split; [reflexivity |]. split; [exact Hinit |].
    split; [exact Hsetup |]. split; [exact Hsame |].
    split; [| split; [discriminate | reflexivity]].
    intros _. split; [reflexivity |]. intros Hempty.
    apply length_zero_empty in Hempty. congruence.
Qed.

End SessionFacts.

Module ScenarioSession.
Import Scenario.

(** X2 at work: the session remembers /opt/gitattributes, not the
    /etc/gitattributes the system directory would report; the call
    returns the remembered path and leaves the session as it is. *)
Lemma system_attr_file_cached_witness :
  @system_attr_file world "other"%string
    (Some {| init_setup := false; init_sysdir := true;
             sysdir := "/opt/gitattributes"%string |})
  = (0, "/opt/gitattributes"%string,
     Some {| init_setup := false; init_sysdir := true;
             sysdir := "/opt/gitattributes"%string |}).
Proof.
  destruct (@system_attr_file_cached world "other"%string "other"%string
              {| init_setup := false; init_sysdir := true;
                 sysdir := "/opt/gitattributes"%string |}
              (or_introl eq_refl))
    as (sess1 & _ & _ & _ & Hsame & _ & _ & Hagain).
  rewrite (Hsame eq_refl) in Hagain. exact Hagain.
Defined.

End ScenarioSession.

(** ** The setup and the session *)

Ltac vacuous_leaf :=
  apply triple_ret; cbn [fst snd]; intros; bool_hyps;
  unfold GIT_ENOTFOUND in *; solve [lia | auto].

Section SetupFacts.
Context `{Collaborators}.

Lemma system_attr_file_session out attr_session :
  session_init_setup (snd (system_attr_file out attr_session))
    = session_init_setup attr_session /\
  is_Some_b (snd (system_attr_file out attr_session))
    = is_Some_b attr_session.
Proof.
  unfold system_attr_file. destruct attr_session as [sess |].
  - destruct (init_sysdir sess).
    + destruct (String.length (sysdir sess) =? 0)%nat; auto.
    + destruct (git_sysdir_find_system_file GIT_ATTR_FILE_SYSTEM)
        as [e buf].
      destruct (negb (e =? GIT_ENOTFOUND) && negb (e =? 0)); simpl; auto.
      destruct (String.length buf =? 0)%nat; auto.
  - destruct (git_sysdir_find_system_file GIT_ATTR_FILE_SYSTEM); auto.
Qed.

Lemma set_init_setup_done attr_session :
  is_Some_b attr_session = true ->
  session_init_setup (set_init_setup attr_session) = true.
Proof. destruct attr_session; [reflexivity | discriminate]. Qed.

Lemma logs_any {A : Type} (T : cache_request -> Prop) (m : M A) :
  logs T m -> triple m (fun _ _ => True).
Proof. intros Hm. eapply triple_conseq; [exact Hm | auto]. Qed.

(** A setup that does not fail leaves a session marked. *)
Lemma attr_setup_marks repo attr_session flags :
  triple (attr_setup repo attr_session flags)
    (fun r _ =>
       0 <= fst r -> is_Some_b attr_session = true ->
       session_init_setup (snd r) = true).
Proof.
  unfold attr_setup.
  destruct (session_init_setup attr_session) eqn:Hdone; [vacuous_leaf |].
  apply (triple_bind _ _ (fun _ _ => True)).
  { eapply triple_conseq; [apply attr_cache__init_triple | auto]. }
  intros e0 c0 _. destruct (e0 <? 0) eqn:H0; [vacuous_leaf |].
  destruct (system_attr_file_session GIT_BUF_INIT attr_session)
    as [_ Hsome].
  destruct (system_attr_file GIT_BUF_INIT attr_session)
    as [[e1 system] sess1]. simpl in Hsome.
  apply (triple_bind _ _ (fun _ _ => True)).
  { apply (logs_any (trust_ok (git_repository_workdir repo))).
    destruct (e1 <? 0); [apply logs_ret |].
    apply preload_attr_file_logs, nested_source_global. }
  intros e2 c2 _. destruct (fatal e2) eqn:H2; [vacuous_leaf |].
  apply (triple_bind _ _ (fun _ _ => True)).
  { apply (logs_any (trust_ok (git_repository_workdir repo))).
    apply preload_attr_file_logs, nested_source_global. }
  intros e3 c3 _. destruct (e3 <? 0) eqn:H3; [vacuous_leaf |].
  destruct (git_repository_item_path repo) as [e4 info].
  apply (triple_bind _ _ (fun _ _ => True)).
  { apply (logs_any (trust_ok (git_repository_workdir repo))).
    destruct (e4 <? 0); [apply logs_ret |].
    apply preload_attr_file_logs, nested_source_info. }
  intros e5 c5 _. destruct (fatal e5) eqn:H5; [vacuous_leaf |].
  apply (triple_bind _ _ (fun _ _ => True)).
  { apply (logs_any (trust_ok (git_repository_workdir repo))).
    destruct (git_repository_workdir repo) as [w |]; [| apply logs_ret].
    apply preload_attr_file_logs, nested_source_root. }
  intros e6 c6 _. destruct (e6 <? 0) eqn:H6; [vacuous_leaf |].
  apply (triple_bind _ _ (fun _ _ => True)).
  { apply (logs_any (trust_ok (git_repository_workdir repo))).
    destruct (fst (git_repository_index__weakptr repo) <? 0);
      [apply logs_ret |].
    apply preload_attr_source_logs, nested_source_global. }
  intros e7 c7 _. destruct (e7 <? 0) eqn:H7; [vacuous_leaf |].
  apply (triple_bind _ _ (fun _ _ => True)).
  { apply (logs_any (trust_ok (git_repository_workdir repo))).
    destruct (Z.land flags GIT_ATTR_CHECK_INCLUDE_HEAD =? 0);
      [apply logs_ret |].
    apply preload_attr_source_logs, nested_source_global. }
  intros e8 c8 _. destruct (e8 <? 0) eqn:H8; [vacuous_leaf |].
  apply triple_ret. cbn [fst snd]. intros _ Hs.
  apply set_init_setup_done. congruence.
Qed.

Lemma attr_setup_skip repo attr_session flags s :
  session_init_setup attr_session = true ->
  attr_setup repo attr_session flags s = ((0, attr_session), s).
Proof. intros Hdone. unfold attr_setup. rewrite Hdone. reflexivity. Qed.

(** X3: the setup runs once per session.  After an [attr_setup] with
    a session that did not fail, a further [attr_setup] with the
    session it left -- whatever the flags -- returns 0 at once: no
    cache initialisation, no request, the session and the state as
    they are. *)
Theorem attr_setup_once (repo : git_repository) (sess : git_attr_session)
    (flags flags' : Z) (s s' : state) :
  0 <= fst (fst (attr_setup repo (Some sess) flags s)) ->
  attr_setup repo (snd (fst (attr_setup repo (Some sess) flags s))) flags' s'
    = ((0, snd (fst (attr_setup repo (Some sess) flags s))), s').
Proof.
  intros Hok. apply attr_setup_skip.
  destruct (attr_setup_marks repo (Some sess) flags s) as (c & _ & Hmark).
  apply Hmark; [exact Hok | reflexivity].
Qed.

End SetupFacts.

(** ** What a collection leaves behind *)

Ltac outcome_leaf :=
  apply triple_ret; cbn [fst snd]; unfold collect_cleanup, release_attr_files;
  split;
  [ intros; bool_hyps; unfold GIT_ENOTFOUND in *; solve [lia | auto]
  | intros;
    repeat match goal with
      | |- context [?e <? 0] => destruct (e <? 0) eqn:?
      end;
    bool_hyps; unfold GIT_ENOTFOUND in *; solve [reflexivity | lia | auto] ].

Section CollectOutcome.
Context `{Collaborators}.

Lemma collect_attr_files_outcome repo attr_session flags path files :
  triple (collect_attr_files repo attr_session flags path files)
    (fun r _ =>
       (0 <= fst (fst r) -> is_Some_b attr_session = true ->
        session_init_setup (snd r) = true) /\
       (fst (fst r) < 0 -> files = [] -> snd (fst r) = [])).
Proof.
  unfold collect_attr_files.
  eapply triple_bind; [apply attr_setup_marks |].
  cbn beta. intros [e0 sess1] c0 Hmark. cbn [fst snd] in Hmark.
  destruct (e0 <? 0) eqn:H0; [outcome_leaf |].
  assert (Hs1 : is_Some_b attr_session = true ->
                session_init_setup sess1 = true).
  { apply Hmark. apply Z.ltb_ge. exact H0. }
  clear Hmark.
  match goal with
  | |- triple (let (_, _) := ?x in _) _ => destruct x as [e1 dir]
  end.
  destruct (e1 <? 0) eqn:H1; [outcome_leaf |].
  destruct (git_repository_item_path repo) as [e2 attrfile].
  apply (triple_bind _ _ (fun _ _ => True)).
  { apply (logs_any (trust_ok (git_repository_workdir repo))).
    destruct (e2 <? 0); [apply logs_ret |].
    apply push_attr_file_logs, nested_source_info. }
  intros [e3 files1] c3 _. destruct (fatal e3) eqn:H3; [outcome_leaf |].
  apply (triple_bind _ _ (fun _ _ => True)).
  { apply (logs_any (trust_ok (git_repository_workdir repo))).
    destruct (String.eqb dir "."); [apply push_one_attr_logs; reflexivity |].
    apply walk_up_loop_logs. reflexivity. }
  intros [e4 info1] c4 _. destruct (e4 <? 0) eqn:H4; [outcome_leaf |].
  apply (triple_bind _ _ (fun _ _ => True)).
  { apply (logs_any (trust_ok (git_repository_workdir repo))).
    destruct (cfg_attr_file repo); [| apply logs_ret].
    apply push_attr_file_logs, nested_source_global. }
  intros [e5 files2] c5 _. destruct (e5 <? 0) eqn:H5; [outcome_leaf |].
  destruct (Z.land flags GIT_ATTR_CHECK_NO_SYSTEM =? 0); [| outcome_leaf].
  destruct (system_attr_file_session dir sess1) as [Hsetup _].
  destruct (system_attr_file dir sess1) as [[e6 dir'] sess2].
  cbn [snd] in Hsetup.
  apply (triple_bind _ _ (fun _ _ => True)).
  { apply (logs_any (trust_ok (git_repository_workdir repo))).
    destruct (e6 =? 0);
      [apply push_attr_file_logs, nested_source_global |].
    destruct (e6 =? GIT_ENOTFOUND); apply logs_ret. }
  intros [e7 files3] c7 _. rewrite <- Hsetup in Hs1. outcome_leaf.
Qed.

(** X4: a collection with a session that does not fail leaves the
    session set up: an [attr_setup] with the session it returns --
    the first step of the next collection -- returns 0 at once,
    without a request and without touching the state. *)
Theorem collect_attr_files_session_ready (repo : git_repository)
    (sess : git_attr_session) (flags flags' : Z) (path : option string)
    (files : list git_attr_file) (s s' : state) :
  0 <= fst (fst (fst (collect_attr_files repo (Some sess) flags path
                        files s))) ->
  attr_setup repo
    (snd (fst (collect_attr_files repo (Some sess) flags path files s)))
    flags' s'
  = ((0, snd (fst (collect_attr_files repo (Some sess) flags path files s))),
     s').
Proof.
  intros Hok. apply attr_setup_skip.
  destruct (collect_attr_files_outcome repo (Some sess) flags path files s)
    as (c & _ & Hmark & _).
  apply Hmark; [exact Hok | reflexivity].
Qed.

(** X5: a collection that fails hands out no files.  Started on the
    empty vector, as the three queries start it, [collect_attr_files]
    returns the empty vector whenever it returns a negative error:
    what was collected before the failure is released. *)
Theorem collect_attr_files_failure_empty (repo : git_repository)
    (attr_session : option git_attr_session) (flags : Z)
    (path : option string) (s : state) :
  fst (fst (fst (collect_attr_files repo attr_session flags path [] s))) < 0 ->
  snd (fst (fst (collect_attr_files repo attr_session flags path [] s))) = [].
Proof.
  intros Hfail.
  destruct (collect_attr_files_outcome repo attr_session flags path [] s)
    as (c & _ & _ & Hempty).
  apply Hempty; [exact Hfail | reflexivity].
Qed.

End CollectOutcome.

(** ** Which sources a collection asks for *)

Section ShapeLogs.
Context `{Collaborators}.
Variable T : cache_request -> Prop.

Lemma attr_cache__get_shape repo attr_session source allow_macros :
  (forall req, req_source req = source ->
               req_allow_macros req = allow_macros -> T req) ->
  logs T (attr_cache__get repo attr_session source allow_macros).
Proof.
  intros HT. eapply triple_conseq; [apply attr_cache__get_triple |].
  simpl. intros r calls (req & -> & _ & Hs & Ha & _).
  constructor; [auto | constructor].
Qed.

Lemma preload_attr_source_shape repo attr_session source :
  (forall req, req_source req = source ->
               req_allow_macros req = true -> T req) ->
  logs T (preload_attr_source repo attr_session (Some source)).
Proof.
  intros HT. simpl.
  apply logs_bind; [apply attr_cache__get_shape; exact HT |].
  intros [error preload]. apply logs_ret.
Qed.

Lemma preload_attr_file_shape repo attr_session base filename :
  (forall req, req_source req = named_file base filename ->
               req_allow_macros req = true -> T req) ->
  logs T (preload_attr_file repo attr_session base filename).
Proof.
  intros HT. unfold preload_attr_file.
  destruct filename; [| apply logs_ret].
  apply preload_attr_source_shape. exact HT.
Qed.

Lemma push_attr_source_shape repo attr_session lst source allow_macros :
  (forall req, req_source req = source ->
               req_allow_macros req = allow_macros -> T req) ->
  logs T (push_attr_source repo attr_session lst source allow_macros).
Proof.
  intros HT. unfold push_attr_source.
  apply logs_bind; [apply attr_cache__get_shape; exact HT |].
  intros [error file].
  destruct (error <? 0); [apply logs_ret |].
  destruct file; apply logs_ret.
Qed.

Lemma push_one_attr_loop_shape path allow src : forall info error,
  (forall t req, In t src -> req_source req = dir_source path t ->
                 req_allow_macros req = allow -> T req) ->
  logs T (push_one_attr_loop info path allow src error).
Proof.
  induction src as [| src_i src IH]; intros info error HT; simpl;
    [apply logs_ret |].
  destruct (negb (error =? 0)); [apply logs_ret |].
  apply logs_bind.
  - apply push_attr_source_shape. intros req Hs Ha.
    apply (HT src_i req); simpl; auto.
  - intros [error' files]. apply IH. intros t req Hin.
    apply HT. simpl. auto.
Qed.

End ShapeLogs.

Section CollectShapes.
Context `{Collaborators}.

Lemma logs_impl {A : Type} (T T' : cache_request -> Prop) (m : M A) :
  (forall req, T req -> T' req) -> logs T m -> logs T' m.
Proof.
  intros Himp Hm. eapply triple_conseq; [exact Hm |].
  simpl. intros _ calls Hall. eapply Forall_impl; eauto.
Qed.

Lemma push_one_attr_shape info path :
  logs (walk_request (info_workdir info) (info_flags info)
          (is_Some_b (info_index info)))
    (push_one_attr info path).
Proof.
  unfold push_one_attr. apply push_one_attr_loop_shape.
  intros t req Hin Hs Ha. exists path, t. auto.
Qed.

(** No push changes the flags, the work directory or the index of the
    walk's record. *)
Lemma push_one_attr_loop_static src : forall info path allow error s,
  info_flags (snd (fst (push_one_attr_loop info path allow src error s)))
    = info_flags info /\
  info_workdir (snd (fst (push_one_attr_loop info path allow src error s)))
    = info_workdir info /\
  info_index (snd (fst (push_one_attr_loop info path allow src error s)))
    = info_index info.
Proof.
  induction src as [| src_i src IH]; intros info path allow error s; simpl;
    [auto |].
  destruct (negb (error =? 0)); [simpl; auto |].
  rewrite bind_run.
  destruct (push_attr_source (info_repo info) (info_attr_session info)
              (info_files info)
              {| src_type := src_i; src_base := Some path;
                 src_filename := Some GIT_ATTR_FILE |} allow s)
    as [[e files] s1].
  cbn [fst snd].
  destruct (IH (set_files info files) path allow e s1) as (Hf & Hw & Hi).
  rewrite Hf, Hw, Hi. auto.
Qed.

Lemma walk_up_loop_shape dirs : forall info,
  logs (walk_request (info_workdir info) (info_flags info)
          (is_Some_b (info_index info)))
    (walk_up_loop dirs push_one_attr info).
Proof.
  induction dirs as [| d dirs IH]; intros info; simpl; [apply logs_ret |].
  intros s. rewrite bind_run.
  destruct (push_one_attr_shape info d s) as (c1 & Hr1 & Hq1).
  destruct (push_one_attr_loop_static
              (attr_decide_sources (info_flags info)
                 (is_Some_b (info_workdir info))
                 (is_Some_b (info_index info)))
              info d
              (match info_workdir info with
               | Some w => String.eqb w d
               | None => false
               end) 0 s) as (Hf & Hw & Hi).
  fold (push_one_attr info d) in Hf, Hw, Hi.
  destruct (push_one_attr info d s) as [[error info1] s1].
  cbn [fst snd] in *. destruct (error =? 0).
  - specialize (IH info1 s1). rewrite Hf, Hw, Hi in IH.
    destruct IH as (c2 & Hr2 & Hq2).
    exists (c1 ++ c2). rewrite Hr2, Hr1, app_assoc. split; [reflexivity |].
    apply Forall_app. auto.
  - exists c1. auto.
Qed.

Lemma attr_setup_shape repo attr_session flags :
  logs (fixed_request (git_repository_workdir repo) flags)
    (attr_setup repo attr_session flags).
Proof.
  unfold attr_setup.
  destruct (session_init_setup attr_session); [apply logs_ret |].
  apply logs_bind.
  { eapply triple_conseq; [apply attr_cache__init_triple |].
    simpl. intros _ c ->. constructor. }
  intros e0. destruct (e0 <? 0); [apply logs_ret |].
  destruct (system_attr_file GIT_BUF_INIT attr_session)
    as [[e1 system] sess1].
  apply logs_bind.
  { destruct (e1 <? 0); [apply logs_ret |].
    apply preload_attr_file_shape. intros req Hs Ha.
    split; [exact Ha |]. left. eauto. }
  intros e2. destruct (fatal e2); [apply logs_ret |].
  apply logs_bind.
  { apply preload_attr_file_shape. intros req Hs Ha.
    split; [exact Ha |]. left. eauto. }
  intros e3. destruct (e3 <? 0); [apply logs_ret |].
  destruct (git_repository_item_path repo) as [e4 info].
  apply logs_bind.
  { destruct (e4 <? 0); [apply logs_ret |].
    apply preload_attr_file_shape. intros req Hs Ha.
    split; [exact Ha |]. right. left. eauto. }
  intros e5. destruct (fatal e5); [apply logs_ret |].
  apply logs_bind.
  { destruct (git_repository_workdir repo) as [w |]; [| apply logs_ret].
    apply preload_attr_file_shape. intros req Hs Ha.
    split; [exact Ha |]. right. right. left. eauto. }
  intros e6. destruct (e6 <? 0); [apply logs_ret |].
  apply logs_bind.
  { destruct (fst (git_repository_index__weakptr repo) <? 0);
      [apply logs_ret |].
    apply preload_attr_source_shape. intros req Hs Ha.
    split; [exact Ha |]. right. right. right. left. exact Hs. }
  intros e7. destruct (e7 <? 0); [apply logs_ret |].
  apply logs_bind.
  { destruct (Z.land flags GIT_ATTR_CHECK_INCLUDE_HEAD =? 0) eqn:Hhead;
      [apply logs_ret |].
    apply preload_attr_source_shape. intros req Hs Ha.
    split; [exact Ha |]. right. right. right. right.
    split; [exact Hs |]. apply Z.eqb_neq. exact Hhead. }
  intros e8. destruct (e8 <? 0); apply logs_ret.
Qed.

(** Every request of a collection is a fixed request or a request of
    the walk. *)
Lemma collect_attr_files_shape repo attr_session flags path files :
  logs (collect_request repo flags)
    (collect_attr_files repo attr_session flags path files).
Proof.
  unfold collect_attr_files.
  apply logs_bind.
  { eapply logs_impl; [| apply attr_setup_shape]. intros req Hreq. left.
    exact Hreq. }
  intros [e0 sess1]. destruct (e0 <? 0); [apply logs_ret |].
  match goal with
  | |- logs _ (let (_, _) := ?x in _) => destruct x as [e1 dir]
  end.
  destruct (e1 <? 0); [apply logs_ret |].
  destruct (git_repository_item_path repo) as [e2 attrfile].
  apply logs_bind.
  { destruct (e2 <? 0); [apply logs_ret |].
    apply push_attr_source_shape. intros req Hs Ha. left.
    split; [exact Ha |]. right. left. eauto. }
  intros [e3 files1]. destruct (fatal e3); [apply logs_ret |].
  apply logs_bind.
  { eapply logs_impl; [intros req Hreq; right; exact Hreq |].
    destruct (String.eqb dir ".");
      [apply push_one_attr_shape | apply walk_up_loop_shape]. }
  intros [e4 info1]. destruct (e4 <? 0); [apply logs_ret |].
  apply logs_bind.
  { destruct (cfg_attr_file repo); [| apply logs_ret].
    apply push_attr_source_shape. intros req Hs Ha. left.
    split; [exact Ha |]. left. eauto. }
  intros [e5 files2]. destruct (e5 <? 0); [apply logs_ret |].
  destruct (Z.land flags GIT_ATTR_CHECK_NO_SYSTEM =? 0); [| apply logs_ret].
  destruct (system_attr_file dir sess1) as [[e6 dir'] sess2].
  apply logs_bind.
  { destruct (e6 =? 0).
    - apply push_attr_source_shape. intros req Hs Ha. left.
      split; [exact Ha |]. left. eauto.
    - destruct (e6 =? GIT_ENOTFOUND); apply logs_ret. }
  intros [e7 files3]. apply logs_ret.
Qed.

(** X6: the HEAD commit is consulted only on request.  Without
    INCLUDE_HEAD no request of a collection -- setup and walk alike --
    has a commit as its source. *)
Theorem collect_attr_files_head_opt_in (repo : git_repository)
    (attr_session : option git_attr_session) (flags : Z)
    (path : option string) (files : list git_attr_file) (s : state) :
  Z.land flags GIT_ATTR_CHECK_INCLUDE_HEAD = 0 ->
  exists calls,
    requests (snd (collect_attr_files repo attr_session flags path files s))
      = requests s ++ calls /\
    Forall (fun req =>
              src_type (req_source req) <> GIT_ATTR_FILE_SOURCE_COMMIT)
      calls.
Proof.
  intros Hhead.
  destruct (collect_attr_files_shape repo attr_session flags path files s)
    as (calls & Hr & Hall).
  exists calls. split; [exact Hr |].
  eapply Forall_impl; [exact Hall |]. simpl.
  intros req [[_ Hfixed] | (dir & t & Hs & Hin & _)] Htype.
  - destruct Hfixed as [[f Hs] | [[i Hs] | [(w & _ & Hs) | [Hs | [_ Hne]]]]];
      try (rewrite Hs in Htype; discriminate). contradiction.
  - rewrite Hs in Htype. simpl in Htype. subst t.
    apply attr_decide_sources_commit in Hin. contradiction.
Qed.

(** X7: without a work directory no working-tree [.gitattributes] is
    asked for.  In such a repository every request of a collection
    for a file named [.gitattributes] on the file system has no base
    directory (it can only be the configured or the system file). *)
Theorem collect_attr_files_bare (repo : git_repository)
    (attr_session : option git_attr_session) (flags : Z)
    (path : option string) (files : list git_attr_file) (s : state) :
  git_repository_workdir repo = None ->
  exists calls,
    requests (snd (collect_attr_files repo attr_session flags path files s))
      = requests s ++ calls /\
    Forall (fun req =>
              src_type (req_source req) = GIT_ATTR_FILE_SOURCE_FILE ->
              src_filename (req_source req) = Some GIT_ATTR_FILE ->
              src_base (req_source req) = None)
      calls.
Proof.
  intros Hbare.
  destruct (collect_attr_files_shape repo attr_session flags path files s)
    as (calls & Hr & Hall).
  exists calls. split; [exact Hr |].
  eapply Forall_impl; [exact Hall |]. simpl. unfold collect_request.
  rewrite Hbare.
  intros req [[_ Hfixed] | (dir & t & Hs & Hin & _)] Htype Hname.
  - destruct Hfixed as [[f Hs] | [[i Hs] | [(w & Hw & _) | [Hs | [Hs _]]]]].
    + rewrite Hs. reflexivity.
    + rewrite Hs in Hname. discriminate.
    + discriminate.
    + rewrite Hs. reflexivity.
    + rewrite Hs. reflexivity.
  - rewrite Hs in Htype. simpl in Htype. subst t.
    apply attr_decide_sources_file in Hin as [Hwd _]. discriminate.
Qed.

(** X8: with INDEX_ONLY the working tree is left alone below the
    root.  Every request of such a collection for a [.gitattributes]
    on the file system has no base directory or the work directory as
    its base: the only working-tree attribute file asked for is the
    root one, which the setup preloads. *)
Theorem collect_attr_files_index_only (repo : git_repository)
    (attr_session : option git_attr_session) (flags : Z)
    (path : option string) (files : list git_attr_file) (s : state) :
  Z.land flags 3 = GIT_ATTR_CHECK_INDEX_ONLY ->
  exists calls,
    requests (snd (collect_attr_files repo attr_session flags path files s))
      = requests s ++ calls /\
    Forall (fun req =>
              src_type (req_source req) = GIT_ATTR_FILE_SOURCE_FILE ->
              src_filename (req_source req) = Some GIT_ATTR_FILE ->
              src_base (req_source req) = None \/
              (src_base (req_source req) = git_repository_workdir repo /\
               req_allow_macros req = true))
      calls.
Proof.
  intros Honly.
  destruct (collect_attr_files_shape repo attr_session flags path files s)
    as (calls & Hr & Hall).
  exists calls. split; [exact Hr |].
  eapply Forall_impl; [exact Hall |]. simpl.
  intros req [[Ha Hfixed] | (dir & t & Hs & Hin & _)] Htype Hname.
  - destruct Hfixed as [[f Hs] | [[i Hs] | [(w & Hw & Hs) | [Hs | [Hs _]]]]];
      rewrite Hs in *; simpl in *; try discriminate; auto.
  - rewrite Hs in Htype. simpl in Htype. subst t.
    apply attr_decide_sources_file in Hin as [_ Hne]. contradiction.
Qed.

End CollectShapes.

(** ** Sound lookups *)

Section Soundness.
Context `{Collaborators}.

(** X9: a value [git_attr_get] hands out was assigned.  Whatever the
    files hold -- sorted or not -- a value other than NULL left in
    the slot is the value of an assignment to the queried name, in a
    rule that matches the path, of one of the collected files; and
    the call did not fail. *)
Theorem git_attr_get_sound (slot : value_ptr) (repo : git_repository)
    (flags : Z) (pathname : option string) (n : string) (s : state)
    (v : value_ptr) :
  snd (fst (git_attr_get (Some slot) (Some repo) flags pathname (Some n) s))
    = Some v ->
  v <> NULL ->
  0 <= fst (fst (git_attr_get (Some slot) (Some repo) flags pathname
                   (Some n) s)) /\
  exists path file rule a,
    git_attr_path__init repo pathname (git_repository_workdir repo)
      (dir_flag_of repo) = Some path /\
    In file
      (snd (fst (fst (collect_attr_files repo None flags pathname [] s)))) /\
    In rule (rules file) /\
    git_attr_rule__match rule path = true /\
    In a (assigns rule) /\
    assign_name a = n /\
    assign_value a = v.
Proof.
  rewrite (git_attr_get_eq slot repo flags pathname n s).
  destruct (git_attr_path__init _ _ _ _) as [path |]; simpl;
    [| intros [= <-] Hv; contradiction].
  destruct (collect_attr_files repo None flags pathname [] s)
    as [[[error files] sess'] s']; simpl.
  destruct (error <? 0) eqn:Hneg; [intros [= <-] Hv; contradiction |].
  apply Z.ltb_ge in Hneg. unfold first_match.
  destruct (head (omap (rule_value (attr_key n)) (matching_rules files path)))
    as [w |] eqn:Hhead; simpl; [| intros [= <-] Hv; contradiction].
  intros [= ->] _. split; [exact Hneg |].
  destruct (head_omap_In _ _ _ Hhead) as (rule & Hrule & Hval).
  destruct (matching_rules_In _ _ _ Hrule) as (file & Hfile & Hin & Hmatch).
  destruct (rule_value_sound _ _ _ Hval) as (a & Ha & Hkey & Hv).
  exists path, file, rule, a.
  split; [reflexivity |].
  repeat (split; [assumption |]). split; [| exact Hv].
  unfold assign_key, attr_key in Hkey. congruence.
Qed.

(** X10: earlier files shadow later ones.  The lookup over two
    vectors of files one after the other is the lookup in the first
    when a matching rule there carries the name, and the lookup in
    the second otherwise. *)
Theorem get_files_app (files1 files2 : list git_attr_file)
    (path : git_attr_path) (attr : git_attr_name) :
  get_files (files1 ++ files2) path attr =
    match get_files files1 path attr with
    | Some v => Some v
    | None => get_files files2 path attr
    end.
Proof.
  induction files1 as [| file files1 IH]; simpl; [reflexivity |].
  destruct (get_rules (foreach_matching_rule file path) attr);
    [reflexivity | exact IH].
Qed.

End Soundness.

Module ScenarioSound.
Import Scenario.

(** X9 at work: [diff] of src/main.c is the string of the [*.c] rule
    of /repo/src/.gitattributes. *)
Lemma git_attr_get_sound_witness :
  snd (fst (@git_attr_get world (Some NULL) (Some work_repo) 0
              (Some "src/main.c"%string) (Some "diff"%string) s0))
    = Some (str "cpp") /\
  0 <= fst (fst (@git_attr_get world (Some NULL) (Some work_repo) 0
                   (Some "src/main.c"%string) (Some "diff"%string) s0)).
Proof.
  split; [reflexivity |].
  refine (proj1
    (@git_attr_get_sound world NULL work_repo 0 (Some "src/main.c"%string)
       "diff" s0 (str "cpp") _ _)); [reflexivity | discriminate].
Defined.

End ScenarioSound.

(** ** The callback protocol of the enumeration *)

Section DeliverFacts.
Context {P : Type}.
Variable callback : string -> value_ptr -> P -> Z * P.

Lemma deliver_snoc pre n v : forall pl pl',
  deliver callback pre pl = (0, pl') ->
  deliver callback (pre ++ [(n, v)]) pl = callback n v pl'.
Proof.
  induction pre as [| [n0 v0] pre IH]; intros pl pl'; simpl.
  - intros [= <-]. destruct (callback n v pl) as [e p].
    destruct (e =? 0) eqn:He; [| reflexivity].
    apply Z.eqb_eq in He. subst e. reflexivity.
  - destruct (callback n0 v0 pl) as [e p].
    destruct (e =? 0) eqn:He; [apply IH |].
    intros [= -> ->]. discriminate.
Qed.

Lemma snoc_split {A : Type} (before after d : list A) (x : A) :
  before ++ after = d ++ [x] -> after <> [] ->
  before = d \/ exists after', after' <> [] /\ d = before ++ after'.
Proof.
  intros Heq Hne.
  destruct (exists_last Hne) as (after' & y & ->).
  rewrite app_assoc in Heq. apply app_inj_tail in Heq as [Hd _].
  destruct after' as [| z after'].
  - left. rewrite app_nil_r in Hd. exact Hd.
  - right. exists (z :: after'). split; [discriminate | auto].
Qed.

End DeliverFacts.

Section ForeachRun.
Context `{Collaborators}.
Context {P : Type}.
Variable callback : string -> value_ptr -> P -> Z * P.
Variable pl0 : P.

Lemma foreach_assigns_run l : forall st : @foreach_state P,
  foreach_run_inv callback pl0 st -> fe_error st = 0 ->
  foreach_run_inv callback pl0 (snd (foreach_assigns callback l st)) /\
  (exists new,
     delivered (snd (foreach_assigns callback l st)) = delivered st ++ new /\
     new `sublist_of` pairs_of l) /\
  (fst (foreach_assigns callback l st) = false ->
   fe_error (snd (foreach_assigns callback l st)) = 0).
Proof.
  induction l as [| a l IH]; intros st Hinv He.
  - simpl. split; [exact Hinv |]. split; [| auto].
    exists []. rewrite app_nil_r. split; [reflexivity | constructor].
  - cbn [foreach_assigns].
    destruct (is_Some_b (seen st !! assign_name a)) eqn:Hseen.
    + destruct (IH st Hinv He) as (Hi & (new & Hd & Hsub) & Hf).
      split; [exact Hi |]. split; [| exact Hf].
      exists new. split; [exact Hd |]. simpl. apply sublist_cons. exact Hsub.
    + destruct Hinv as (Hnd & Hs & Hrun & Hpre).
      assert (Hfresh : ~ In (assign_name a) (map fst (delivered st))).
      { intros Hin. apply Hs in Hin as [w Hw]. rewrite Hw in Hseen.
        discriminate. }
      destruct (callback (assign_name a) (assign_value a) (payload st))
        as [error pl] eqn:Hcb.
      set (st1 := {| fe_error := error;
                     seen := <[assign_name a := a]> (seen st);
                     payload := pl;
                     delivered := delivered st ++
                       [(assign_name a, assign_value a)] |}).
      assert (Hinv1 : foreach_run_inv callback pl0 st1).
      { unfold foreach_run_inv, st1; cbn [delivered seen fe_error payload].
        rewrite map_app. cbn [map fst].
        split; [| split; [| split]].
        - apply NoDup_app. split; [exact Hnd |].
          split; [| apply NoDup_singleton].
          intros x Hx Hx'. apply list_elem_of_In in Hx.
          apply list_elem_of_In in Hx'. destruct Hx' as [<- | []].
          contradiction.
        - intros n. rewrite in_app_iff. cbn [In].
          destruct (decide (assign_name a = n)) as [<- | Hne].
          + rewrite lookup_insert_eq. split; [auto | eauto].
          + rewrite lookup_insert_ne by exact Hne. rewrite Hs.
            split; [auto |]. intros [Hin | [Heq | []]]; [exact Hin |].
            contradiction.
        - rewrite He in Hrun.
          rewrite (deliver_snoc callback _ _ _ _ _ Hrun). exact Hcb.
        - intros before after Heq Hne.
          destruct (snoc_split _ _ _ _ (eq_sym Heq) Hne)
            as [-> | (after' & Hne' & Hd)].
          + rewrite Hrun. exact He.
          + apply (Hpre before after' Hd Hne'). }
      destruct (negb (error =? 0)) eqn:Herr.
      * cbn [fst snd]. split; [exact Hinv1 |]. split; [| discriminate].
        exists [(assign_name a, assign_value a)].
        split; [reflexivity |]. simpl. apply sublist_skip.
        apply sublist_nil_l.
      * assert (He1 : fe_error st1 = 0).
        { apply negb_false_iff, Z.eqb_eq in Herr. exact Herr. }
        destruct (IH st1 Hinv1 He1) as (Hi & (new & Hd & Hsub) & Hf).
        split; [exact Hi |]. split; [| exact Hf].
        exists ((assign_name a, assign_value a) :: new).
        split; [| simpl; apply sublist_skip; exact Hsub].
        rewrite Hd. unfold st1; cbn [delivered].
        rewrite <- app_assoc. reflexivity.
Qed.

Lemma foreach_rules_run matching : forall st : @foreach_state P,
  foreach_run_inv callback pl0 st -> fe_error st = 0 ->
  foreach_run_inv callback pl0 (snd (foreach_rules callback matching st)) /\
  (exists new,
     delivered (snd (foreach_rules callback matching st))
       = delivered st ++ new /\
     new `sublist_of` pairs_of (all_assigns matching)) /\
  (fst (foreach_rules callback matching st) = false ->
   fe_error (snd (foreach_rules callback matching st)) = 0).
Proof.
  induction matching as [| rule matching IH]; intros st Hinv He.
  - simpl. split; [exact Hinv |]. split; [| auto].
    exists []. rewrite app_nil_r. split; [reflexivity | constructor].
  - cbn [foreach_rules].
    destruct (foreach_assigns_run (assigns rule) st Hinv He)
      as (Hi1 & (new1 & Hd1 & Hsub1) & Hf1).
    destruct (foreach_assigns callback (assigns rule) st) as [stop st1].
    cbn [fst snd] in *.
    assert (Hall : pairs_of (all_assigns (rule :: matching)) =
                   pairs_of (assigns rule) ++ pairs_of (all_assigns matching)).
    { unfold all_assigns. simpl. apply pairs_of_app. }
    rewrite Hall. destruct stop; cbn [fst snd].
    + split; [exact Hi1 |]. split; [| discriminate].
      exists new1. split; [exact Hd1 |]. apply sublist_inserts_r.
      exact Hsub1.
    + destruct (IH st1 Hi1 (Hf1 eq_refl)) as (Hi & (new & Hd & Hsub) & Hf).
      split; [exact Hi |]. split; [| exact Hf].
      exists (new1 ++ new). rewrite Hd, Hd1, <- app_assoc.
      split; [reflexivity |]. apply sublist_app; assumption.
Qed.

Lemma foreach_files_run path files : forall st : @foreach_state P,
  foreach_run_inv callback pl0 st -> fe_error st = 0 ->
  foreach_run_inv callback pl0 (snd (foreach_files callback files path st)) /\
  (exists new,
     delivered (snd (foreach_files callback files path st))
       = delivered st ++ new /\
     new `sublist_of` pairs_of (all_assigns (matching_rules files path))).
Proof.
  induction files as [| file files IH]; intros st Hinv He.
  - simpl. split; [exact Hinv |].
    exists []. rewrite app_nil_r. split; [reflexivity | constructor].
  - cbn [foreach_files].
    destruct (foreach_rules_run (foreach_matching_rule file path) st Hinv He)
      as (Hi1 & (new1 & Hd1 & Hsub1) & Hf1).
    destruct (foreach_rules callback (foreach_matching_rule file path) st)
      as [stop st1].
    cbn [fst snd] in *.
    assert (Hall : pairs_of (all_assigns (matching_rules (file :: files) path))
                   = pairs_of (all_assigns (foreach_matching_rule file path))
                     ++ pairs_of (all_assigns (matching_rules files path))).
    { unfold all_assigns, matching_rules. simpl.
      rewrite flat_map_app. apply pairs_of_app. }
    rewrite Hall. destruct stop; cbn [fst snd].
    + split; [exact Hi1 |].
      exists new1. split; [exact Hd1 |]. apply sublist_inserts_r.
      exact Hsub1.
    + destruct (IH st1 Hi1 (Hf1 eq_refl)) as (Hi & (new & Hd & Hsub)).
      split; [exact Hi |].
      exists (new1 ++ new). rewrite Hd, Hd1, <- app_assoc.
      split; [reflexivity |]. apply sublist_app; assumption.
Qed.

Lemma foreach_run_inv_start :
  foreach_run_inv callback pl0
    {| fe_error := 0; seen := ∅; payload := pl0; delivered := [] |}.
Proof.
  unfold foreach_run_inv; simpl. split; [constructor |].
  split; [| split; [reflexivity |]].
  - intros n. rewrite lookup_empty. split; [intros [w Hw]; discriminate |].
    intros [].
  - intros before after Heq Hne. destruct before; [reflexivity |].
    discriminate.
Qed.

End ForeachRun.

Section ForeachFacts2.
Context `{Collaborators}.
Context {P : Type}.

(** The enumeration in one equation, when the path can be set up. *)
Lemma git_attr_foreach_eq (repo : git_repository) (flags : Z)
    (pathname : option string) (callback : string -> value_ptr -> P -> Z * P)
    (pl : P) (s : state) (path : git_attr_path) :
  git_attr_path__init repo pathname (git_repository_workdir repo)
    (dir_flag_of repo) = Some path ->
  fst (git_attr_foreach (Some repo) flags pathname (Some callback) pl s) =
    let r := fst (collect_attr_files repo None flags pathname [] s) in
    if fst (fst r) <? 0 then (fst (fst r), pl, [])
    else
      let st := snd (foreach_files callback (snd (fst r)) path
                       {| fe_error := 0; seen := ∅; payload := pl;
                          delivered := [] |}) in
      (fe_error st, payload st, delivered st).
Proof.
  intros Hpath. unfold git_attr_foreach. rewrite Hpath, bind_run.
  destruct (collect_attr_files repo None flags pathname [] s)
    as [[[error files] sess] s1].
  cbn [fst snd]. destruct (error <? 0); [reflexivity |].
  destruct (foreach_files callback files path _) as [stop st].
  reflexivity.
Qed.

(** X11: the enumeration reports each attribute name at most once,
    and in the order of the rules.  The pairs handed to the callback
    are pairwise different in their names and are a subsequence of
    the assignments of the rules matching the path, taken file after
    file in the order the loops visit them. *)
Theorem git_attr_foreach_once (repo : git_repository) (flags : Z)
    (pathname : option string) (callback : string -> value_ptr -> P -> Z * P)
    (pl : P) (s : state) (path : git_attr_path) :
  git_attr_path__init repo pathname (git_repository_workdir repo)
    (dir_flag_of repo) = Some path ->
  let pairs :=
    snd (fst (git_attr_foreach (Some repo) flags pathname (Some callback)
                pl s)) in
  NoDup (map fst pairs) /\
  pairs `sublist_of`
    pairs_of
      (all_assigns
         (matching_rules
            (snd (fst (fst (collect_attr_files repo None flags pathname []
                              s))))
            path)).
Proof.
  intros Hpath. cbv zeta.
  rewrite (git_attr_foreach_eq repo flags pathname callback pl s path Hpath).
  cbv zeta.
  destruct (fst (fst (fst (collect_attr_files repo None flags pathname [] s)))
            <? 0).
  { cbn [fst snd map]. split; [constructor | apply sublist_nil_l]. }
  cbn [fst snd].
  destruct (foreach_files_run callback pl path
              (snd (fst (fst (collect_attr_files repo None flags pathname []
                                s))))
              _ (foreach_run_inv_start callback pl) eq_refl)
    as ((Hnd & _) & (new & Hd & Hsub)).
  split; [exact Hnd |]. rewrite Hd. exact Hsub.
Qed.

(** X12: the callback protocol.  When the files were collected, the
    callback is run on the delivered pairs one after the other, each
    call receiving the payload as the call before left it; every
    call but the last returned 0, and the result of the last call --
    0, or the value that ended the enumeration -- is the error
    [git_attr_foreach] returns, as the callback gave it. *)
Theorem git_attr_foreach_callback (repo : git_repository) (flags : Z)
    (pathname : option string) (callback : string -> value_ptr -> P -> Z * P)
    (pl : P) (s : state) (path : git_attr_path) :
  git_attr_path__init repo pathname (git_repository_workdir repo)
    (dir_flag_of repo) = Some path ->
  0 <= fst (fst (fst (collect_attr_files repo None flags pathname [] s))) ->
  let r := fst (git_attr_foreach (Some repo) flags pathname (Some callback)
                  pl s) in
  deliver callback (snd r) pl = fst r /\
  (forall before after,
     snd r = before ++ after -> after <> [] ->
     fst (deliver callback before pl) = 0).
Proof.
  intros Hpath Hok. cbv zeta.
  rewrite (git_attr_foreach_eq repo flags pathname callback pl s path Hpath).
  cbv zeta.
  destruct (fst (fst (fst (collect_attr_files repo None flags pathname [] s)))
            <? 0) eqn:Hneg.
  { apply Z.ltb_lt in Hneg. lia. }
  cbn [fst snd].
  destruct (foreach_files_run callback pl path
              (snd (fst (fst (collect_attr_files repo None flags pathname []
                                s))))
              _ (foreach_run_inv_start callback pl) eq_refl)
    as ((_ & _ & Hrun & Hpre) & _).
  split; [exact Hrun | exact Hpre].
Qed.

(** X13: an enumeration that returns 0 is complete.  When the files
    were collected and [git_attr_foreach] returns 0, every name
    assigned by a rule matching the path was delivered, with the
    value of its first assignment in the order of the visit; a name
    no matching rule assigns was not delivered. *)
Theorem git_attr_foreach_complete (repo : git_repository) (flags : Z)
    (pathname : option string) (callback : string -> value_ptr -> P -> Z * P)
    (pl : P) (s : state) (path : git_attr_path) :
  git_attr_path__init repo pathname (git_repository_workdir repo)
    (dir_flag_of repo) = Some path ->
  0 <= fst (fst (fst (collect_attr_files repo None flags pathname [] s))) ->
  fst (fst (fst (git_attr_foreach (Some repo) flags pathname (Some callback)
                   pl s))) = 0 ->
  forall n,
    first_named n
      (snd (fst (git_attr_foreach (Some repo) flags pathname (Some callback)
                   pl s)))
    = first_named n
        (pairs_of
           (all_assigns
              (matching_rules
                 (snd (fst (fst (collect_attr_files repo None flags pathname
                                   [] s))))
                 path))).
Proof.
  intros Hpath Hok.
  rewrite (git_attr_foreach_eq repo flags pathname callback pl s path Hpath).
  cbv zeta.
  destruct (fst (fst (fst (collect_attr_files repo None flags pathname [] s)))
            <? 0) eqn:Hneg.
  { apply Z.ltb_lt in Hneg. lia. }
  cbn [fst snd].
  set (st0 := {| fe_error := 0; seen := ∅; payload := pl;
                 delivered := [] |}).
  assert (Hinv0 : foreach_inv [] st0).
  { split; intros n'; simpl; [reflexivity |].
    rewrite lookup_empty. split; intros [w Hw]; discriminate. }
  destruct (foreach_files_spec callback path
              (snd (fst (fst (collect_attr_files repo None flags pathname []
                                s))))
              [] st0 Hinv0)
    as (stop & st & done & rest & Hrun & Hall & [Hdel _] & Hc & He).
  rewrite Hrun. cbn [fst snd]. intros Herr n.
  destruct stop; [exfalso; apply (He eq_refl); exact Herr |].
  rewrite Hall, (Hc eq_refl), app_nil_r. apply Hdel.
Qed.

End ForeachFacts2.

(** ** The slots the multi-attribute lookup writes *)

Section GetManyBounds.
Context `{Collaborators}.
Local Open Scope nat_scope.

Lemma get_many_step_beyond rule names num_attr k st j :
  k < j ->
  length (infos (snd (get_many_step rule names num_attr k st)))
    = length (infos st) /\
  values_out (snd (get_many_step rule names num_attr k st)) !! j
    = values_out st !! j.
Proof.
  intros Hk. unfold get_many_step.
  destruct (many_found _); [auto |].
  destruct (git_vector_bsearch _ _); cbn [snd infos values_out];
    rewrite length_insert; split; try reflexivity.
  apply list_lookup_insert_ne. lia.
Qed.

Lemma get_many_names_beyond rule names num_attr j : forall todo st,
  todo <= num_attr -> num_attr <= j ->
  length (infos (snd (get_many_names rule names num_attr todo st)))
    = length (infos st) /\
  values_out (snd (get_many_names rule names num_attr todo st)) !! j
    = values_out st !! j.
Proof.
  induction todo as [| todo IH]; intros st Htodo Hj; simpl; [auto |].
  destruct (get_many_step_beyond rule names num_attr (num_attr - S todo) st j)
    as [Hlen Hval]; [lia |].
  destruct (get_many_step rule names num_attr (num_attr - S todo) st)
    as [stop st1].
  cbn [snd] in *. destruct stop; [auto |].
  destruct (IH st1) as [Hlen' Hval']; [lia | lia |].
  rewrite Hlen', Hval'. auto.
Qed.

Lemma get_many_rules_beyond names num_attr j matching : forall st,
  num_attr <= j ->
  length (infos (snd (get_many_rules matching names num_attr st)))
    = length (infos st) /\
  values_out (snd (get_many_rules matching names num_attr st)) !! j
    = values_out st !! j.
Proof.
  induction matching as [| rule matching IH]; intros st Hj; simpl; [auto |].
  destruct (get_many_names_beyond rule names num_attr j num_attr st)
    as [Hlen Hval]; [lia | lia |].
  destruct (get_many_names rule names num_attr num_attr st) as [stop st1].
  cbn [snd] in *. destruct stop; [auto |].
  destruct (IH st1 Hj) as [Hlen' Hval']. rewrite Hlen', Hval'. auto.
Qed.

Lemma get_many_files_beyond path names num_attr j files : forall st,
  num_attr <= j ->
  length (infos (snd (get_many_files files path names num_attr st)))
    = length (infos st) /\
  values_out (snd (get_many_files files path names num_attr st)) !! j
    = values_out st !! j.
Proof.
  induction files as [| file files IH]; intros st Hj; simpl; [auto |].
  destruct (get_many_rules_beyond names num_attr j
              (foreach_matching_rule file path) st Hj) as [Hlen Hval].
  destruct (get_many_rules (foreach_matching_rule file path) names num_attr st)
    as [stop st1].
  cbn [snd] in *. destruct stop; [auto |].
  destruct (IH st1 Hj) as [Hlen' Hval']. rewrite Hlen', Hval'. auto.
Qed.

Lemma get_many_fill_after infos : forall k0 values j,
  k0 + length infos <= j -> get_many_fill infos k0 values !! j = values !! j.
Proof.
  induction infos as [| i infos IH]; intros k0 values j Hj; simpl in *;
    [reflexivity |].
  rewrite IH by lia. destruct (many_found i); [reflexivity |].
  apply list_lookup_insert_ne. lia.
Qed.

(** X14: the multi-attribute lookup writes the requested slots only.
    Whatever the arguments and the outcome, every entry of the
    caller's array at an index from [num_attr] on is after the call
    what it was before: neither the search loops nor the closing
    loop, which stores NULL for the names not found, reach it. *)
Theorem git_attr_get_many_with_session_bounds (vals : list value_ptr)
    (repo : option git_repository) (attr_session : option git_attr_session)
    (flags : Z) (pathname : option string) (num_attr : nat)
    (names : option (list string)) (s : state) :
  exists out,
    snd (fst (fst (git_attr_get_many_with_session (Some vals) repo
                     attr_session flags pathname num_attr names s)))
      = Some out /\
    forall j, num_attr <= j -> out !! j = vals !! j.
Proof.
  unfold git_attr_get_many_with_session.
  destruct (num_attr =? 0); [exists vals; auto |].
  destruct repo as [repo |]; [| exists vals; auto].
  destruct pathname as [p |]; [| exists vals; auto].
  destruct names as [names |]; [| exists vals; auto].
  destruct (git_attr_path__init _ _ _ _) as [path |]; [| exists vals; auto].
  rewrite bind_run.
  destruct (collect_attr_files repo attr_session flags (Some p) [] s)
    as [[[error files] sess'] s'].
  cbn [fst snd]. destruct (error <? 0)%Z; [exists vals; auto |].
  set (st0 := {| infos := calloc_info num_attr; values_out := vals;
                 num_found := 0 |}).
  pose proof (fun j => get_many_files_beyond path names num_attr j files st0)
    as Hloop.
  destruct (get_many_files files path names num_attr st0) as [stop st].
  cbn [snd] in Hloop. destruct stop; cbn [fst snd].
  - exists (values_out st). split; [reflexivity |].
    intros j Hj. apply (Hloop j Hj).
  - exists (get_many_fill (infos st) 0 (values_out st)).
    split; [reflexivity |]. intros j Hj.
    destruct (Hloop j Hj) as [Hlen Hval].
    rewrite get_many_fill_after; [exact Hval |].
    rewrite Hlen. unfold st0, calloc_info; cbn [infos].
    rewrite length_replicate. lia.
Qed.

End GetManyBounds.

(** ** A setup that fails *)

Section SetupFailure.
Context `{Collaborators}.

Lemma attr_setup_unmarked repo attr_session flags :
  triple (attr_setup repo attr_session flags)
    (fun r _ =>
       fst r < 0 -> session_init_setup (snd r) = false).
Proof.
  unfold attr_setup.
  destruct (session_init_setup attr_session) eqn:Hdone; [vacuous_leaf |].
  apply (triple_bind _ _ (fun _ _ => True)).
  { eapply triple_conseq; [apply attr_cache__init_triple | auto]. }
  intros e0 c0 _. destruct (e0 <? 0) eqn:H0; [vacuous_leaf |].
  destruct (system_attr_file_session GIT_BUF_INIT attr_session)
    as [Hsame _].
  destruct (system_attr_file GIT_BUF_INIT attr_session)
    as [[e1 system] sess1]. cbn [snd] in Hsame. rewrite Hdone in Hsame.
  apply (triple_bind _ _ (fun _ _ => True)).
  { apply (logs_any (trust_ok (git_repository_workdir repo))).
    destruct (e1 <? 0); [apply logs_ret |].
    apply preload_attr_file_logs, nested_source_global. }
  intros e2 c2 _. destruct (fatal e2) eqn:H2; [vacuous_leaf |].
  apply (triple_bind _ _ (fun _ _ => True)).
  { apply (logs_any (trust_ok (git_repository_workdir repo))).
    apply preload_attr_file_logs, nested_source_global. }
  intros e3 c3 _. destruct (e3 <? 0) eqn:H3; [vacuous_leaf |].
  destruct (git_repository_item_path repo) as [e4 info].
  apply (triple_bind _ _ (fun _ _ => True)).
  { apply (logs_any (trust_ok (git_repository_workdir repo))).
    destruct (e4 <? 0); [apply logs_ret |].
    apply preload_attr_file_logs, nested_source_info. }
  intros e5 c5 _. destruct (fatal e5) eqn:H5; [vacuous_leaf |].
  apply (triple_bind _ _ (fun _ _ => True)).
  { apply (logs_any (trust_ok (git_repository_workdir repo))).
    destruct (git_repository_workdir repo) as [w |]; [| apply logs_ret].
    apply preload_attr_file_logs, nested_source_root. }
  intros e6 c6 _. destruct (e6 <? 0) eqn:H6; [vacuous_leaf |].
  apply (triple_bind _ _ (fun _ _ => True)).
  { apply (logs_any (trust_ok (git_repository_workdir repo))).
    destruct (fst (git_repository_index__weakptr repo) <? 0);
      [apply logs_ret |].
    apply preload_attr_source_logs, nested_source_global. }
  intros e7 c7 _. destruct (e7 <? 0) eqn:H7; [vacuous_leaf |].
  apply (triple_bind _ _ (fun _ _ => True)).
  { apply (logs_any (trust_ok (git_repository_workdir repo))).
    destruct (Z.land flags GIT_ATTR_CHECK_INCLUDE_HEAD =? 0);
      [apply logs_ret |].
    apply preload_attr_source_logs, nested_source_global. }
  intros e8 c8 _. destruct (e8 <? 0) eqn:H8; vacuous_leaf.
Qed.

Lemma attr_setup_keeps_session repo attr_session flags :
  triple (attr_setup repo attr_session flags)
    (fun r _ => is_Some_b (snd r) = is_Some_b attr_session).
Proof.
  unfold attr_setup.
  destruct (session_init_setup attr_session) eqn:Hdone; [vacuous_leaf |].
  apply (triple_bind _ _ (fun _ _ => True)).
  { eapply triple_conseq; [apply attr_cache__init_triple | auto]. }
  intros e0 c0 _. destruct (e0 <? 0) eqn:H0; [vacuous_leaf |].
  destruct (system_attr_file_session GIT_BUF_INIT attr_session)
    as [_ Hsame].
  destruct (system_attr_file GIT_BUF_INIT attr_session)
    as [[e1 system] sess1]. cbn [snd] in Hsame.
  apply (triple_bind _ _ (fun _ _ => True)).
  { apply (logs_any (trust_ok (git_repository_workdir repo))).
    destruct (e1 <? 0); [apply logs_ret |].
    apply preload_attr_file_logs, nested_source_global. }
  intros e2 c2 _. destruct (fatal e2) eqn:H2; [vacuous_leaf |].
  apply (triple_bind _ _ (fun _ _ => True)).
  { apply (logs_any (trust_ok (git_repository_workdir repo))).
    apply preload_attr_file_logs, nested_source_global. }
  intros e3 c3 _. destruct (e3 <? 0) eqn:H3; [vacuous_leaf |].
  destruct (git_repository_item_path repo) as [e4 info].
  apply (triple_bind _ _ (fun _ _ => True)).
  { apply (logs_any (trust_ok (git_repository_workdir repo))).
    destruct (e4 <? 0); [apply logs_ret |].
    apply preload_attr_file_logs, nested_source_info. }
  intros e5 c5 _. destruct (fatal e5) eqn:H5; [vacuous_leaf |].
  apply (triple_bind _ _ (fun _ _ => True)).
  { apply (logs_any (trust_ok (git_repository_workdir repo))).
    destruct (git_repository_workdir repo) as [w |]; [| apply logs_ret].
    apply preload_attr_file_logs, nested_source_root. }
  intros e6 c6 _. destruct (e6 <? 0) eqn:H6; [vacuous_leaf |].
  apply (triple_bind _ _ (fun _ _ => True)).
  { apply (logs_any (trust_ok (git_repository_workdir repo))).
    destruct (fst (git_repository_index__weakptr repo) <? 0);
      [apply logs_ret |].
    apply preload_attr_source_logs, nested_source_global. }
  intros e7 c7 _. destruct (e7 <? 0) eqn:H7; [vacuous_leaf |].
  apply (triple_bind _ _ (fun _ _ => True)).
  { apply (logs_any (trust_ok (git_repository_workdir repo))).
    destruct (Z.land flags GIT_ATTR_CHECK_INCLUDE_HEAD =? 0);
      [apply logs_ret |].
    apply preload_attr_source_logs, nested_source_global. }
  intros e8 c8 _. destruct (e8 <? 0) eqn:H8; [vacuous_leaf |].
  apply triple_ret. cbn [fst snd]. rewrite <- Hsame.
  destruct sess1; reflexivity.
Qed.

Lemma attr_setup_marks_some repo attr_session flags s :
  is_Some_b attr_session = true ->
  exists sess', snd (fst (attr_setup repo attr_session flags s)) = Some sess'.
Proof.
  intros Hsome.
  destruct (attr_setup_keeps_session repo attr_session flags s)
    as (c & _ & Hkeep).
  rewrite Hsome in Hkeep.
  destruct (snd (fst (attr_setup repo attr_session flags s))) as [sess' |];
    [eauto | discriminate].
Qed.

(** X15: a setup that fails is not remembered.  When [attr_setup]
    returns a negative error, at whichever of its steps, the session
    it leaves is not marked as set up: the next query with this
    session runs the setup again. *)
Theorem attr_setup_failure_unmarked (repo : git_repository)
    (sess : git_attr_session) (flags : Z) (s : state) :
  fst (fst (attr_setup repo (Some sess) flags s)) < 0 ->
  exists sess',
    snd (fst (attr_setup repo (Some sess) flags s)) = Some sess' /\
    init_setup sess' = false.
Proof.
  intros Hfail.
  destruct (attr_setup_unmarked repo (Some sess) flags s) as (c & _ & Hun).
  specialize (Hun Hfail).
  destruct (attr_setup_marks_some repo (Some sess) flags s) as [sess' Hs'];
    [reflexivity |].
  exists sess'. split; [exact Hs' |]. rewrite Hs' in Hun. exact Hun.
Qed.

End SetupFailure.

(** ** The further properties at work *)

Module ScenarioMore.
Import Scenario.

(** X3 at work: the second setup of a session makes no request. *)
Lemma attr_setup_once_witness :
  0 <= fst (fst (@attr_setup world work_repo (Some fresh) 0 s0)) /\
  @attr_setup world work_repo
    (snd (fst (@attr_setup world work_repo (Some fresh) 0 s0))) 4 s0
  = ((0, snd (fst (@attr_setup world work_repo (Some fresh) 0 s0))), s0).
Proof.
  split; [vm_compute; discriminate |].
  apply (@attr_setup_once world work_repo fresh 0 4 s0 s0).
  vm_compute. discriminate.
Defined.

(** X4 at work: after a collection for src/x.bin the session is set
    up. *)
Lemma collect_attr_files_session_ready_witness :
  0 <= fst (fst (fst (@collect_attr_files world work_repo (Some fresh) 0
                        (Some "src/x.bin"%string) [] s0))) /\
  @attr_setup world work_repo
    (snd (fst (@collect_attr_files world work_repo (Some fresh) 0
                 (Some "src/x.bin"%string) [] s0))) 0 s0
  = ((0, snd (fst (@collect_attr_files world work_repo (Some fresh) 0
                     (Some "src/x.bin"%string) [] s0))), s0).
Proof.
  split; [vm_compute; discriminate |].
  apply (@collect_attr_files_session_ready world work_repo fresh 0 0
           (Some "src/x.bin"%string) [] s0 s0).
  vm_compute. discriminate.
Defined.

(** X5 at work: the cache of [broken_repo] cannot be set up; the
    collection fails with that error and returns no file. *)
Lemma collect_attr_files_failure_empty_witness :
  fst (fst (fst (@collect_attr_files world broken_repo None 0
                   (Some "src/x.bin"%string) [] s0))) < 0 /\
  snd (fst (fst (@collect_attr_files world broken_repo None 0
                   (Some "src/x.bin"%string) [] s0))) = [].
Proof.
  split; [reflexivity |].
  apply (@collect_attr_files_failure_empty world broken_repo None 0
           (Some "src/x.bin"%string) s0).
  reflexivity.
Defined.

(** X6 at work: with flags 0 no request is for a commit. *)
Lemma collect_attr_files_head_opt_in_witness :
  Z.land 0 GIT_ATTR_CHECK_INCLUDE_HEAD = 0 /\
  exists calls,
    requests (snd (@collect_attr_files world work_repo None 0
                     (Some "src/x.bin"%string) [] s0))
      = requests s0 ++ calls /\
    Forall (fun req =>
              src_type (req_source req) <> GIT_ATTR_FILE_SOURCE_COMMIT)
      calls.
Proof.
  split; [reflexivity |].
  apply (@collect_attr_files_head_opt_in world work_repo None 0
           (Some "src/x.bin"%string) [] s0).
  reflexivity.
Defined.

(** X7 at work: a repository without work directory. *)
Lemma collect_attr_files_bare_witness :
  @git_repository_workdir world bare_repo = None /\
  exists calls,
    requests (snd (@collect_attr_files world bare_repo None 0
                     (Some "src/x.bin"%string) [] s0))
      = requests s0 ++ calls /\
    Forall (fun req =>
              src_type (req_source req) = GIT_ATTR_FILE_SOURCE_FILE ->
              src_filename (req_source req) = Some GIT_ATTR_FILE ->
              src_base (req_source req) = None)
      calls.
Proof.
  split; [reflexivity |].
  apply (@collect_attr_files_bare world bare_repo None 0
           (Some "src/x.bin"%string) [] s0).
  reflexivity.
Defined.

(** X8 at work: INDEX_ONLY on src/x.bin. *)
Lemma collect_attr_files_index_only_witness :
  Z.land GIT_ATTR_CHECK_INDEX_ONLY 3 = GIT_ATTR_CHECK_INDEX_ONLY /\
  exists calls,
    requests (snd (@collect_attr_files world work_repo None
                     GIT_ATTR_CHECK_INDEX_ONLY
                     (Some "src/x.bin"%string) [] s0))
      = requests s0 ++ calls /\
    Forall (fun req =>
              src_type (req_source req) = GIT_ATTR_FILE_SOURCE_FILE ->
              src_filename (req_source req) = Some GIT_ATTR_FILE ->
              src_base (req_source req) = None \/
              (src_base (req_source req)
                 = @git_repository_workdir world work_repo /\
               req_allow_macros req = true))
      calls.
Proof.
  split; [reflexivity |].
  apply (@collect_attr_files_index_only world work_repo None
           GIT_ATTR_CHECK_INDEX_ONLY (Some "src/x.bin"%string) [] s0).
  reflexivity.
Defined.

(** X11 at work: src/x.bin is matched by [*.bin] of src/ and by [*]
    of the root; [text] of the root rule is not delivered again. *)
Lemma git_attr_foreach_once_witness :
  snd (fst (@git_attr_foreach world nat (Some work_repo) 0
              (Some "src/x.bin"%string) (Some count_all) 0%nat s0))
    = [("diff"%string, git_attr__unset); ("text"%string, git_attr__false)] /\
  NoDup
    (map fst
       (snd (fst (@git_attr_foreach world nat (Some work_repo) 0
                    (Some "src/x.bin"%string) (Some count_all) 0%nat s0)))).
Proof.
  split; [reflexivity |].
  refine (proj1
    (@git_attr_foreach_once world nat work_repo 0 (Some "src/x.bin"%string)
       count_all 0%nat s0 "src/x.bin"%string _)).
  reflexivity.
Defined.

(** X12 at work on src/main.c: the callback stops at [text], the
    second pair, and its 7 is the result. *)
Lemma git_attr_foreach_callback_witness :
  fst (@git_attr_foreach world nat (Some work_repo) 0
         (Some "src/main.c"%string) (Some stop_at_text) 0%nat s0)
    = (7, 2%nat, [("diff"%string, str "cpp");
                  ("text"%string, git_attr__true)]) /\
  deliver stop_at_text
    (snd (fst (@git_attr_foreach world nat (Some work_repo) 0
                 (Some "src/main.c"%string) (Some stop_at_text) 0%nat s0)))
    0%nat
  = fst (fst (@git_attr_foreach world nat (Some work_repo) 0
                (Some "src/main.c"%string) (Some stop_at_text) 0%nat s0)).
Proof.
  split; [reflexivity |].
  refine (proj1
    (@git_attr_foreach_callback world nat work_repo 0
       (Some "src/main.c"%string) stop_at_text 0%nat s0
       "src/main.c"%string _ _)); [reflexivity | vm_compute; discriminate].
Defined.

(** X13 at work: the enumeration for src/x.bin returns 0; [text] was
    delivered with the value of the [*.bin] rule, the first one
    visited. *)
Lemma git_attr_foreach_complete_witness :
  fst (fst (fst (@git_attr_foreach world nat (Some work_repo) 0
                   (Some "src/x.bin"%string) (Some count_all) 0%nat s0)))
    = 0 /\
  first_named "text"
    (snd (fst (@git_attr_foreach world nat (Some work_repo) 0
                 (Some "src/x.bin"%string) (Some count_all) 0%nat s0)))
  = first_named "text"
      (pairs_of
         (all_assigns
            (@matching_rules world
               (snd (fst (fst (@collect_attr_files world work_repo None 0
                                 (Some "src/x.bin"%string) [] s0))))
               "src/x.bin"%string))).
Proof.
  split; [reflexivity |].
  apply (@git_attr_foreach_complete world nat work_repo 0
           (Some "src/x.bin"%string) count_all 0%nat s0 "src/x.bin"%string);
    [reflexivity | vm_compute; discriminate | reflexivity].
Defined.

(** X15 at work: the setup of [broken_repo] fails and leaves the
    session unmarked. *)
Lemma attr_setup_failure_unmarked_witness :
  fst (fst (@attr_setup world broken_repo (Some fresh) 0 s0)) < 0 /\
  exists sess',
    snd (fst (@attr_setup world broken_repo (Some fresh) 0 s0)) = Some sess' /\
    init_setup sess' = false.
Proof.
  split; [reflexivity |].
  apply (@attr_setup_failure_unmarked world broken_repo fresh 0 s0).
  reflexivity.
Defined.

End ScenarioMore.
